(** * Library management system: a shallow embedding of [librarymanagment.py]

    The program keeps three SQLite tables (books, members, loans) and runs
    every operation in a transaction of its own, on a connection of its own.
    The embedding follows the source function by function:

    - a table with an [INTEGER PRIMARY KEY AUTOINCREMENT] is a finite map
      from row ids to rows, together with the counter SQLite keeps in
      [sqlite_sequence];
    - every [conn.execute] of the source is one statement of the [stmt]
      monad below (state: the database; failure: a Python exception);
    - [with closing(get_conn()) as conn, conn:] is [transaction]: commit
      when the body returns, roll back when it raises;
    - what an operation prints is part of its result: each operation
      returns a report value, one constructor per message of the source;
    - [datetime.now()] reads the wall clock: the calendar day on which an
      operation runs is an argument [now] of the operation.

    Numbers.  A Python [int] is a [Z].  An INTEGER of SQLite is a signed
    64-bit number: an [int] outside that range among the parameters of a
    statement raises [OverflowError] when the statement is executed, and a
    table whose AUTOINCREMENT counter has reached the largest of these
    numbers refuses further rows.

    Dates.  A date is the day number [date.toordinal()] gives it, from 1
    for 0001-01-01 to 3652059 for 9999-12-31, the days a [datetime] can
    hold.  The TEXT columns that hold dates hold what [strftime] makes of
    such a day and nothing else, and are kept as the day; [strftime] gives
    the text, which is what SQLite compares in [<] and [ORDER BY] and what
    [strptime] reads back.  The text of a day before the year 1000 has
    fewer than four digits for the year: it is not in calendar order with
    the other texts, and [strptime] does not read it.

    Strings are [string]s of 8-bit characters read as the code points
    U+0000..U+00FF.  The numbers in the columns of a database are taken
    to be INTEGERs, as every number the program writes is. *)

From Stdlib Require Import ZArith Ascii String DecimalString.
From stdpp Require Import base decidable option list gmap fin_maps strings sorting.

Local Open Scope string_scope.
Local Open Scope Z_scope.

(** ** Python strings: [str.strip] and truthiness *)

(** [str.isspace] on U+0000..U+00FF: tab, line feed, vertical tab, form
    feed, carriage return, the four separators U+001C..U+001F, space,
    next line U+0085 and no-break space U+00A0. *)
Definition is_space (c : ascii) : bool :=
  let n := N_of_ascii c in
  ((9 <=? n) && (n <=? 13) || (28 <=? n) && (n <=? 32)
   || (n =? 133) || (n =? 160))%N.

Fixpoint lstrip (s : string) : string :=
  match s with
  | EmptyString => EmptyString
  | String c s' => if is_space c then lstrip s' else s
  end.

Fixpoint rstrip (s : string) : string :=
  match s with
  | EmptyString => EmptyString
  | String c s' =>
      match rstrip s' with
      | EmptyString => if is_space c then EmptyString else String c EmptyString
      | r => String c r
      end
  end.

(** [s.strip()] *)
Definition strip (s : string) : string := rstrip (lstrip s).

(** [x.strip() if x else None], for [x : Optional[str]]: both [None] and
    the empty string are false. *)
Definition strip_if (x : option string) : option string :=
  match x with
  | Some s => if decide (s = "") then None else Some (strip s)
  | None => None
  end.

(** ** Integers *)

(** The numbers an INTEGER of SQLite holds, and [sqlite3] binds as the
    parameter of a statement. *)
Definition sqlite_int (n : Z) : Prop :=
  -9223372036854775808 ≤ n ≤ 9223372036854775807.
Global Instance sqlite_int_dec n : Decision (sqlite_int n).
Proof. unfold sqlite_int; apply _. Defined.

(** ** Dates: [datetime] *)

(** A calendar day, as [date.toordinal()] numbers it. *)
Definition date : Type := Z.

(** [date.min.toordinal()] and [date.max.toordinal()]: 0001-01-01 and
    9999-12-31. *)
Definition min_day : date := 1.
Definition max_day : date := 3652059.

(** [_DAYS_BEFORE_MONTH] and [_DAYS_IN_MONTH] of [datetime], for the
    months 1..12 of a year that is not a leap year. *)
Definition days_before_month (month : Z) : Z :=
  match month with
  | 1 => 0 | 2 => 31 | 3 => 59 | 4 => 90 | 5 => 120 | 6 => 151
  | 7 => 181 | 8 => 212 | 9 => 243 | 10 => 273 | 11 => 304 | 12 => 334
  | _ => -1
  end.
Definition days_in_month (month : Z) : Z :=
  match month with
  | 1 => 31 | 2 => 28 | 3 => 31 | 4 => 30 | 5 => 31 | 6 => 30
  | 7 => 31 | 8 => 31 | 9 => 30 | 10 => 31 | 11 => 30 | 12 => 31
  | _ => -1
  end.

(** [_ord2ymd] of [datetime]: the year, month and day of a day number, by
    cycles of 400, 100, 4 and 1 years (of 146097, 36524, 1461 and 365
    days). *)
Definition ord2ymd (ordinal : date) : Z * Z * Z :=
  let n := ordinal - 1 in
  let n400 := n / 146097 in
  let n := n mod 146097 in
  let year := n400 * 400 + 1 in
  let n100 := n / 36524 in
  let n := n mod 36524 in
  let n4 := n / 1461 in
  let n := n mod 1461 in
  let n1 := n / 365 in
  let n := n mod 365 in
  let year := year + n100 * 100 + n4 * 4 + n1 in
  if decide (n1 = 4 ∨ n100 = 4) then (year - 1, 12, 31)
  else
    let leapyear := bool_decide (n1 = 3 ∧ (n4 ≠ 24 ∨ n100 = 3)) in
    let month := Z.shiftr (n + 50) 5 in
    let preceding :=
      days_before_month month
      + (if bool_decide (month > 2) && leapyear then 1 else 0) in
    if decide (preceding > n) then
      let month := month - 1 in
      let preceding :=
        preceding - (days_in_month month
                     + (if bool_decide (month = 2) && leapyear then 1 else 0)) in
      (year, month, n - preceding + 1)
    else (year, month, n - preceding + 1).

(** The character of a digit 0..9. *)
Definition digit (n : Z) : ascii := ascii_of_N (Z.to_N (48 + n)).

(** [%m] and [%d]: two digits. *)
Definition two_digits (n : Z) : string :=
  String (digit (n / 10)) (String (digit (n mod 10)) EmptyString).

(** [%Y], as the C library prints it: the year in decimal, with as many
    digits as it has (the years are 1..9999). *)
Definition decimal (n : Z) : string :=
  if decide (n < 10) then String (digit n) EmptyString
  else if decide (n < 100) then two_digits n
  else if decide (n < 1000) then String (digit (n / 100)) (two_digits (n mod 100))
  else String (digit (n / 1000))
         (String (digit (n / 100 mod 10)) (two_digits (n mod 100))).

(** [d.strftime("%Y-%m-%d")], with [DATE_FMT = "%Y-%m-%d"]. *)
Definition strftime (d : date) : string :=
  let '(year, month, day) := ord2ymd d in
  decimal year +:+ "-" +:+ two_digits month +:+ "-" +:+ two_digits day.

(** The year of the text has four digits: [%Y] of [strptime] reads exactly
    four. *)
Definition four_digit_year (d : date) : Prop :=
  1000 ≤ (ord2ymd d).1.1 ≤ 9999.
Global Instance four_digit_year_dec d : Decision (four_digit_year d).
Proof. unfold four_digit_year; apply _. Defined.

(** [timedelta(days=n)] takes a number of days of at most nine digits. *)
Definition timedelta_days (n : Z) : Prop := -999999999 ≤ n ≤ 999999999.
Global Instance timedelta_days_dec n : Decision (timedelta_days n).
Proof. unfold timedelta_days; apply _. Defined.

(** The days a [datetime] holds. *)
Definition datetime_day (d : Z) : Prop := min_day ≤ d ≤ max_day.
Global Instance datetime_day_dec d : Decision (datetime_day d).
Proof. unfold datetime_day; apply _. Defined.

(** SQLite compares two TEXT values byte by byte. *)
Definition text_lt (s1 s2 : string) : Prop := String.ltb s1 s2 = true.
Global Instance text_lt_dec s1 s2 : Decision (text_lt s1 s2).
Proof. unfold text_lt; apply _. Defined.

(** ** The data model: the schema of [init_db] *)

Record book : Type := Book {
  title : string;               (* TEXT NOT NULL *)
  author : string;              (* TEXT NOT NULL *)
  isbn : option string;         (* TEXT UNIQUE *)
  copies_total : Z;             (* INTEGER NOT NULL *)
  copies_available : Z;         (* INTEGER NOT NULL *)
  created_at : date             (* TEXT NOT NULL *)
}.

Record member : Type := Member {
  name : string;                (* TEXT NOT NULL *)
  email : option string;        (* TEXT UNIQUE *)
  phone : option string;        (* TEXT *)
  joined_at : date              (* TEXT NOT NULL *)
}.

Record loan : Type := Loan {
  book_id : Z;                  (* REFERENCES books(id) ON DELETE CASCADE *)
  member_id : Z;                (* REFERENCES members(id) ON DELETE CASCADE *)
  loan_date : date;             (* TEXT NOT NULL *)
  due_date : date;              (* TEXT NOT NULL *)
  return_date : option date     (* TEXT, NULL while the loan is outstanding *)
}.

Global Instance book_eq_dec : EqDecision book.
Proof. solve_decision. Defined.
Global Instance member_eq_dec : EqDecision member.
Proof. solve_decision. Defined.
Global Instance loan_eq_dec : EqDecision loan.
Proof. solve_decision. Defined.

(** The three tables, keyed by their [id] column, and the three
    [sqlite_sequence] counters of the AUTOINCREMENT keys. *)
Record database : Type := Database {
  books : gmap Z book;
  members : gmap Z member;
  loans : gmap Z loan;
  seq_books : Z;
  seq_members : Z;
  seq_loans : Z
}.

(** [init_db] on a fresh file: three empty tables. *)
Definition init_db : database :=
  {| books := ∅; members := ∅; loans := ∅;
     seq_books := 0; seq_members := 0; seq_loans := 0 |}.

(** A connection.  Foreign-key enforcement is a setting of the connection,
    not of the database file. *)
Record connection : Type := Connection { foreign_keys : bool }.

(** [get_conn]: [sqlite3.connect(DB_FILE)] opens a connection with SQLite's
    defaults, under which foreign keys are not enforced.  The
    [PRAGMA foreign_keys = ON] of [init_db] is run on the connection
    [init_db] opens, which is closed when [init_db] returns; [get_conn]
    itself issues no pragma. *)
Definition get_conn : connection := {| foreign_keys := false |}.

(** ** Statements and transactions *)

(** The exceptions the operations raise: [sqlite3.IntegrityError] and
    [sqlite3.OperationalError], with SQLite's message, and Python's
    [OverflowError] and [ValueError]. *)
Inductive exn : Type :=
  | IntegrityError (constraint : string)
  | OperationalError (message : string)
  | OverflowError
  | ValueError.

Inductive result (A : Type) : Type :=
  | Returned (a : A)
  | Raised (e : exn).
Arguments Returned {A} a.
Arguments Raised {A} e.

Definition stmt (A : Type) : Type := database → result (A * database).

Definition ret {A} (a : A) : stmt A := λ d, Returned (a, d).
Definition raise {A} (e : exn) : stmt A := λ _, Raised e.
Definition bind {A B} (m : stmt A) (k : A → stmt B) : stmt B :=
  λ d, match m d with
       | Returned (a, d') => k a d'
       | Raised e => Raised e
       end.
Definition get : stmt database := λ d, Returned (d, d).
Definition put (d : database) : stmt unit := λ _, Returned (tt, d).

Notation "'do' x <- m ; k" := (bind m (λ x, k))
  (at level 10, x name, m at level 100, k at level 200).
Notation "'do_' m ; k" := (bind m (λ _, k))
  (at level 10, m at level 100, k at level 200).

(** [with closing(get_conn()) as conn, conn: body]: the body's writes are
    committed when it returns and rolled back when it raises; the exception
    goes on to the caller. *)
Definition transaction {A} (body : connection → stmt A)
    (d : database) : database * result A :=
  match body get_conn d with
  | Returned (a, d') => (d', Returned a)
  | Raised e => (d, Raised e)
  end.

(** An [int] among the parameters of [conn.execute]: [sqlite3] raises
    [OverflowError] ("Python int too large to convert to SQLite INTEGER")
    unless it is a 64-bit number, and the statement is not run. *)
Definition bind_int (n : Z) : stmt unit :=
  if decide (sqlite_int n) then ret tt else raise OverflowError.

(** [datetime.strptime(s, DATE_FMT)], for [s] the text of a day:
    [ValueError] unless its year has four digits, and else the day. *)
Definition parse_date (s : date) : stmt date :=
  if decide (four_digit_year s) then ret s else raise ValueError.

(** [dt + timedelta(days=n)]: [OverflowError] when [timedelta] does not
    take the number, and when the sum is no day of [datetime]. *)
Definition add_days (dt : date) (n : Z) : stmt date :=
  if decide (timedelta_days n) then
    if decide (datetime_day (dt + n)) then ret (dt + n)
    else raise OverflowError
  else raise OverflowError.

(** ** The SQL statements of the source *)

(** The largest row id of a table (0 for an empty one). *)
Definition max_rowid {A} (t : gmap Z A) : Z :=
  foldr Z.max 0 (map_to_list t).*1.

(** AUTOINCREMENT: one more than the largest id the table has ever held. *)
Definition next_rowid {A} (seq : Z) (t : gmap Z A) : Z :=
  Z.max seq (max_rowid t) + 1.

(** The id of a new row.  Once the largest INTEGER has been given out,
    AUTOINCREMENT gives no other: the INSERT fails with [SQLITE_FULL],
    before any constraint is looked at. *)
Definition new_rowid {A} (seq : Z) (t : gmap Z A) : stmt Z :=
  if decide (next_rowid seq t ≤ 9223372036854775807)
  then ret (next_rowid seq t)
  else raise (OperationalError "database or disk is full").

Definition isbn_in_use (i : string) (t : gmap Z book) : Prop :=
  map_Exists (λ _ b, isbn b = Some i) t.
Definition email_in_use (e : string) (t : gmap Z member) : Prop :=
  map_Exists (λ _ m, email m = Some e) t.

(** UNIQUE columns: NULLs never collide. *)
Definition isbn_conflict (i : option string) (t : gmap Z book) : Prop :=
  match i with Some s => isbn_in_use s t | None => False end.
Definition email_conflict (e : option string) (t : gmap Z member) : Prop :=
  match e with Some s => email_in_use s t | None => False end.

Global Instance isbn_conflict_dec i t : Decision (isbn_conflict i t).
Proof. destruct i; unfold isbn_conflict, isbn_in_use; apply _. Defined.
Global Instance email_conflict_dec e t : Decision (email_conflict e t).
Proof. destruct e; unfold email_conflict, email_in_use; apply _. Defined.

(** [INSERT INTO books (...) VALUES (?,?,?,?,?,?)]; the value is
    [cur.lastrowid].  The two numbers among the parameters are the
    copies. *)
Definition insert_book (b : book) : stmt Z :=
  do_ bind_int (copies_total b);
  do_ bind_int (copies_available b);
  do d <- get;
  do id <- new_rowid (seq_books d) (books d);
  if decide (isbn_conflict (isbn b) (books d))
  then raise (IntegrityError "UNIQUE constraint failed: books.isbn")
  else
    do_ put {| books := <[id := b]> (books d); members := members d;
               loans := loans d; seq_books := id;
               seq_members := seq_members d; seq_loans := seq_loans d |};
    ret id.

(** [INSERT INTO members (...) VALUES (?,?,?,?)] *)
Definition insert_member (m : member) : stmt Z :=
  do d <- get;
  do id <- new_rowid (seq_members d) (members d);
  if decide (email_conflict (email m) (members d))
  then raise (IntegrityError "UNIQUE constraint failed: members.email")
  else
    do_ put {| books := books d; members := <[id := m]> (members d);
               loans := loans d; seq_books := seq_books d;
               seq_members := id; seq_loans := seq_loans d |};
    ret id.

(** [INSERT INTO loans (book_id, member_id, loan_date, due_date)
    VALUES (?,?,?,?)]; [return_date] is left NULL.  The two REFERENCES
    clauses are checked only on a connection that enforces foreign keys. *)
Definition insert_loan (conn : connection) (l : loan) : stmt Z :=
  do_ bind_int (book_id l);
  do_ bind_int (member_id l);
  do d <- get;
  do id <- new_rowid (seq_loans d) (loans d);
  if foreign_keys conn
     && negb (bool_decide (is_Some (books d !! book_id l)
                           ∧ is_Some (members d !! member_id l)))
  then raise (IntegrityError "FOREIGN KEY constraint failed")
  else
    do_ put {| books := books d; members := members d;
               loans := <[id := l]> (loans d); seq_books := seq_books d;
               seq_members := seq_members d; seq_loans := id |};
    ret id.

(** [SELECT * FROM books WHERE id=?] with [fetchone()] *)
Definition select_book (id : Z) : stmt (option book) :=
  do_ bind_int id;
  do d <- get; ret (books d !! id).

(** [SELECT * FROM loans WHERE id=?] with [fetchone()] *)
Definition select_loan (id : Z) : stmt (option loan) :=
  do_ bind_int id;
  do d <- get; ret (loans d !! id).

Definition active_for_book (id : Z) (kv : Z * loan) : Prop :=
  book_id kv.2 = id ∧ return_date kv.2 = None.
Definition active_for_member (id : Z) (kv : Z * loan) : Prop :=
  member_id kv.2 = id ∧ return_date kv.2 = None.

Global Instance active_for_book_dec id kv : Decision (active_for_book id kv).
Proof. unfold active_for_book; apply _. Defined.
Global Instance active_for_member_dec id kv :
  Decision (active_for_member id kv).
Proof. unfold active_for_member; apply _. Defined.

(** [SELECT COUNT( * ) c FROM loans WHERE book_id=? AND return_date IS NULL] *)
Definition count_active_book (id : Z) : stmt nat :=
  do_ bind_int id;
  do d <- get; ret (size (filter (active_for_book id) (loans d))).

(** [SELECT COUNT( * ) c FROM loans WHERE member_id=? AND return_date IS NULL] *)
Definition count_active_member (id : Z) : stmt nat :=
  do_ bind_int id;
  do d <- get; ret (size (filter (active_for_member id) (loans d))).

(** [ON DELETE CASCADE], which a connection that enforces foreign keys
    applies to the loans of a deleted book or member. *)
Definition cascade (conn : connection) (refers : loan → Prop)
    `{∀ l, Decision (refers l)} (t : gmap Z loan) : gmap Z loan :=
  if foreign_keys conn then filter (λ kv, ¬ refers kv.2) t else t.

(** [DELETE FROM books WHERE id=?] *)
Definition delete_book_row (conn : connection) (id : Z) : stmt unit :=
  do_ bind_int id;
  do d <- get;
  put {| books := delete id (books d); members := members d;
         loans := cascade conn (λ l, book_id l = id) (loans d);
         seq_books := seq_books d; seq_members := seq_members d;
         seq_loans := seq_loans d |}.

(** [DELETE FROM members WHERE id=?] *)
Definition delete_member_row (conn : connection) (id : Z) : stmt unit :=
  do_ bind_int id;
  do d <- get;
  put {| books := books d; members := delete id (members d);
         loans := cascade conn (λ l, member_id l = id) (loans d);
         seq_books := seq_books d; seq_members := seq_members d;
         seq_loans := seq_loans d |}.

Definition add_available (n : Z) (b : book) : book :=
  {| title := title b; author := author b; isbn := isbn b;
     copies_total := copies_total b;
     copies_available := copies_available b + n;
     created_at := created_at b |}.

(** [UPDATE books SET copies_available = copies_available + n WHERE id=?]
    (the source runs it with [- 1] and with [+ 1]); no row, no change.
    The parameter is the [book_id] that [borrow_book] has bound before, or
    the [book_id] column of a loan row. *)
Definition update_available (n : Z) (id : Z) : stmt unit :=
  do d <- get;
  put {| books := alter (add_available n) id (books d);
         members := members d; loans := loans d;
         seq_books := seq_books d; seq_members := seq_members d;
         seq_loans := seq_loans d |}.

Definition set_return_date (r : date) (l : loan) : loan :=
  {| book_id := book_id l; member_id := member_id l;
     loan_date := loan_date l; due_date := due_date l;
     return_date := Some r |}.

(** [UPDATE loans SET return_date=? WHERE id=?] *)
Definition update_return_date (r : date) (id : Z) : stmt unit :=
  do_ bind_int id;
  do d <- get;
  put {| books := books d; members := members d;
         loans := alter (set_return_date r) id (loans d);
         seq_books := seq_books d; seq_members := seq_members d;
         seq_loans := seq_loans d |}.

(** ** The operations *)

(** [add_book(title, author, isbn, copies)] *)
Definition add_book (t a : string) (i : option string) (copies : Z)
    (now : date) : database → database * result Z :=
  transaction (λ conn,
    insert_book {| title := strip t; author := strip a; isbn := strip_if i;
                   copies_total := copies; copies_available := copies;
                   created_at := now |}).

(** [add_member(name, email, phone)] *)
Definition add_member (n : string) (e p : option string)
    (now : date) : database → database * result Z :=
  transaction (λ conn,
    insert_member {| name := strip n; email := strip_if e;
                     phone := strip_if p; joined_at := now |}).

(** What [delete_book] prints. *)
Inductive delete_book_report : Type :=
  | CannotDeleteBook        (* "Cannot delete: active loans exist for this book." *)
  | BookDeleted.            (* "Book deleted (if it existed)." *)

(** [delete_book(book_id)] *)
Definition delete_book (id : Z) :
    database → database * result delete_book_report :=
  transaction (λ conn,
    do active <- count_active_book id;
    if decide (active ≠ 0%nat) then ret CannotDeleteBook
    else
      do_ delete_book_row conn id;
      ret BookDeleted).

(** What [delete_member] prints. *)
Inductive delete_member_report : Type :=
  | CannotDeleteMember      (* "Cannot delete: member has active loans." *)
  | MemberDeleted.          (* "Member deleted (if it existed)." *)

(** [delete_member(member_id)] *)
Definition delete_member (id : Z) :
    database → database * result delete_member_report :=
  transaction (λ conn,
    do active <- count_active_member id;
    if decide (active ≠ 0%nat) then ret CannotDeleteMember
    else
      do_ delete_member_row conn id;
      ret MemberDeleted).

(** What [borrow_book] prints; [LoanCreated id due] also carries the
    [lastrowid] it returns (the other two return [None]). *)
Inductive borrow_report : Type :=
  | BookNotFound            (* "Book not found." *)
  | NoAvailableCopies       (* "No available copies." *)
  | LoanCreated (id : Z) (due : date).  (* "Loan created. Due on ..." *)

(** [borrow_book(book_id, member_id, days)].  The loan date is the text
    of today, which the function reads back before it adds the days. *)
Definition borrow_book (bid mid : Z) (days : Z) (now : date) :
    database → database * result borrow_report :=
  transaction (λ conn,
    do book <- select_book bid;
    match book with
    | None => ret BookNotFound
    | Some b =>
        if decide (copies_available b <= 0) then ret NoAvailableCopies
        else
          let loan_date := now in
          do start <- parse_date loan_date;
          do due_date <- add_days start days;
          do id <- insert_loan conn
                     {| book_id := bid; member_id := mid;
                        loan_date := loan_date; due_date := due_date;
                        return_date := None |};
          do_ update_available (-1) bid;
          ret (LoanCreated id due_date)
    end).

(** What [return_book] prints. *)
Inductive return_report : Type :=
  | LoanNotFound            (* "Loan not found." *)
  | AlreadyReturned         (* "Already returned." *)
  | ReturnedLate (late_days : Z)  (* "Returned late by ... day(s)." *)
  | ReturnedOnTime.         (* "Returned on time. Thank you!" *)

(** [return_book(loan_id)].  The due date is read back from its text
    after the two updates.  The source reads the clock once for the
    return date and again for the late notice; the call is taken to run
    within the one day [now]. *)
Definition return_book (lid : Z) (now : date) :
    database → database * result return_report :=
  transaction (λ conn,
    do loan <- select_loan lid;
    match loan with
    | None => ret LoanNotFound
    | Some l =>
        match return_date l with
        | Some _ => ret AlreadyReturned
        | None =>
            do_ update_return_date now lid;
            do_ update_available 1 (book_id l);
            do due <- parse_date (due_date l);
            if decide (now > due) then ret (ReturnedLate (now - due))
            else ret ReturnedOnTime
        end
    end).

(** A row of the three-way join of [list_loans] and [list_overdue]:
    [l.*, b.title AS book_title, m.name AS member_name]. *)
Record loan_row : Type := LoanRow {
  row_id : Z;
  row_loan : loan;
  book_title : string;
  member_name : string
}.

(** [FROM loans l JOIN books b ON b.id=l.book_id
     JOIN members m ON m.id=l.member_id]: an inner join, a loan whose book
    or member is missing yields no row. *)
Definition join_loan (d : database) (kv : Z * loan) : option loan_row :=
  match books d !! book_id kv.2, members d !! member_id kv.2 with
  | Some b, Some m =>
      Some {| row_id := kv.1; row_loan := kv.2;
              book_title := title b; member_name := name m |}
  | _, _ => None
  end.

(** [due_date < ?], on the texts of the two days. *)
Definition before (d1 d2 : date) : Prop :=
  text_lt (strftime d1) (strftime d2).
Global Instance before_dec d1 d2 : Decision (before d1 d2).
Proof. unfold before; apply _. Defined.

(** [WHERE l.return_date IS NULL AND l.due_date < ?], with the text of
    today for the parameter. *)
Definition overdue (now : date) (kv : Z * loan) : Prop :=
  return_date kv.2 = None ∧ before (due_date kv.2) now.
Global Instance overdue_dec now kv : Decision (overdue now kv).
Proof. unfold overdue; apply _. Defined.

(** [ORDER BY l.due_date], on the texts. *)
Definition by_due_date (r1 r2 : loan_row) : Prop :=
  String.le (strftime (due_date (row_loan r1)))
            (strftime (due_date (row_loan r2))).
Global Instance by_due_date_dec : RelDecision by_due_date.
Proof. intros r1 r2. unfold by_due_date; apply _. Defined.

(** Rows that [ORDER BY] finds equal come in the order in which the
    [loans] table is read, that of the row ids. *)
Definition then_by_id (R : relation loan_row) (r1 r2 : loan_row) : Prop :=
  R r1 r2 ∧ (R r2 r1 → row_id r1 ≤ row_id r2).
Global Instance then_by_id_dec (R : relation loan_row) `{!RelDecision R} :
  RelDecision (then_by_id R).
Proof. intros r1 r2. unfold then_by_id; apply _. Defined.

(** [list_overdue()] *)
Definition list_overdue (now : date) (d : database) : list loan_row :=
  merge_sort (then_by_id by_due_date)
    (omap (join_loan d) (filter (overdue now) (map_to_list (loans d)))).

(** [stats()]: the numbers of books, of members, of outstanding loans and
    of overdue loans; each a [COUNT] over one table. *)
Definition stats (now : date) (d : database) : nat * nat * nat * nat :=
  (size (books d), size (members d),
   size (filter (λ kv : Z * loan, return_date kv.2 = None) (loans d)),
   size (filter (overdue now) (loans d))).

(** ** Runs of the program *)

(** One call of an operation that writes. *)
Inductive op : Type :=
  | AddBook (t a : string) (i : option string) (copies : Z)
  | AddMember (n : string) (e p : option string)
  | DeleteBook (id : Z)
  | DeleteMember (id : Z)
  | BorrowBook (bid mid : Z) (days : Z)
  | ReturnBook (lid : Z).

(** The database an operation leaves behind, on the day [now].  A call
    that raises stops the shell, but the file stays as the rollback left
    it, and the next start of the program goes on from there. *)
Definition step (now : date) (o : op) (d : database) : database :=
  match o with
  | AddBook t a i copies => (add_book t a i copies now d).1
  | AddMember n e p => (add_member n e p now d).1
  | DeleteBook id => (delete_book id d).1
  | DeleteMember id => (delete_member id d).1
  | BorrowBook bid mid days => (borrow_book bid mid days now d).1
  | ReturnBook lid => (return_book lid now d).1
  end.

(** A run: operations with the day each is called on, oldest first. *)
Fixpoint run (tr : list (date * op)) (d : database) : database :=
  match tr with
  | [] => d
  | (now, o) :: tr' => run tr' (step now o d)
  end.

(** ** The shell's prompt *)

(** [input_int(prompt, min_val, max_val)], the loop the shell reads every
    number with.  The argument is what the user types, line by line: [None]
    for a line [int()] rejects, [Some val] for a line that reads as [val].
    The loop returns the first line it accepts, with the lines left over;
    [None] when the lines run out while it is still asking. *)
Fixpoint input_int (min_val max_val : option Z) (lines : list (option Z)) :
    option (Z * list (option Z)) :=
  match lines with
  | [] => None
  | None :: rest => input_int min_val max_val rest
  | Some val :: rest =>
      if match min_val with Some m => val <? m | None => false end
         || match max_val with Some m => val >? m | None => false end
      then input_int min_val max_val rest
      else Some (val, rest)
  end.

(** The loan duration the menu reads for [borrow_book]:
    [input_int("Loan duration (days, default 14): ", 1) or 14]; of two
    integers, [or] takes the second when the first is 0. *)
Definition input_loan_duration (lines : list (option Z)) :
    option (Z * list (option Z)) :=
  match input_int (Some 1) None lines with
  | Some (val, rest) => Some (if decide (val = 0) then 14 else val, rest)
  | None => None
  end.

(** ** The lists of loans *)

(** [WHERE l.return_date IS NULL] *)
Definition outstanding (kv : Z * loan) : Prop := return_date kv.2 = None.
Global Instance outstanding_dec kv : Decision (outstanding kv).
Proof. unfold outstanding; apply _. Defined.

(** [CASE WHEN l.return_date IS NULL THEN 0 ELSE 1 END] *)
Definition returned_key (r : loan_row) : Z :=
  match return_date (row_loan r) with
  | None => 0
  | Some _ => 1
  end.

(** [ORDER BY CASE ... END, l.due_date] *)
Definition by_returned_then_due (r1 r2 : loan_row) : Prop :=
  returned_key r1 < returned_key r2
  ∨ (returned_key r1 = returned_key r2 ∧ by_due_date r1 r2).
Global Instance by_returned_then_due_dec : RelDecision by_returned_then_due.
Proof. intros r1 r2. unfold by_returned_then_due; apply _. Defined.

(** [list_loans(active_only)] *)
Definition list_loans (active_only : bool) (d : database) : list loan_row :=
  if active_only
  then merge_sort (then_by_id by_due_date)
         (omap (join_loan d) (filter outstanding (map_to_list (loans d))))
  else merge_sort (then_by_id by_returned_then_due)
         (omap (join_loan d) (map_to_list (loans d))).

(** ** The searches *)

Fixpoint map_string (f : ascii → ascii) (s : string) : string :=
  match s with
  | EmptyString => EmptyString
  | String c s' => String (f c) (map_string f s')
  end.

(** [str.lower()], character by character, on U+0000..U+00FF: the letters
    A..Z and the capital letters U+00C0..U+00DE (U+00D7, the
    multiplication sign, is none) go 32 up. *)
Definition py_lower (c : ascii) : ascii :=
  let n := N_of_ascii c in
  if ((65 <=? n) && (n <=? 90)
      || (192 <=? n) && (n <=? 222) && negb (n =? 215))%N
  then ascii_of_N (n + 32) else c.

(** SQLite's [lower()], which knows the letters A..Z only. *)
Definition sql_lower (c : ascii) : ascii :=
  let n := N_of_ascii c in
  if ((65 <=? n) && (n <=? 90))%N then ascii_of_N (n + 32) else c.

(** How [LIKE] compares a character of the pattern with one of the text:
    equal, or both ASCII and equal but for the case. *)
Definition like_char (c c2 : ascii) : bool :=
  Ascii.eqb c c2
  || ((N_of_ascii c <? 128)%N && (N_of_ascii c2 <? 128)%N
      && Ascii.eqb (sql_lower c) (sql_lower c2)).

(** The comparison of [LIKE], without ESCAPE: [%] stands for any run of
    characters, [_] for any one character. *)
Fixpoint like (pattern text : string) : bool :=
  match pattern with
  | EmptyString =>
      match text with EmptyString => true | String _ _ => false end
  | String c pattern' =>
      if Ascii.eqb c "%" then
        (fix from (text : string) : bool :=
           like pattern' text
           || match text with
              | EmptyString => false
              | String _ text' => from text'
              end) text
      else
        match text with
        | EmptyString => false
        | String c2 text' =>
            (Ascii.eqb c "_" || like_char c c2) && like pattern' text'
        end
  end.

(** SQLite's [LIKE] reads the pattern and the text as C strings: each
    ends at its first U+0000, whatever comes after it. *)
Fixpoint until_nul (s : string) : string :=
  match s with
  | EmptyString => EmptyString
  | String c s' => if Ascii.eqb c "000" then EmptyString
                   else String c (until_nul s')
  end.

(** The number of bytes of the text in UTF-8, which is how SQLite holds
    it: one for a character up to U+007F, two for one up to U+00FF. *)
Fixpoint utf8_length (s : string) : Z :=
  match s with
  | EmptyString => 0
  | String c s' =>
      (if (N_of_ascii c <? 128)%N then 1 else 2) + utf8_length s'
  end.

(** [SQLITE_MAX_LIKE_PATTERN_LENGTH]: [LIKE] fails on a pattern of more
    bytes ("LIKE or GLOB pattern too complex"). *)
Definition like_pattern_limit : Z := 50000.

(** [kw = f"%{keyword.lower()}%"] *)
Definition search_pattern (keyword : string) : string :=
  String "%" (map_string py_lower keyword +:+ "%").

(** [lower(x) LIKE ?] *)
Definition lower_like (kw : string) (x : string) : bool :=
  like (until_nul kw) (until_nul (map_string sql_lower x)).

(** [ifnull(x,'')] *)
Definition ifnull (x : option string) : string :=
  match x with Some s => s | None => EmptyString end.

(** The [WHERE] clause of [list_books]. *)
Definition book_matches (kw : string) (r : Z * book) : Prop :=
  lower_like kw (title r.2) = true ∨ lower_like kw (author r.2) = true
  ∨ lower_like kw (ifnull (isbn r.2)) = true.
Global Instance book_matches_dec kw r : Decision (book_matches kw r).
Proof. unfold book_matches; apply _. Defined.

(** The [WHERE] clause of [list_members]. *)
Definition member_matches (kw : string) (r : Z * member) : Prop :=
  lower_like kw (name r.2) = true ∨ lower_like kw (ifnull (email r.2)) = true
  ∨ lower_like kw (ifnull (phone r.2)) = true.
Global Instance member_matches_dec kw r : Decision (member_matches kw r).
Proof. unfold member_matches; apply _. Defined.

(** [ORDER BY id] *)
Definition by_id {A} (r1 r2 : Z * A) : Prop := r1.1 ≤ r2.1.
Global Instance by_id_dec {A} (r1 r2 : Z * A) : Decision (by_id r1 r2).
Proof. unfold by_id; apply _. Defined.

(** A [SELECT ... WHERE ... LIKE ? ...] over the table [t]: the [WHERE]
    clause is evaluated on every row, and its first [LIKE] fails on the
    first row when the pattern is too long. *)
Definition select_like {A} (matches : string → Z * A → Prop)
    `{!∀ kw r, Decision (matches kw r)} (kw : string) (t : gmap Z A) :
    result (list (Z * A)) :=
  if decide (t ≠ ∅ ∧ like_pattern_limit < utf8_length kw)
  then Raised (OperationalError "LIKE or GLOB pattern too complex")
  else Returned (merge_sort by_id (filter (matches kw) (map_to_list t))).

(** [list_books(keyword)]; [if keyword:] is false for [None] and for the
    empty string. *)
Definition list_books (keyword : option string) (d : database) :
    result (list (Z * book)) :=
  match keyword with
  | Some (String c k) =>
      let kw := search_pattern (String c k) in
      select_like book_matches kw (books d)
  | _ => Returned (merge_sort by_id (map_to_list (books d)))
  end.

(** [list_members(keyword)] *)
Definition list_members (keyword : option string) (d : database) :
    result (list (Z * member)) :=
  match keyword with
  | Some (String c k) =>
      let kw := search_pattern (String c k) in
      select_like member_matches kw (members d)
  | _ => Returned (merge_sort by_id (map_to_list (members d)))
  end.

(** ** The sample data *)

(** One call after another: an exception of the first ends the sequence
    and goes on to the caller, with what was committed before it. *)
Definition and_then {A B} (call : database → database * result A)
    (rest : A → database → database * result B) :
    database → database * result B :=
  λ d, match call d with
       | (d', Returned a) => rest a d'
       | (d', Raised e) => (d', Raised e)
       end.

(** What [load_sample_data] prints. *)
Inductive sample_report : Type :=
  | SamplesSkipped        (* "Database already has data; skipping samples." *)
  | SamplesLoaded.        (* "Sample data loaded." *)

(** [load_sample_data()]; a list is true when it is not empty.  The two
    lists are read without a keyword; [or] reads the second only when the
    first is empty, which makes no difference to what is read. *)
Definition load_sample_data (now : date) :
    database → database * result sample_report :=
  λ d,
  match list_books None d, list_members None d with
  | Raised e, _ => (d, Raised e)
  | _, Raised e => (d, Raised e)
  | Returned bs, Returned ms =>
      if bool_decide (bs ≠ []) || bool_decide (ms ≠ [])
      then (d, Returned SamplesSkipped)
      else
        and_then (add_book "Clean Code" "Robert C. Martin"
                    (Some "9780132350884") 3 now) (λ b1,
        and_then (add_book "Fluent Python" "Luciano Ramalho"
                    (Some "9781491946008") 2 now) (λ b2,
        and_then (add_book "Automate the Boring Stuff with Python"
                    "Al Sweigart" (Some "9781593275990") 4 now) (λ b3,
        and_then (add_member "Alice" (Some "alice@example.com")
                    (Some "9000000001") now) (λ m1,
        and_then (add_member "Bob" (Some "bob@example.com")
                    (Some "9000000002") now) (λ m2,
        and_then (borrow_book b1 m1 7 now) (λ _,
        and_then (borrow_book b2 m2 14 now) (λ _,
        λ d', (d', Returned SamplesLoaded)))))))) d
  end.

(** ** The table printer *)

(** What a column of a row holds: NULL, an INTEGER or a TEXT. *)
Inductive value : Type :=
  | VNone
  | VInt (n : Z)
  | VText (s : string).

(** [str(v)] *)
Definition str (v : value) : string :=
  match v with
  | VNone => "None"
  | VInt n => NilZero.string_of_int (Z.to_int n)
  | VText s => s
  end.

(** [c * w] for a character [c] *)
Fixpoint repeat_char (c : ascii) (w : nat) : string :=
  match w with
  | O => EmptyString
  | S w' => String c (repeat_char c w')
  end.

(** [s.ljust(w)]: [s] with spaces after it up to the length [w]; a longer
    [s] is left as it is. *)
Definition ljust (w : nat) (s : string) : string :=
  s +:+ repeat_char " " (w - String.length s).

(** [sep.join(parts)] *)
Fixpoint join (sep : string) (parts : list string) : string :=
  match parts with
  | [] => EmptyString
  | [x] => x
  | x :: rest => x +:+ sep +:+ join sep rest
  end.

Section print_rows.

(** The rows are [sqlite3.Row] objects: [item r h] is [r[h]], with [None]
    where the row has no column of that name and [r[h]] raises
    [IndexError]; [keys r] is [r.keys()]. *)
Context {Row : Type} (item : Row → string → option value)
  (keys : Row → list string).

(** [max(len(str(h)), *(len(str(r[h])) for r in rows))] *)
Definition column_width (rows : list Row) (h : string) : option nat :=
  cells ← mapM (λ r, item r h) rows;
  Some (max_list (String.length h :: (String.length ∘ str <$> cells))).

(** [fmt_row(r)], on the cells as [str] gives them; [zip] stops at the
    shorter of the two lists. *)
Definition fmt_row (widths : list nat) (r : list string) : string :=
  join " | " (zip_with (λ v w, ljust w v) r widths).

(** [print_rows(rows, headers)]: the lines it prints, or [None] when a
    row has no column for a header ([IndexError], raised before anything
    is printed). *)
Definition print_rows (rows : list Row) (headers : option (list string)) :
    option (list string) :=
  match rows with
  | [] => Some ["(no results)"]
  | row0 :: _ =>
      let headers := match headers with
                     | Some hs => hs
                     | None => keys row0
                     end in
      widths ← mapM (column_width rows) headers;
      body ← mapM (λ row, cells ← mapM (item row) headers;
                          Some (fmt_row widths (str <$> cells))) rows;
      Some (fmt_row widths headers
            :: join "-+-" (repeat_char "-" <$> widths)
            :: body)
  end.

End print_rows.

(** ** The menu *)

(** The branches of the [if]/[elif] chain of [cli_loop]. *)
Inductive menu_branch : Type :=
  | MenuExit | MenuAddBook | MenuListBooks | MenuDeleteBook
  | MenuAddMember | MenuListMembers | MenuDeleteMember
  | MenuBorrow | MenuReturn | MenuLoadSamples
  | MenuActiveLoans | MenuAllLoans | MenuOverdue | MenuStats
  | MenuInvalid.          (* "Invalid choice." *)

(** The branch [cli_loop] takes on [choice]. *)
Definition menu_dispatch (choice : Z) : menu_branch :=
  if decide (choice = 0) then MenuExit
  else if decide (choice = 1) then MenuAddBook
  else if decide (choice = 2) then MenuListBooks
  else if decide (choice = 3) then MenuDeleteBook
  else if decide (choice = 4) then MenuAddMember
  else if decide (choice = 5) then MenuListMembers
  else if decide (choice = 6) then MenuDeleteMember
  else if decide (choice = 7) then MenuBorrow
  else if decide (choice = 8) then MenuReturn
  else if decide (choice = 9) then MenuLoadSamples
  else if decide (choice = 10) then MenuActiveLoans
  else if decide (choice = 11) then MenuAllLoans
  else if decide (choice = 12) then MenuOverdue
  else if decide (choice = 13) then MenuStats
  else MenuInvalid.

(** [choice = input_int("Choose an option: ", 0, 13)] *)
Definition input_choice (lines : list (option Z)) :
    option (Z * list (option Z)) :=
  input_int (Some 0) (Some 13) lines.

(** * Notions the statements use *)

(** ** Rows and tables *)

(** The row [add_book] builds. *)
Definition new_book (t a : string) (i : option string) (copies : Z)
    (now : date) : book :=
  {| title := strip t; author := strip a; isbn := strip_if i;
     copies_total := copies; copies_available := copies;
     created_at := now |}.

(** The row [add_member] builds. *)
Definition new_member (n : string) (e p : option string) (now : date) :
    member :=
  {| name := strip n; email := strip_if e; phone := strip_if p;
     joined_at := now |}.

(** The row [borrow_book] builds. *)
Definition new_loan (bid mid days : Z) (now : date) : loan :=
  {| book_id := bid; member_id := mid; loan_date := now;
     due_date := now + days; return_date := None |}.

(** A database with one table, and that table's counter, replaced. *)
Definition set_books (t : gmap Z book) (seq : Z) (d : database) : database :=
  {| books := t; members := members d; loans := loans d;
     seq_books := seq; seq_members := seq_members d;
     seq_loans := seq_loans d |}.
Definition set_members (t : gmap Z member) (seq : Z) (d : database) :
    database :=
  {| books := books d; members := t; loans := loans d;
     seq_books := seq_books d; seq_members := seq;
     seq_loans := seq_loans d |}.
Definition set_loans (t : gmap Z loan) (seq : Z) (d : database) : database :=
  {| books := books d; members := members d; loans := t;
     seq_books := seq_books d; seq_members := seq_members d;
     seq_loans := seq |}.

(** ** The ranges the calls work in *)

(** The table has ids left for [n] more rows. *)
Definition rowids_left {A} (n : Z) (seq : Z) (t : gmap Z A) : Prop :=
  Z.max seq (max_rowid t) + n ≤ 9223372036854775807.
Global Instance rowids_left_dec {A} n seq (t : gmap Z A) :
  Decision (rowids_left n seq t).
Proof. unfold rowids_left; apply _. Defined.

(** [borrow_book] gets to a due date: the text of today reads back, and
    the day [days] after today is a day of [datetime]. *)
Definition due_date_defined (now : date) (days : Z) : Prop :=
  four_digit_year now ∧ timedelta_days days ∧ datetime_day (now + days).
Global Instance due_date_defined_dec now days :
  Decision (due_date_defined now days).
Proof. unfold due_date_defined; apply _. Defined.

(** 1000-01-01, the first day whose text has a year of four digits. *)
Definition first_day : date := 364878.

(** 2024-01-01, a day for the sample runs. *)
Definition new_year : date := 738886.

(** ** The calendar *)

(** [_is_leap], [_days_before_year] and [_ymd2ord] of [datetime]: the way
    back from a year, month and day to the day number. *)
Definition is_leap (year : Z) : bool :=
  bool_decide (year mod 4 = 0 ∧ (year mod 100 ≠ 0 ∨ year mod 400 = 0)).
Definition days_before_year (year : Z) : Z :=
  let y := year - 1 in y * 365 + y / 4 - y / 100 + y / 400.
Definition day_of_year (t : Z * Z * Z) : Z :=
  days_before_month t.1.2
  + (if bool_decide (t.1.2 > 2) && is_leap t.1.1 then 1 else 0) + t.2.
Definition ymd2ord (t : Z * Z * Z) : Z :=
  days_before_year t.1.1 + day_of_year t.

(** A month of the year and a day of that month. *)
Definition valid_ymd (t : Z * Z * Z) : Prop :=
  1 ≤ t.1.2 ≤ 12
  ∧ 1 ≤ t.2 ≤ days_in_month t.1.2
             + (if bool_decide (t.1.2 = 2) && is_leap t.1.1 then 1 else 0).

(** The calendar order: by year, then month, then day. *)
Definition ymd_lt (t1 t2 : Z * Z * Z) : Prop :=
  t1.1.1 < t2.1.1
  ∨ (t1.1.1 = t2.1.1
     ∧ (t1.1.2 < t2.1.2 ∨ (t1.1.2 = t2.1.2 ∧ t1.2 < t2.2))).

(** [strftime] of a year, a month and a day. *)
Definition format_ymd (t : Z * Z * Z) : string :=
  decimal t.1.1 +:+ "-" +:+ two_digits t.1.2 +:+ "-" +:+ two_digits t.2.

(** ** Outstanding loans *)

(** Whether the row counts for [COUNT] under the condition [P]. *)
Definition hit {A : Type} (P : Z * A → Prop) `{!∀ x, Decision (P x)}
    (k : Z) (x : A) : nat :=
  if decide (P (k, x)) then 1%nat else 0%nat.

(** The number of outstanding loans of a book, of a member: what
    [delete_book] and [delete_member] count. *)
Definition active_loans_of_book (id : Z) (d : database) : nat :=
  size (filter (active_for_book id) (loans d)).
Definition active_loans_of_member (id : Z) (d : database) : nat :=
  size (filter (active_for_member id) (loans d)).

(** Some loan of the book (of the member) has no return date. *)
Definition book_on_loan (id : Z) (d : database) : Prop :=
  map_Exists (λ _ l, book_id l = id ∧ return_date l = None) (loans d).
Definition member_has_loan (id : Z) (d : database) : Prop :=
  map_Exists (λ _ l, member_id l = id ∧ return_date l = None) (loans d).

Global Instance book_on_loan_dec id d : Decision (book_on_loan id d).
Proof. unfold book_on_loan; apply _. Defined.
Global Instance member_has_loan_dec id d : Decision (member_has_loan id d).
Proof. unfold member_has_loan; apply _. Defined.

(** ** The copy counter *)

(** The bounds of the data model on one database. *)
Definition bounds_hold (d : database) : Prop :=
  ∀ id b, books d !! id = Some b →
    0 ≤ copies_available b ≤ copies_total b.

(** The invariant behind the bounds: the copies of a book that are not
    available are exactly its outstanding loans, and an outstanding loan
    is a loan of a book that is still there. *)
Record consistent (d : database) : Prop := Consistent {
  available_counted : ∀ id b, books d !! id = Some b →
    0 ≤ copies_available b ∧
    copies_available b + Z.of_nat (active_loans_of_book id d) = copies_total b;
  active_has_book : ∀ lid l, loans d !! lid = Some l →
    return_date l = None → is_Some (books d !! book_id l)
}.

(** The calls under which the bounds are kept: a book is added with a
    number of copies that is not negative.  The shell reads the number
    with [input_int("Total copies: ", 1)]. *)
Definition admissible (o : op) : Prop :=
  match o with
  | AddBook _ _ _ copies => 0 ≤ copies
  | _ => True
  end.

(** ** Stripped text *)

(** Only white space, or nothing at all. *)
Fixpoint blank (s : string) : bool :=
  match s with
  | EmptyString => true
  | String c s' => is_space c && blank s'
  end.



(** ** Overdue loans *)

Global Instance by_due_date_total : Total by_due_date.
Proof. intros r1 r2. unfold by_due_date. apply (total String.le). Qed.
Global Instance by_due_date_trans : Transitive by_due_date.
Proof.
  intros r1 r2 r3. unfold by_due_date. apply (transitivity (R := String.le)).
Qed.

Global Instance then_by_id_total (R : relation loan_row)
  `{!RelDecision R, !Total R} : Total (then_by_id R).
Proof.
  intros r1 r2. unfold then_by_id.
  destruct (decide (R r1 r2)) as [H12|H12], (decide (R r2 r1)) as [H21|H21].
  - destruct (Z.le_ge_cases (row_id r1) (row_id r2)); [left | right]; done.
  - left. done.
  - right. done.
  - destruct (total R r1 r2); done.
Qed.
Global Instance then_by_id_trans (R : relation loan_row)
  `{!Transitive R} : Transitive (then_by_id R).
Proof.
  intros r1 r2 r3 [H12 Hid12] [H23 Hid23]. split; [by etrans |].
  intros H31.
  assert (row_id r1 ≤ row_id r2) by (apply Hid12; by etrans).
  assert (row_id r2 ≤ row_id r3) by (apply Hid23; by etrans).
  lia.
Qed.

(** The rows of [list_overdue] before [ORDER BY]. *)
Definition overdue_rows (now : date) (d : database) : list loan_row :=
  omap (join_loan d) (filter (overdue now) (map_to_list (loans d))).

(** Every outstanding loan that is past its due date is listed. *)
Definition lists_all_overdue (now : date) (d : database) : Prop :=
  ∀ lid l, loans d !! lid = Some l →
    return_date l = None → due_date l < now →
    ∃ r, r ∈ list_overdue now d ∧ row_id r = lid ∧ row_loan r = l.

(** Every loan refers to a book and to a member that exist. *)
Definition references_resolve (d : database) : Prop :=
  ∀ lid l, loans d !! lid = Some l →
    is_Some (books d !! book_id l) ∧ is_Some (members d !! member_id l).

(** Every due date has a year of four digits. *)
Definition due_dates_four_digit (d : database) : Prop :=
  ∀ lid l, loans d !! lid = Some l → four_digit_year (due_date l).

(** ** Sample runs *)

(** One book, nothing else. *)
Definition one_book : database :=
  (add_book "Dune" "Frank Herbert" None 1 new_year init_db).1.

(** A book, a member and an outstanding loan. *)
Definition one_loan : database :=
  run [(new_year, AddBook "Dune" "Frank Herbert" None 2);
       (new_year, AddMember "Alice" (Some "a@x.com") None);
       (new_year + 1, BorrowBook 1 1 7)] init_db.

(** The same, with the loan returned. *)
Definition returned_loans : database :=
  run [(new_year, AddBook "Dune" "Frank Herbert" None 2);
       (new_year, AddMember "Alice" (Some "a@x.com") None);
       (new_year + 1, BorrowBook 1 1 7);
       (new_year + 4, ReturnBook 1)] init_db.

(** A run that leaves an outstanding loan of a member that never was. *)
Definition orphan_loan : database :=
  run [(new_year, AddBook "Dune" "Frank Herbert" None 1);
       (new_year + 1, BorrowBook 1 999 7)] init_db.

(** Two copies lent out, a third loan refused, one copy returned, and a
    delete that the remaining loan blocks. *)
Definition sample_run : list (date * op) :=
  [(new_year, AddBook "  Dune " "Frank Herbert" None 2);
   (new_year, AddMember "Alice" (Some "a@x.com") None);
   (new_year + 1, BorrowBook 1 1 7);
   (new_year + 2, BorrowBook 1 1 7);
   (new_year + 3, BorrowBook 1 1 7);
   (new_year + 4, ReturnBook 1);
   (new_year + 5, DeleteBook 1)].

(** A loan made with a negative number of days, due on 0928-11-02, a day
    whose text is written [928-11-02]. *)
Definition early_due : database :=
  run [(new_year, AddBook "Dune" "Frank Herbert" None 1);
       (new_year, AddMember "Alice" (Some "a@x.com") None);
       (new_year, BorrowBook 1 1 (-400000))] init_db.

(** ** Prompts *)

(** A number [input_int] accepts: not under [min_val], not over [max_val],
    where the bound is given. *)
Definition in_bounds (min_val max_val : option Z) (val : Z) : Prop :=
  match min_val with Some m => m ≤ val | None => True end
  ∧ match max_val with Some m => val ≤ m | None => True end.

Global Instance in_bounds_dec lo hi v : Decision (in_bounds lo hi v).
Proof. unfold in_bounds. destruct lo, hi; apply _. Defined.

(** A line [input_int] asks again after: not a number, or out of bounds. *)
Definition asked_again (min_val max_val : option Z) (line : option Z) : Prop :=
  match line with
  | None => True
  | Some val => ¬ in_bounds min_val max_val val
  end.

(** ** Keys *)

(** No row id is above the counter of its table. *)
Definition ids_counted (d : database) : Prop :=
  (∀ k, is_Some (books d !! k) → k ≤ seq_books d)
  ∧ (∀ k, is_Some (members d !! k) → k ≤ seq_members d)
  ∧ (∀ k, is_Some (loans d !! k) → k ≤ seq_loans d).

(** No two books have the same isbn, no two members the same e-mail. *)
Definition isbn_unique (d : database) : Prop :=
  ∀ id1 id2 b1 b2 i, books d !! id1 = Some b1 → books d !! id2 = Some b2 →
    isbn b1 = Some i → isbn b2 = Some i → id1 = id2.
Definition email_unique (d : database) : Prop :=
  ∀ id1 id2 m1 m2 e, members d !! id1 = Some m1 → members d !! id2 = Some m2 →
    email m1 = Some e → email m2 = Some e → id1 = id2.

(** ** What one call does to the database *)

(** The ways a call changes the database: not at all (it was refused,
    found nothing to do, or raised and was rolled back), or by the one
    write path of its function. *)
Inductive effect (now : date) (d : database) : op → database → Prop :=
  | effect_none o : effect now d o d
  | effect_add_book t a i copies :
      ¬ isbn_conflict (strip_if i) (books d) →
      effect now d (AddBook t a i copies)
        (set_books (<[next_rowid (seq_books d) (books d)
                      := new_book t a i copies now]> (books d))
           (next_rowid (seq_books d) (books d)) d)
  | effect_add_member n e p :
      ¬ email_conflict (strip_if e) (members d) →
      effect now d (AddMember n e p)
        (set_members (<[next_rowid (seq_members d) (members d)
                        := new_member n e p now]> (members d))
           (next_rowid (seq_members d) (members d)) d)
  | effect_delete_book id :
      active_loans_of_book id d = 0%nat →
      effect now d (DeleteBook id)
        (set_books (delete id (books d)) (seq_books d) d)
  | effect_delete_member id :
      active_loans_of_member id d = 0%nat →
      effect now d (DeleteMember id)
        (set_members (delete id (members d)) (seq_members d) d)
  | effect_borrow_book bid mid days b :
      books d !! bid = Some b → 0 < copies_available b →
      effect now d (BorrowBook bid mid days)
        (set_books (alter (add_available (-1)) bid (books d)) (seq_books d)
           (set_loans (<[next_rowid (seq_loans d) (loans d)
                         := new_loan bid mid days now]> (loans d))
              (next_rowid (seq_loans d) (loans d)) d))
  | effect_return_book lid l :
      loans d !! lid = Some l → return_date l = None →
      effect now d (ReturnBook lid)
        (set_books (alter (add_available 1) (book_id l) (books d))
           (seq_books d)
           (set_loans (alter (set_return_date now) lid (loans d))
              (seq_loans d) d)).

(** Every outstanding loan is a loan of a book that is there. *)
Definition outstanding_have_book (d : database) : Prop :=
  ∀ lid l, loans d !! lid = Some l → return_date l = None →
    is_Some (books d !! book_id l).

(** ** Lists of loans *)

Global Instance by_returned_then_due_total : Total by_returned_then_due.
Proof.
  intros r1 r2. unfold by_returned_then_due.
  destruct (Z.lt_total (returned_key r1) (returned_key r2)) as [?|[?|?]];
    [by left; left | | by right; left].
  destruct (total by_due_date r1 r2); [left | right]; right; by split.
Qed.
Global Instance by_returned_then_due_trans : Transitive by_returned_then_due.
Proof.
  intros r1 r2 r3. unfold by_returned_then_due.
  intros [?|[? ?]] [?|[? ?]]; try (left; lia).
  right. split; [lia | by etrans].
Qed.

(** [r] is the row the join makes of the loan [lid]. *)
Definition row_of_loan (d : database) (lid : Z) (l : loan) (r : loan_row) :
    Prop :=
  ∃ b m, books d !! book_id l = Some b ∧ members d !! member_id l = Some m
         ∧ r = {| row_id := lid; row_loan := l;
                  book_title := title b; member_name := name m |}.

(** ** Searches *)

Global Instance by_id_total {A} : Total (@by_id A).
Proof. intros r1 r2. unfold by_id. lia. Qed.
Global Instance by_id_trans {A} : Transitive (@by_id A).
Proof. intros r1 r2 r3. unfold by_id. lia. Qed.

(** [k] occurs in [s]. *)
Definition occurs_in (k s : string) : Prop :=
  ∃ pre post, s = pre +:+ k +:+ post.

(** Neither [%] nor [_] is in the keyword. *)
Fixpoint plain (k : string) : bool :=
  match k with
  | EmptyString => true
  | String c k' =>
      negb (Ascii.eqb c "%") && negb (Ascii.eqb c "_") && plain k'
  end.

(** No U+0000 is in the text. *)
Fixpoint no_nul (s : string) : bool :=
  match s with
  | EmptyString => true
  | String c s' => negb (Ascii.eqb c "000") && no_nul s'
  end.

(** The keyword is made of [%] only. *)
Fixpoint all_percent (k : string) : bool :=
  match k with
  | EmptyString => true
  | String c k' => Ascii.eqb c "%" && all_percent k'
  end.

(** The text comes out of SQLite's [lower()] as it went in. *)
Fixpoint sql_lowered (s : string) : bool :=
  match s with
  | EmptyString => true
  | String c s' => Ascii.eqb (sql_lower c) c && sql_lowered s'
  end.

(** The pattern and the text agree character by character under [LIKE]. *)
Fixpoint like_chars (k s : string) : bool :=
  match k, s with
  | EmptyString, EmptyString => true
  | String c k', String c2 s' => like_char c c2 && like_chars k' s'
  | _, _ => false
  end.

(** Two books, the second with a capital letter that is not in A..Z
    (U+00C9, E with acute accent) at the head of its title. *)
Definition catalogue : database :=
  run [(new_year, AddBook "Dune" "Frank Herbert" (Some "0441013597") 2);
       (new_year, AddBook (String "201" "cole") "Jean Martin" None 1)] init_db.

(** A book whose title has a U+0000 in it: a, U+0000, b. *)
Definition nul_title : database :=
  run [(new_year, AddBook (String "a" (String "000" "b")) "Anon" None 1)]
    init_db.

(** ** The sample rows *)

Definition clean_code (available : Z) (now : date) : book :=
  {| title := "Clean Code"; author := "Robert C. Martin";
     isbn := Some "9780132350884"; copies_total := 3;
     copies_available := available; created_at := now |}.
Definition fluent_python (available : Z) (now : date) : book :=
  {| title := "Fluent Python"; author := "Luciano Ramalho";
     isbn := Some "9781491946008"; copies_total := 2;
     copies_available := available; created_at := now |}.
Definition automate (now : date) : book :=
  {| title := "Automate the Boring Stuff with Python";
     author := "Al Sweigart"; isbn := Some "9781593275990";
     copies_total := 4; copies_available := 4; created_at := now |}.
Definition alice (now : date) : member :=
  {| name := "Alice"; email := Some "alice@example.com";
     phone := Some "9000000001"; joined_at := now |}.
Definition bob (now : date) : member :=
  {| name := "Bob"; email := Some "bob@example.com";
     phone := Some "9000000002"; joined_at := now |}.

(** ** Tables *)

(** A row as a list of named columns, looked up by the exact name. *)
Definition assoc_item (r : list (string * value)) (h : string) :
    option value :=
  (λ x, x.2.2) <$> list_find (λ kv, kv.1 = h) r.

Definition loan_headers : list string :=
  ["id"; "book_title"; "due_date"].

Definition loan_table : list (list (string * value)) :=
  [[("id", VInt 1); ("book_title", VText "Dune"); ("due_date", VNone)];
   [("id", VInt 12);
    ("book_title", VText "Automate the Boring Stuff with Python");
    ("due_date", VText "2024-05-01")]].

Definition assoc_keys (r : list (string * value)) : list string := r.*1.


(** ** Tables as printed *)

(** [cell] is [text] with nothing but spaces after it, [w] characters in
    all. *)
Definition padded (text : string) (w : nat) (cell : string) : Prop :=
  ∃ n, cell = text +:+ repeat_char " " n ∧ String.length cell = w.

(** [line] is the [texts], each padded to the width of its column, with
    [" | "] between them. *)
Definition aligned (widths : list nat) (texts : list string)
    (line : string) : Prop :=
  ∃ cells, Forall3 padded texts widths cells ∧ line = join " | " cells.

(** [w] is the length of the longest of the [texts]. *)
Definition widest (texts : list string) (w : nat) : Prop :=
  (∀ t, t ∈ texts → (String.length t ≤ w)%nat)
  ∧ ∃ t, t ∈ texts ∧ String.length t = w.

(** * Properties *)

(** ** The model runs *)

(** The example of the specification: a book with two copies is lent
    twice, the third loan is refused and creates no row. *)
Example dune_two_copies :
  let d2 := run [(new_year, AddBook "Dune" "Frank Herbert" None 2);
                 (new_year, AddMember "Alice" (Some "a@x.com") None);
                 (new_year + 1, BorrowBook 1 1 7);
                 (new_year + 2, BorrowBook 1 1 7)] init_db in
  copies_available <$> books d2 !! 1 = Some 0
  ∧ due_date <$> loans d2 !! 1 = Some (new_year + 8)
  ∧ borrow_book 1 1 7 (new_year + 3) d2 = (d2, Returned NoAvailableCopies).
Proof. by vm_compute. Qed.

(** A second member with the e-mail address of the first is refused, and
    the members table is as it was. *)
Example duplicate_email :
  let d1 := (add_member "Alice" (Some "a@x.com") None new_year init_db).1 in
  add_member "Bob" (Some "a@x.com") None new_year d1
  = (d1, Raised (IntegrityError "UNIQUE constraint failed: members.email")).
Proof. by vm_compute. Qed.

Example sample_run_result :
  let d := run sample_run init_db in
  books d !! 1 = Some {| title := "Dune"; author := "Frank Herbert";
                         isbn := None; copies_total := 2;
                         copies_available := 1; created_at := new_year |}
  ∧ return_date <$> loans d !! 1 = Some (Some (new_year + 4))
  ∧ return_date <$> loans d !! 2 = Some None
  ∧ loans d !! 3 = None.
Proof. by vm_compute. Qed.

(** The texts of some days, and the calls that raise: a number of copies,
    an id or a number of days that is too large, and a due date before the
    year 1000, which [borrow_book] stores and [return_book] cannot read
    back; the database is as it was after each. *)
Example out_of_range :
  strftime new_year = "2024-01-01"
  ∧ strftime (new_year - 400000) = "928-11-02"
  ∧ strftime first_day = "1000-01-01"
  ∧ strftime (first_day - 1) = "999-12-31"
  ∧ strftime max_day = "9999-12-31"
  ∧ add_book "Dune" "Frank Herbert" None 9223372036854775808 new_year init_db
    = (init_db, Raised OverflowError)
  ∧ borrow_book 1 1 3000000 new_year one_loan
    = (one_loan, Raised OverflowError)
  ∧ borrow_book 1 9223372036854775808 7 new_year one_loan
    = (one_loan, Raised OverflowError)
  ∧ borrow_book 9223372036854775808 1 7 new_year one_loan
    = (one_loan, Raised OverflowError)
  ∧ delete_book 9223372036854775808 one_loan
    = (one_loan, Raised OverflowError)
  ∧ delete_member 9223372036854775808 one_loan
    = (one_loan, Raised OverflowError)
  ∧ return_book 9223372036854775808 new_year one_loan
    = (one_loan, Raised OverflowError)
  ∧ due_date <$> loans early_due !! 1 = Some (new_year - 400000)
  ∧ return_book 1 (new_year + 1) early_due = (early_due, Raised ValueError)
  ∧ list_overdue (new_year + 1) early_due = []
  ∧ stats (new_year + 1) early_due = (1%nat, 1%nat, 1%nat, 0%nat).
Proof. by vm_compute. Qed.

(** ** Row ids *)

Lemma max_rowid_ge {A} (t : gmap Z A) (k : Z) :
  is_Some (t !! k) → k ≤ max_rowid t.
Proof.
  intros [x Hx]. unfold max_rowid.
  apply elem_of_map_to_list in Hx.
  assert (Hk : k ∈ (map_to_list t).*1).
  { apply list_elem_of_fmap. by exists (k, x). }
  clear Hx. induction Hk as [k l | k j l _ IH]; simpl; lia.
Qed.

Lemma next_rowid_fresh {A} (seq : Z) (t : gmap Z A) :
  t !! next_rowid seq t = None.
Proof.
  destruct (t !! next_rowid seq t) as [x|] eqn:E; [| done].
  assert (next_rowid seq t ≤ max_rowid t) by (apply max_rowid_ge; eauto).
  unfold next_rowid in *. lia.
Qed.

Lemma next_rowid_above {A} (seq : Z) (t : gmap Z A) :
  seq < next_rowid seq t.
Proof. unfold next_rowid. lia. Qed.

Lemma rowids_left_next {A} (seq : Z) (t : gmap Z A) :
  rowids_left 1 seq t ↔ next_rowid seq t ≤ 9223372036854775807.
Proof. done. Qed.

Lemma rowids_left_le {A} n m (seq : Z) (t : gmap Z A) :
  m ≤ n → rowids_left n seq t → rowids_left m seq t.
Proof. unfold rowids_left. lia. Qed.

Lemma max_rowid_insert {A} (t : gmap Z A) k x :
  max_rowid t ≤ k → max_rowid (<[k := x]> t) = k.
Proof.
  intros Hk. apply Z.le_antisymm.
  - unfold max_rowid.
    assert (H : Forall (λ j, j ≤ k) (map_to_list (<[k := x]> t)).*1).
    { apply Forall_forall. intros j [[j' y] [-> Hin]]%list_elem_of_fmap.
      apply elem_of_map_to_list, lookup_insert_Some in Hin as [[<- _]|[_ Hj]].
      - done.
      - simpl. etrans; [| exact Hk]. apply max_rowid_ge. eauto. }
    assert (0 ≤ k).
    { etrans; [| exact Hk]. unfold max_rowid.
      generalize ((map_to_list t).*1). intros l.
      induction l; simpl; lia. }
    induction H as [|j l Hj _ IH]; simpl; lia.
  - apply max_rowid_ge. rewrite lookup_insert_eq. eauto.
Qed.

(** ** What each operation computes

    The operations unfolded on the connection [get_conn] gives them, one
    equation per path through the source function. *)

Ltac unfold_stmt :=
  unfold transaction, insert_book, insert_member, insert_loan, select_book,
    select_loan, count_active_book, count_active_member, delete_book_row,
    delete_member_row, update_available, update_return_date, cascade,
    new_rowid, bind_int, parse_date, add_days, bind, ret, raise, get, put;
  simpl.

Ltac by_cases :=
  repeat case_decide; simplify_eq/=; try done;
  try (exfalso; unfold rowids_left, next_rowid, due_date_defined in *;
       simpl in *; (lia || tauto)).

Lemma transaction_raised {A} (body : connection → stmt A) d d' e :
  transaction body d = (d', Raised e) → d' = d.
Proof.
  unfold transaction. destruct (body get_conn d) as [[? ?]|?]; intros E;
    by simplify_eq.
Qed.

(** A call that raised has left the database as it was. *)
Ltac rolled_back E :=
  unfold add_book, add_member, delete_book, delete_member, borrow_book,
    return_book in E;
  apply transaction_raised in E as ->.

(** *** [add_book] *)

Lemma add_book_overflow t a i copies now d :
  ¬ sqlite_int copies →
  add_book t a i copies now d = (d, Raised OverflowError).
Proof. intros H. unfold add_book. unfold_stmt. by_cases. Qed.



Lemma add_book_returned t a i copies now d :
  sqlite_int copies → rowids_left 1 (seq_books d) (books d) →
  ¬ isbn_conflict (strip_if i) (books d) →
  add_book t a i copies now d =
    (let id := next_rowid (seq_books d) (books d) in
     (set_books (<[id := new_book t a i copies now]> (books d)) id d,
      Returned id)).
Proof. intros H1 H2 H3. unfold add_book. unfold_stmt. by_cases. Qed.

Lemma add_book_inv t a i copies now d d' id :
  add_book t a i copies now d = (d', Returned id) →
  sqlite_int copies ∧ rowids_left 1 (seq_books d) (books d)
  ∧ ¬ isbn_conflict (strip_if i) (books d)
  ∧ id = next_rowid (seq_books d) (books d)
  ∧ d' = set_books (<[id := new_book t a i copies now]> (books d)) id d.
Proof. unfold add_book. unfold_stmt. intros E. by_cases. Qed.

(** *** [add_member] *)

Lemma add_member_full n e p now d :
  ¬ rowids_left 1 (seq_members d) (members d) →
  add_member n e p now d
  = (d, Raised (OperationalError "database or disk is full")).
Proof. intros H. unfold add_member. unfold_stmt. by_cases. Qed.

Lemma add_member_raised n e p now d :
  rowids_left 1 (seq_members d) (members d) →
  email_conflict (strip_if e) (members d) →
  add_member n e p now d =
    (d, Raised (IntegrityError "UNIQUE constraint failed: members.email")).
Proof. intros H1 H2. unfold add_member. unfold_stmt. by_cases. Qed.

Lemma add_member_returned n e p now d :
  rowids_left 1 (seq_members d) (members d) →
  ¬ email_conflict (strip_if e) (members d) →
  add_member n e p now d =
    (let id := next_rowid (seq_members d) (members d) in
     (set_members (<[id := new_member n e p now]> (members d)) id d,
      Returned id)).
Proof. intros H1 H2. unfold add_member. unfold_stmt. by_cases. Qed.

Lemma add_member_inv n e p now d d' id :
  add_member n e p now d = (d', Returned id) →
  rowids_left 1 (seq_members d) (members d)
  ∧ ¬ email_conflict (strip_if e) (members d)
  ∧ id = next_rowid (seq_members d) (members d)
  ∧ d' = set_members (<[id := new_member n e p now]> (members d)) id d.
Proof. unfold add_member. unfold_stmt. intros E. by_cases. Qed.

(** *** [delete_book] and [delete_member] *)

Lemma delete_book_overflow id d :
  ¬ sqlite_int id → delete_book id d = (d, Raised OverflowError).
Proof. intros H. unfold delete_book. unfold_stmt. by_cases. Qed.

Lemma delete_book_blocked id d :
  sqlite_int id → active_loans_of_book id d ≠ 0%nat →
  delete_book id d = (d, Returned CannotDeleteBook).
Proof.
  intros H1 H2. unfold delete_book. unfold_stmt.
  fold (active_loans_of_book id d). by_cases.
Qed.

Lemma delete_book_deleted id d :
  sqlite_int id → active_loans_of_book id d = 0%nat →
  delete_book id d =
    (set_books (delete id (books d)) (seq_books d) d, Returned BookDeleted).
Proof.
  intros H1 H2. unfold delete_book. unfold_stmt.
  fold (active_loans_of_book id d). by_cases.
Qed.

Lemma delete_book_inv id d d' r :
  delete_book id d = (d', Returned r) →
  sqlite_int id
  ∧ (r = CannotDeleteBook ∧ active_loans_of_book id d ≠ 0%nat ∧ d' = d
     ∨ r = BookDeleted ∧ active_loans_of_book id d = 0%nat
       ∧ d' = set_books (delete id (books d)) (seq_books d) d).
Proof.
  unfold delete_book. unfold_stmt. fold (active_loans_of_book id d).
  intros E. by_cases; split; auto.
Qed.

Lemma delete_member_overflow id d :
  ¬ sqlite_int id → delete_member id d = (d, Raised OverflowError).
Proof. intros H. unfold delete_member. unfold_stmt. by_cases. Qed.

Lemma delete_member_blocked id d :
  sqlite_int id → active_loans_of_member id d ≠ 0%nat →
  delete_member id d = (d, Returned CannotDeleteMember).
Proof.
  intros H1 H2. unfold delete_member. unfold_stmt.
  fold (active_loans_of_member id d). by_cases.
Qed.

Lemma delete_member_deleted id d :
  sqlite_int id → active_loans_of_member id d = 0%nat →
  delete_member id d =
    (set_members (delete id (members d)) (seq_members d) d,
     Returned MemberDeleted).
Proof.
  intros H1 H2. unfold delete_member. unfold_stmt.
  fold (active_loans_of_member id d). by_cases.
Qed.

Lemma delete_member_inv id d d' r :
  delete_member id d = (d', Returned r) →
  sqlite_int id
  ∧ (r = CannotDeleteMember ∧ active_loans_of_member id d ≠ 0%nat ∧ d' = d
     ∨ r = MemberDeleted ∧ active_loans_of_member id d = 0%nat
       ∧ d' = set_members (delete id (members d)) (seq_members d) d).
Proof.
  unfold delete_member. unfold_stmt. fold (active_loans_of_member id d).
  intros E. by_cases; split; auto.
Qed.

(** *** [borrow_book] *)

Lemma borrow_book_overflow_book bid mid days now d :
  ¬ sqlite_int bid →
  borrow_book bid mid days now d = (d, Raised OverflowError).
Proof. intros H. unfold borrow_book. unfold_stmt. by_cases. Qed.

Lemma borrow_book_not_found bid mid days now d :
  sqlite_int bid → books d !! bid = None →
  borrow_book bid mid days now d = (d, Returned BookNotFound).
Proof.
  intros H1 H. unfold borrow_book. unfold_stmt. rewrite decide_True by done.
  simpl. by rewrite H.
Qed.

Lemma borrow_book_no_copies bid mid days now d b :
  sqlite_int bid → books d !! bid = Some b → copies_available b ≤ 0 →
  borrow_book bid mid days now d = (d, Returned NoAvailableCopies).
Proof.
  intros H1 H Hc. unfold borrow_book. unfold_stmt.
  rewrite decide_True by done. simpl. rewrite H. by_cases.
Qed.

Lemma borrow_book_created bid mid days now d b :
  sqlite_int bid → books d !! bid = Some b → 0 < copies_available b →
  sqlite_int mid → due_date_defined now days →
  rowids_left 1 (seq_loans d) (loans d) →
  borrow_book bid mid days now d =
    (let id := next_rowid (seq_loans d) (loans d) in
     (set_books (alter (add_available (-1)) bid (books d)) (seq_books d)
        (set_loans (<[id := new_loan bid mid days now]> (loans d)) id d),
      Returned (LoanCreated id (now + days)))).
Proof.
  intros H1 H Hc H2 (H3 & H4 & H5) H6. unfold borrow_book. unfold_stmt.
  rewrite decide_True by done. simpl. rewrite H. by_cases.
Qed.

(** The ways in which [borrow_book] raises once the book is found with a
    copy available: on the clock, on the number of days, on the member
    id, and when the loans table is full. *)
Lemma borrow_book_raises bid mid days now d b :
  sqlite_int bid → books d !! bid = Some b → 0 < copies_available b →
  ¬ (sqlite_int mid ∧ due_date_defined now days
     ∧ rowids_left 1 (seq_loans d) (loans d)) →
  borrow_book bid mid days now d =
    (d, Raised (if decide (four_digit_year now) then
                  if decide (timedelta_days days ∧ datetime_day (now + days))
                  then
                    if decide (sqlite_int mid)
                    then OperationalError "database or disk is full"
                    else OverflowError
                  else OverflowError
                else ValueError)).
Proof.
  intros H1 H Hc Hno. unfold borrow_book. unfold_stmt.
  rewrite decide_True by done. simpl. rewrite H.
  by_cases; exfalso; apply Hno; unfold due_date_defined, rowids_left; tauto.
Qed.

Lemma borrow_book_inv bid mid days now d d' r :
  borrow_book bid mid days now d = (d', Returned r) →
  sqlite_int bid
  ∧ (r = BookNotFound ∧ books d !! bid = None ∧ d' = d
     ∨ (∃ b, r = NoAvailableCopies ∧ books d !! bid = Some b
             ∧ copies_available b ≤ 0 ∧ d' = d)
     ∨ (∃ b, books d !! bid = Some b ∧ 0 < copies_available b
             ∧ sqlite_int mid ∧ due_date_defined now days
             ∧ rowids_left 1 (seq_loans d) (loans d)
             ∧ r = LoanCreated (next_rowid (seq_loans d) (loans d))
                     (now + days)
             ∧ d' = set_books (alter (add_available (-1)) bid (books d))
                      (seq_books d)
                      (set_loans (<[next_rowid (seq_loans d) (loans d)
                                    := new_loan bid mid days now]> (loans d))
                         (next_rowid (seq_loans d) (loans d)) d))).
Proof.
  intros E.
  destruct (decide (sqlite_int bid)) as [H1|H1].
  2: { rewrite borrow_book_overflow_book in E by done. by simplify_eq. }
  split; [done |]. destruct (books d !! bid) as [b|] eqn:Hb.
  2: { rewrite borrow_book_not_found in E by done. simplify_eq. by left. }
  right. destruct (decide (copies_available b ≤ 0)) as [Hc|Hc].
  { rewrite (borrow_book_no_copies _ _ _ _ _ b) in E by done. simplify_eq.
    left. by exists b. }
  right. exists b.
  destruct (decide (sqlite_int mid ∧ due_date_defined now days
                    ∧ rowids_left 1 (seq_loans d) (loans d)))
    as [(H2 & H3 & H4)|Hno].
  2: { rewrite (borrow_book_raises _ _ _ _ _ b) in E by (done || lia).
       by simplify_eq. }
  rewrite (borrow_book_created _ _ _ _ _ b) in E by (done || lia).
  simpl in E. simplify_eq. split_and!; try done; lia.
Qed.

(** *** [return_book] *)

Lemma return_book_overflow lid now d :
  ¬ sqlite_int lid → return_book lid now d = (d, Raised OverflowError).
Proof. intros H. unfold return_book. unfold_stmt. by_cases. Qed.

Lemma return_book_not_found lid now d :
  sqlite_int lid → loans d !! lid = None →
  return_book lid now d = (d, Returned LoanNotFound).
Proof.
  intros H1 H. unfold return_book. unfold_stmt. rewrite decide_True by done.
  simpl. by rewrite H.
Qed.

Lemma return_book_already lid now d l r :
  sqlite_int lid → loans d !! lid = Some l → return_date l = Some r →
  return_book lid now d = (d, Returned AlreadyReturned).
Proof.
  intros H1 H Hr. unfold return_book. unfold_stmt.
  rewrite decide_True by done. simpl. by rewrite H, Hr.
Qed.

Lemma return_book_returned lid now d l :
  sqlite_int lid → loans d !! lid = Some l → return_date l = None →
  four_digit_year (due_date l) →
  return_book lid now d =
    (set_books (alter (add_available 1) (book_id l) (books d)) (seq_books d)
       (set_loans (alter (set_return_date now) lid (loans d)) (seq_loans d) d),
     Returned (if decide (now > due_date l)
               then ReturnedLate (now - due_date l) else ReturnedOnTime)).
Proof.
  intros H1 H Hr Hdue. unfold return_book. unfold_stmt.
  rewrite decide_True by done. simpl. rewrite H, Hr. by_cases.
Qed.

(** A due date that does not read back: [ValueError], after the two
    updates, which are rolled back. *)
Lemma return_book_unreadable lid now d l :
  sqlite_int lid → loans d !! lid = Some l → return_date l = None →
  ¬ four_digit_year (due_date l) →
  return_book lid now d = (d, Raised ValueError).
Proof.
  intros H1 H Hr Hdue. unfold return_book. unfold_stmt.
  rewrite decide_True by done. simpl. rewrite H, Hr. by_cases.
Qed.

Lemma return_book_inv lid now d d' r :
  return_book lid now d = (d', Returned r) →
  sqlite_int lid
  ∧ (r = LoanNotFound ∧ loans d !! lid = None ∧ d' = d
     ∨ (∃ l, r = AlreadyReturned ∧ loans d !! lid = Some l
             ∧ is_Some (return_date l) ∧ d' = d)
     ∨ (∃ l, loans d !! lid = Some l ∧ return_date l = None
             ∧ four_digit_year (due_date l)
             ∧ r = (if decide (now > due_date l)
                    then ReturnedLate (now - due_date l) else ReturnedOnTime)
             ∧ d' = set_books (alter (add_available 1) (book_id l) (books d))
                      (seq_books d)
                      (set_loans (alter (set_return_date now) lid (loans d))
                         (seq_loans d) d))).
Proof.
  intros E.
  destruct (decide (sqlite_int lid)) as [H1|H1].
  2: { rewrite return_book_overflow in E by done. by simplify_eq. }
  split; [done |]. destruct (loans d !! lid) as [l|] eqn:Hl.
  2: { rewrite return_book_not_found in E by done. simplify_eq. by left. }
  right. destruct (return_date l) as [r0|] eqn:Hr.
  { rewrite (return_book_already _ _ _ l r0) in E by done. simplify_eq.
    left. exists l. rewrite Hr. eauto. }
  right. exists l. destruct (decide (four_digit_year (due_date l))).
  2: { rewrite (return_book_unreadable _ _ _ l) in E by done.
       by simplify_eq. }
  rewrite (return_book_returned _ _ _ l) in E by done. by simplify_eq.
Qed.

(** ** Counting rows: [SELECT COUNT( * ) ... WHERE ...] under writes *)

Section counting.
Context {A : Type} (P : Z * A → Prop) `{!∀ x, Decision (P x)}.

Lemma alter_as_insert (f : A → A) (t : gmap Z A) k x :
  t !! k = Some x → alter f k t = <[k := f x]> t.
Proof.
  intros Hk. apply map_eq. intros j. destruct (decide (k = j)) as [<-|Hne].
  - by rewrite lookup_alter_eq, lookup_insert_eq, Hk.
  - by rewrite lookup_alter_ne, lookup_insert_ne.
Qed.

Lemma count_insert_fresh (t : gmap Z A) k x :
  t !! k = None →
  size (filter P (<[k := x]> t)) = (hit P k x + size (filter P t))%nat.
Proof.
  intros Hk. unfold hit. rewrite map_filter_insert.
  destruct (decide (P (k, x))).
  - rewrite map_size_insert_None; [done |].
    apply map_lookup_filter_None_2. by left.
  - by rewrite delete_id.
Qed.

Lemma count_overwrite (t : gmap Z A) k x y :
  t !! k = Some x →
  (size (filter P (<[k := y]> t)) + hit P k x
   = size (filter P t) + hit P k y)%nat.
Proof.
  intros Hk. unfold hit. rewrite map_filter_insert, map_filter_delete.
  destruct (decide (P (k, x))) as [Hx|Hx], (decide (P (k, y))) as [Hy|Hy].
  - rewrite map_size_insert_Some; [done |].
    exists x. by apply map_lookup_filter_Some_2.
  - assert (Hin : filter P t !! k = Some x)
      by by apply map_lookup_filter_Some_2.
    rewrite map_size_delete, Hin.
    assert (size (filter P t) ≠ 0%nat).
    { apply map_size_non_empty_iff. intros E. by rewrite E in Hin. }
    simpl. lia.
  - rewrite map_size_insert_None; [lia |].
    apply map_lookup_filter_None_2. right. intros ? ?. by simplify_eq.
  - rewrite map_size_delete_None; [done |].
    apply map_lookup_filter_None_2. right. intros ? ?. by simplify_eq.
Qed.

Lemma count_alter (f : A → A) (t : gmap Z A) k x :
  t !! k = Some x →
  (size (filter P (alter f k t)) + hit P k x
   = size (filter P t) + hit P k (f x))%nat.
Proof.
  intros Hk. rewrite (alter_as_insert f t k x Hk).
  by apply count_overwrite.
Qed.

Lemma count_zero (t : gmap Z A) :
  size (filter P t) = 0%nat ↔ ∀ k x, t !! k = Some x → ¬ P (k, x).
Proof.
  rewrite map_size_empty_iff. split.
  - intros E k x Hk HP. by apply (map_filter_empty_not_lookup P t k x).
  - intros Hall. apply map_eq. intros k. rewrite lookup_empty.
    apply map_lookup_filter_None_2.
    destruct (t !! k) as [x|] eqn:Hk; [right | by left].
    intros y Hy. simplify_eq. by apply Hall.
Qed.
End counting.


(** ** Every call has one of seven effects *)

Lemma step_effect now o d : effect now d o (step now o d).
Proof.
  destruct o as [t a i copies|n e p|id|id|bid mid days|lid]; simpl.
  - destruct (add_book t a i copies now d) as [d' [id|e]] eqn:E; simpl.
    + apply add_book_inv in E as (_ & _ & Hi & -> & ->). by constructor.
    + rolled_back E. constructor.
  - destruct (add_member n e p now d) as [d' [id|e']] eqn:E; simpl.
    + apply add_member_inv in E as (_ & Hi & -> & ->). by constructor.
    + rolled_back E. constructor.
  - destruct (delete_book id d) as [d' [r|e]] eqn:E; simpl.
    + apply delete_book_inv in E as (_ & [(_ & _ & ->)|(_ & H0 & ->)]);
        by constructor.
    + rolled_back E. constructor.
  - destruct (delete_member id d) as [d' [r|e]] eqn:E; simpl.
    + apply delete_member_inv in E as (_ & [(_ & _ & ->)|(_ & H0 & ->)]);
        by constructor.
    + rolled_back E. constructor.
  - destruct (borrow_book bid mid days now d) as [d' [r|e]] eqn:E; simpl.
    + apply borrow_book_inv in E
        as (_ & [(_ & _ & ->)|[(b & _ & _ & _ & ->)
                |(b & Hb & Hc & _ & _ & _ & _ & ->)]]);
        [constructor | constructor |].
      by apply (effect_borrow_book _ _ _ _ _ b).
    + rolled_back E. constructor.
  - destruct (return_book lid now d) as [d' [r|e]] eqn:E; simpl.
    + apply return_book_inv in E
        as (_ & [(_ & _ & ->)|[(l & _ & _ & _ & ->)
                |(l & Hl & Hr & _ & _ & ->)]]);
        [constructor | constructor |].
      by constructor.
    + rolled_back E. constructor.
Qed.

(** An invariant of every effect, from a database that has it, holds
    after every run. *)
Lemma run_invariant (I : database → Prop) tr d :
  (∀ now o d d', I d → effect now d o d' → I d') → I d → I (run tr d).
Proof.
  intros Hstep. revert d.
  induction tr as [|[now o] tr IH]; intros d Hd; simpl; [done |].
  apply IH. apply (Hstep now o d); [done | apply step_effect].
Qed.

(** ** The copy counter counts the outstanding loans *)

Lemma consistent_init : consistent init_db.
Proof. split; intros ? ?; simpl; by rewrite lookup_empty. Qed.

Lemma consistent_same_tables d d' :
  books d' = books d → loans d' = loans d → consistent d → consistent d'.
Proof.
  intros Hb Hl [Hc Ha]. split; unfold active_loans_of_book.
  - rewrite Hb, Hl. exact Hc.
  - rewrite Hb, Hl. exact Ha.
Qed.

Lemma consistent_add_book t a i copies now d :
  0 ≤ copies → consistent d →
  consistent (set_books (<[next_rowid (seq_books d) (books d)
                           := new_book t a i copies now]> (books d))
                (next_rowid (seq_books d) (books d)) d).
Proof.
  intros Hcopies Hd.
  pose proof (next_rowid_fresh (seq_books d) (books d)) as Hfresh.
  destruct Hd as [Hc Ha]. split; unfold active_loans_of_book; simpl.
  - intros id b [[<- <-]|[Hne Hb]]%lookup_insert_Some; [| by apply Hc].
    simpl. split; [done |].
    assert (E : size (filter (active_for_book
                (next_rowid (seq_books d) (books d))) (loans d)) = 0%nat).
    { apply count_zero. intros k l Hk [Hbid Hret]. simpl in *.
      destruct (Ha k l Hk Hret) as [b Hb]. rewrite Hbid in Hb. congruence. }
    rewrite E. lia.
  - intros lid l Hl Hret. apply lookup_insert_is_Some'. right. eauto.
Qed.

Lemma consistent_delete_book id d :
  active_loans_of_book id d = 0%nat → consistent d →
  consistent (set_books (delete id (books d)) (seq_books d) d).
Proof.
  intros E Hd.
  destruct Hd as [Hc Ha]. split; unfold active_loans_of_book; simpl.
  - intros id' b [Hne Hb]%lookup_delete_Some. by apply Hc.
  - intros lid l Hl Hret.
    assert (book_id l ≠ id).
    { intros Hid. unfold active_loans_of_book in E.
      apply (proj1 (count_zero _ _) E lid l Hl). by split. }
    rewrite lookup_delete_ne by done. eauto.
Qed.

Lemma consistent_borrow_book bid mid days now d b :
  books d !! bid = Some b → 0 < copies_available b → consistent d →
  consistent
    (set_books (alter (add_available (-1)) bid (books d)) (seq_books d)
       (set_loans (<[next_rowid (seq_loans d) (loans d)
                     := new_loan bid mid days now]> (loans d))
          (next_rowid (seq_loans d) (loans d)) d)).
Proof.
  intros Hb Hz Hd.
  pose proof (next_rowid_fresh (seq_loans d) (loans d)) as Hfresh.
  destruct Hd as [Hc Ha]. split; unfold active_loans_of_book; simpl.
  - intros id b' Hb'. rewrite count_insert_fresh by done. unfold hit.
    destruct (decide (bid = id)) as [<-|Hne].
    + rewrite lookup_alter_eq, Hb in Hb'. simpl in Hb'. simplify_eq. simpl.
      destruct (Hc bid b Hb) as [H0 Hsum]. unfold active_loans_of_book in Hsum.
      rewrite decide_True by (by split). lia.
    + rewrite lookup_alter_ne in Hb' by done.
      destruct (Hc id b' Hb') as [H0 Hsum]. unfold active_loans_of_book in Hsum.
      rewrite decide_False by (by intros [? ?]). lia.
  - intros lid l [[<- <-]|[Hne Hl]]%lookup_insert_Some Hret; simpl.
    + rewrite lookup_alter_eq, Hb. eauto.
    + apply lookup_alter_is_Some. eauto.
Qed.

Lemma consistent_return_book lid now d l :
  loans d !! lid = Some l → return_date l = None → consistent d →
  consistent
    (set_books (alter (add_available 1) (book_id l) (books d)) (seq_books d)
       (set_loans (alter (set_return_date now) lid (loans d)) (seq_loans d) d)).
Proof.
  intros Hl Hret Hd.
  destruct Hd as [Hc Ha]. split; unfold active_loans_of_book; simpl.
  - intros id b' Hb'.
    pose proof (count_alter (active_for_book id) (set_return_date now)
                  (loans d) lid l Hl) as Hcount.
    unfold hit in Hcount.
    rewrite (decide_False (P := active_for_book id (lid, set_return_date _ _)))
      in Hcount by (by intros [? ?]).
    destruct (decide (book_id l = id)) as [<-|Hne].
    + rewrite decide_True in Hcount by (by split).
      rewrite lookup_alter_eq in Hb'.
      destruct (books d !! book_id l) as [b|] eqn:Hb; [| done].
      simpl in Hb'. simplify_eq. simpl.
      destruct (Hc (book_id l) b Hb) as [H0 Hsum].
      unfold active_loans_of_book in Hsum. lia.
    + rewrite decide_False in Hcount by (by intros [? ?]).
      rewrite lookup_alter_ne in Hb' by done.
      destruct (Hc id b' Hb') as [H0 Hsum].
      unfold active_loans_of_book in Hsum. lia.
  - intros lid' l' Hl' Hret'. apply lookup_alter_is_Some.
    destruct (decide (lid = lid')) as [<-|Hne].
    + rewrite lookup_alter_eq, Hl in Hl'. simpl in Hl'. by simplify_eq.
    + rewrite lookup_alter_ne in Hl' by done. eauto.
Qed.

Lemma consistent_effect now o d d' :
  admissible o → consistent d → effect now d o d' → consistent d'.
Proof.
  intros Hadm Hd Heff. destruct Heff; simpl in Hadm.
  - done.
  - by apply consistent_add_book.
  - by apply (consistent_same_tables d).
  - by apply consistent_delete_book.
  - by apply (consistent_same_tables d).
  - by apply (consistent_borrow_book _ _ _ _ _ b).
  - by apply consistent_return_book.
Qed.

Lemma consistent_step now o d :
  admissible o → consistent d → consistent (step now o d).
Proof.
  intros Hadm Hd. apply (consistent_effect now o d); [done | done |].
  apply step_effect.
Qed.

Lemma consistent_run tr d :
  Forall (λ x, admissible x.2) tr → consistent d → consistent (run tr d).
Proof.
  intros Htr. revert d.
  induction Htr as [|[now o] tr Ho _ IH]; intros d Hd; simpl; [done |].
  apply IH. by apply consistent_step.
Qed.

Lemma consistent_bounds d id b :
  consistent d → books d !! id = Some b →
  0 ≤ copies_available b ≤ copies_total b.
Proof. intros [Hc _] Hb. destruct (Hc id b Hb). lia. Qed.

(** ** Bounds on [copies_available] *)

(** The number the shell's prompt returns is within the bound it is given:
    [input_int("Total copies: ", 1)] hands [add_book] a count of at least
    one. *)
Lemma input_int_at_least lo hi lines val rest :
  input_int (Some lo) hi lines = Some (val, rest) → lo ≤ val.
Proof.
  induction lines as [|[v|] lines IH]; simpl; [done | | done].
  destruct (v <? lo) eqn:Hlo; simpl; [done |].
  destruct (match hi with Some m => v >? m | None => false end); [done |].
  intros E. simplify_eq. lia.
Qed.

Lemma shell_add_book_admissible t a i lines copies rest :
  input_int (Some 1) None lines = Some (copies, rest) →
  admissible (AddBook t a i copies).
Proof. intros H%input_int_at_least. simpl. lia. Qed.

(** C1, as stated, fails: [add_book] stores whatever count it is given, so
    one call with a negative count leaves a book with
    [copies_available = -1]. *)
Lemma bounds_fail_negative_copies :
  ¬ bounds_hold
      (run [(new_year, AddBook "Dune" "Frank Herbert" None (-1))] init_db).
Proof.
  intros H.
  specialize (H 1 (new_book "Dune" "Frank Herbert" None (-1) new_year)).
  simpl in H. destruct H as [H _]; [by vm_compute | lia].
Qed.

(** C1 (amended): after every sequence of AddBook, AddMember, DeleteBook,
    DeleteMember, BorrowBook and ReturnBook calls on a fresh database in
    which no AddBook is given a negative number of copies, every book row
    has [0 ≤ copies_available ≤ copies_total]. *)
Theorem copies_available_bounded (tr : list (date * op)) :
  Forall (λ x, admissible x.2) tr → bounds_hold (run tr init_db).
Proof.
  intros Htr id b Hb. apply (consistent_bounds (run tr init_db) id); [| done].
  apply consistent_run; [done | apply consistent_init].
Qed.

Lemma copies_available_bounded_witness :
  Forall (λ x, admissible x.2) sample_run ∧
  bounds_hold (run sample_run init_db).
Proof.
  assert (H : Forall (λ x : date * op, admissible x.2) sample_run).
  { unfold sample_run. repeat constructor; simpl; lia. }
  split; [exact H | exact (copies_available_bounded sample_run H)].
Defined.

(** ** The calendar

    [ord2ymd] numbers the days of the calendar in their order, and the
    texts of [strftime] are in that order from the year 1000 on. *)

Lemma divmod_spec a b :
  0 < b → a = b * (a / b) + a mod b ∧ 0 ≤ a mod b < b.
Proof.
  intros. split; [apply Z.div_mod; lia | apply Z.mod_pos_bound; lia].
Qed.

Lemma month_cases m :
  1 ≤ m ≤ 12 →
  m = 1 ∨ m = 2 ∨ m = 3 ∨ m = 4 ∨ m = 5 ∨ m = 6 ∨ m = 7 ∨ m = 8 ∨ m = 9
  ∨ m = 10 ∨ m = 11 ∨ m = 12.
Proof. lia. Qed.

Ltac each_month H :=
  destruct H as [->|[->|[->|[->|[->|[->|[->|[->|[->|[->|[->| ->]]]]]]]]]]].

Ltac closed_arith :=
  repeat match goal with
         | |- context [Zpos ?a - Zpos ?b] =>
             let v := eval vm_compute in (Zpos a - Zpos b) in
             change (Zpos a - Zpos b) with v
         | H : context [Zpos ?a - Zpos ?b] |- _ =>
             let v := eval vm_compute in (Zpos a - Zpos b) in
             change (Zpos a - Zpos b) with v in H
         end.

(** [ord2ymd] gives a month and a day of that month, and [ymd2ord] leads
    back to the day number. *)
Lemma ord2ymd_inverse n : valid_ymd (ord2ymd n) ∧ ymd2ord (ord2ymd n) = n.
Proof.
  unfold ord2ymd.
  set (n0 := n - 1).
  set (n400 := n0 / 146097). set (r1 := n0 mod 146097).
  set (n100 := r1 / 36524). set (r2 := r1 mod 36524).
  set (n4 := r2 / 1461). set (r3 := r2 mod 1461).
  set (n1 := r3 / 365). set (r4 := r3 mod 365).
  cbv zeta.
  destruct (divmod_spec n0 146097) as [E1 B1]; [lia |].
  destruct (divmod_spec r1 36524) as [E2 B2]; [lia |].
  destruct (divmod_spec r2 1461) as [E3 B3]; [lia |].
  destruct (divmod_spec r3 365) as [E4 B4]; [lia |].
  fold n400 r1 in E1. fold r1 in B1. fold n100 r2 in E2. fold r2 in B2.
  fold n4 r3 in E3. fold r3 in B3. fold n1 r4 in E4. fold r4 in B4.
  assert (Hn0 : n0 = n - 1) by done.
  clearbody n0 n400 r1 n100 r2 n4 r3 n1 r4.
  assert (0 ≤ n100 ≤ 4) by lia.
  assert (0 ≤ n4 ≤ 24) by lia.
  assert (0 ≤ n1 ≤ 4) by lia.
  unfold valid_ymd, ymd2ord, day_of_year.
  destruct (decide (n1 = 4 ∨ n100 = 4)) as [He|He].
  - cbn [fst snd days_in_month days_before_month].
    unfold days_before_year, is_leap.
    assert (r4 = 0) by lia.
    split.
    + split; [lia |]. case_bool_decide; simpl; lia.
    + rewrite bool_decide_eq_true_2 by lia. rewrite andb_true_l.
      case_bool_decide as Hl.
      * Z.div_mod_to_equations. lia.
      * exfalso. apply Hl. Z.div_mod_to_equations. lia.
  - assert (n1 ≤ 3 ∧ n100 ≤ 3) as [? ?] by lia.
    set (y := n400 * 400 + 1 + n100 * 100 + n4 * 4 + n1).
    set (leap := bool_decide (n1 = 3 ∧ (n4 ≠ 24 ∨ n100 = 3))).
    assert (Hleap : is_leap y = leap).
    { unfold is_leap, leap, y. apply bool_decide_ext.
      Z.div_mod_to_equations. lia. }
    assert (Hdby : days_before_year y = n0 - r4).
    { unfold days_before_year, y. Z.div_mod_to_equations. lia. }
    set (month := Z.shiftr (r4 + 50) 5).
    assert (Hmonth : month = (r4 + 50) / 32)
      by (apply Z.shiftr_div_pow2; lia).
    destruct (divmod_spec (r4 + 50) 32) as [Hd ?]; [lia |].
    rewrite <- Hmonth in Hd.
    assert (Hcases : 1 ≤ month ≤ 12) by lia.
    apply month_cases in Hcases.
    clearbody month y. clear Hmonth.
    destruct leap; each_month Hcases;
      cbn -[Z.add Z.sub Z.mul Z.gtb Z.ltb];
      repeat case_decide; try lia;
      cbn [fst snd]; rewrite Hdby, Hleap; closed_arith;
      cbn -[Z.add Z.sub Z.mul] in *;
      repeat case_bool_decide; cbn -[Z.add Z.sub Z.mul] in *; lia.
Qed.

Lemma days_before_year_succ y :
  days_before_year (y + 1)
  = days_before_year y + 365 + (if is_leap y then 1 else 0).
Proof.
  unfold days_before_year, is_leap.
  case_bool_decide; Z.div_mod_to_equations; lia.
Qed.

Lemma days_before_year_mono y1 y2 :
  y1 ≤ y2 → days_before_year y1 ≤ days_before_year y2.
Proof. unfold days_before_year. intros. Z.div_mod_to_equations. lia. Qed.

Lemma day_of_year_bounds t :
  valid_ymd t → 1 ≤ day_of_year t ≤ 365 + (if is_leap t.1.1 then 1 else 0).
Proof.
  destruct t as [[y m] d]. unfold valid_ymd, day_of_year. simpl.
  intros [Hm Hd]. apply month_cases in Hm.
  destruct (is_leap y); each_month Hm; simpl in *; lia.
Qed.

Lemma day_of_year_mono y m1 d1 m2 d2 :
  valid_ymd (y, m1, d1) → valid_ymd (y, m2, d2) →
  m1 < m2 ∨ (m1 = m2 ∧ d1 < d2) →
  day_of_year (y, m1, d1) < day_of_year (y, m2, d2).
Proof.
  unfold valid_ymd, day_of_year. simpl. intros [Hm1 Hd1] [Hm2 Hd2] Hlt.
  apply month_cases in Hm1, Hm2.
  destruct (is_leap y); each_month Hm1; each_month Hm2; simpl in *; lia.
Qed.

Lemma ymd2ord_mono t1 t2 :
  valid_ymd t1 → valid_ymd t2 → ymd_lt t1 t2 → ymd2ord t1 < ymd2ord t2.
Proof.
  intros H1 H2 Hlt. unfold ymd2ord.
  pose proof (day_of_year_bounds t1 H1). pose proof (day_of_year_bounds t2 H2).
  destruct t1 as [[y1 m1] d1], t2 as [[y2 m2] d2].
  unfold ymd_lt in Hlt. simpl in *.
  destruct Hlt as [Hy|[-> Hlt]].
  - pose proof (days_before_year_succ y1).
    pose proof (days_before_year_mono (y1 + 1) y2). lia.
  - pose proof (day_of_year_mono y2 m1 d1 m2 d2 H1 H2 Hlt). lia.
Qed.

Lemma ymd_lt_total t1 t2 : ymd_lt t1 t2 ∨ t1 = t2 ∨ ymd_lt t2 t1.
Proof.
  destruct t1 as [[y1 m1] d1], t2 as [[y2 m2] d2]. unfold ymd_lt. simpl.
  destruct (Z.lt_total y1 y2) as [?|[->|?]]; [lia | | lia].
  destruct (Z.lt_total m1 m2) as [?|[->|?]]; [lia | | lia].
  destruct (Z.lt_total d1 d2) as [?|[->|?]]; [lia | | lia]. auto.
Qed.

(** The day numbers are in the order of the calendar. *)
Lemma ord2ymd_mono a b : a < b ↔ ymd_lt (ord2ymd a) (ord2ymd b).
Proof.
  destruct (ord2ymd_inverse a) as [Hva Ea], (ord2ymd_inverse b) as [Hvb Eb].
  split.
  - intros Hlt.
    destruct (ymd_lt_total (ord2ymd a) (ord2ymd b)) as [?|[E|H]]; [done | |].
    + rewrite E in Ea. lia.
    + pose proof (ymd2ord_mono _ _ Hvb Hva H). lia.
  - intros H. pose proof (ymd2ord_mono _ _ Hva Hvb H). lia.
Qed.

Lemma ord2ymd_day_bounds a :
  1 ≤ (ord2ymd a).1.2 ≤ 12 ∧ 1 ≤ (ord2ymd a).2 ≤ 31.
Proof.
  destruct (ord2ymd_inverse a) as [[Hm Hd] _]. split; [done |].
  destruct (ord2ymd a) as [[y m] d]. simpl in *.
  apply month_cases in Hm.
  destruct (is_leap y); each_month Hm; simpl in *; lia.
Qed.

(** The days whose text has a year of four digits are those from
    1000-01-01 to 9999-12-31. *)
Lemma four_digit_year_iff d : four_digit_year d ↔ first_day ≤ d ≤ max_day.
Proof.
  unfold four_digit_year, first_day, max_day.
  pose proof (ord2ymd_day_bounds d) as [Hm Hd].
  assert (H1 : 364878 ≤ d ↔ ¬ ymd_lt (ord2ymd d) (ord2ymd 364878)).
  { rewrite <- ord2ymd_mono. lia. }
  assert (H2 : d ≤ 3652059 ↔ ¬ ymd_lt (ord2ymd 3652059) (ord2ymd d)).
  { rewrite <- ord2ymd_mono. lia. }
  change (ord2ymd 364878) with (1000, 1, 1) in H1.
  change (ord2ymd 3652059) with (9999, 12, 31) in H2.
  destruct (ord2ymd d) as [[y m] dd]. unfold ymd_lt in *. simpl in *. lia.
Qed.

Lemma four_digit_year_datetime_day d : four_digit_year d → datetime_day d.
Proof.
  rewrite four_digit_year_iff. unfold datetime_day, first_day, min_day. lia.
Qed.

(** *** The texts *)

Lemma append_nil (b : string) : "" +:+ b = b.
Proof. reflexivity. Qed.

Lemma append_cons c (a b : string) : String c a +:+ b = String c (a +:+ b).
Proof. reflexivity. Qed.

Lemma compare_digit a b :
  0 ≤ a ≤ 9 → 0 ≤ b ≤ 9 → Ascii.compare (digit a) (digit b) = (a ?= b).
Proof.
  intros Ha Hb. unfold Ascii.compare, digit.
  rewrite !N_ascii_embedding by lia.
  rewrite Z2N.inj_compare by lia. apply Z.add_compare_mono_l.
Qed.

Lemma compare_cons_digit a b s t :
  0 ≤ a ≤ 9 → 0 ≤ b ≤ 9 →
  String.compare (String (digit a) s) (String (digit b) t)
  = match a ?= b with Eq => String.compare s t | c => c end.
Proof. intros. simpl. by rewrite compare_digit. Qed.

Lemma compare_cons_same c s t :
  String.compare (String c s) (String c t) = String.compare s t.
Proof. simpl. unfold Ascii.compare. by rewrite N.compare_refl. Qed.

(** With four digits for the year, the texts compare as the dates do. *)
Lemma format_ymd_compare t1 t2 :
  1000 ≤ t1.1.1 ≤ 9999 → 1000 ≤ t2.1.1 ≤ 9999 →
  1 ≤ t1.1.2 ≤ 12 → 1 ≤ t1.2 ≤ 31 → 1 ≤ t2.1.2 ≤ 12 → 1 ≤ t2.2 ≤ 31 →
  String.compare (format_ymd t1) (format_ymd t2) = Lt ↔ ymd_lt t1 t2.
Proof.
  destruct t1 as [[y1 m1] d1], t2 as [[y2 m2] d2].
  unfold format_ymd, decimal, two_digits, ymd_lt. simpl.
  intros Hy1 Hy2 Hm1 Hd1 Hm2 Hd2.
  repeat (rewrite decide_False by lia).
  rewrite ?append_cons, ?append_nil.
  rewrite !compare_cons_digit by (Z.div_mod_to_equations; lia).
  rewrite compare_cons_same.
  rewrite !compare_cons_digit by (Z.div_mod_to_equations; lia).
  rewrite compare_cons_same.
  rewrite !compare_cons_digit by (Z.div_mod_to_equations; lia).
  simpl String.compare.
  repeat match goal with
  | |- context [?a ?= ?b] => destruct (Z.compare_spec a b)
  end; split; try done; intros ?; try done;
    try (exfalso; Z.div_mod_to_equations; lia); Z.div_mod_to_equations; lia.
Qed.

Lemma strftime_format d : strftime d = format_ymd (ord2ymd d).
Proof. unfold strftime, format_ymd. by destruct (ord2ymd d) as [[y m] dd]. Qed.

Lemma strftime_compare a b :
  four_digit_year a → four_digit_year b →
  String.compare (strftime a) (strftime b) = Lt ↔ a < b.
Proof.
  intros Ha Hb. rewrite !strftime_format.
  pose proof (ord2ymd_day_bounds a) as [? ?].
  pose proof (ord2ymd_day_bounds b) as [? ?].
  rewrite format_ymd_compare by done. symmetry. apply ord2ymd_mono.
Qed.

(** From the year 1000 on, SQLite's [<] on the texts is the order of the
    days, and so is its [ORDER BY]. *)
Lemma before_iff a b :
  four_digit_year a → four_digit_year b → before a b ↔ a < b.
Proof.
  intros Ha Hb. rewrite <- (strftime_compare a b Ha Hb).
  unfold before, text_lt, String.ltb.
  destruct (String.compare (strftime a) (strftime b)); split; done.
Qed.

Lemma text_le_iff a b :
  four_digit_year a → four_digit_year b →
  String.le (strftime a) (strftime b) ↔ a ≤ b.
Proof.
  intros Ha Hb. pose proof (strftime_compare b a Hb Ha) as H.
  rewrite String.compare_antisym in H.
  unfold String.le, String.leb.
  destruct (String.compare (strftime a) (strftime b)) eqn:E; simpl in *.
  - split; [| done]. intros _. destruct (decide (a ≤ b)); [done |].
    assert (b < a) as Hlt%H by lia. done.
  - split; [| done]. intros _. destruct (decide (a ≤ b)); [done |].
    assert (b < a) as Hlt%H by lia. done.
  - split; [done |]. intros Hle. assert (b < a) by (by apply H). lia.
Qed.

(** ** [borrow_book] *)

(** Closed facts, by evaluation. *)
Ltac by_compute := apply (bool_decide_eq_true_1 _); vm_compute; reflexivity.

(** C2: called with a book id that SQLite holds, [borrow_book] checks the
    book first and the copies second; both failures leave the database as
    it was and have a report of their own.  Otherwise, when the member id
    too is one SQLite holds, the text of today reads back, the day [days]
    after today is a day of [datetime] and the loans table has an id
    left, one loan row is inserted under a new id, with [loan_date = now],
    [due_date = now + days] and no return date, and the book's
    [copies_available] goes down by one.  (Outside these ranges the call
    raises and leaves the database as it was: [borrow_book_overflow_book],
    [borrow_book_raises].) *)
Theorem borrow_book_outcomes (bid mid days : Z) (now : date) (d : database) :
  sqlite_int bid →
  match books d !! bid with
  | None => borrow_book bid mid days now d = (d, Returned BookNotFound)
  | Some b =>
      if decide (copies_available b > 0)
      then
        sqlite_int mid → due_date_defined now days →
        rowids_left 1 (seq_loans d) (loans d) →
        ∃ lid d',
        borrow_book bid mid days now d
          = (d', Returned (LoanCreated lid (now + days)))
        ∧ loans d !! lid = None
        ∧ loans d' = <[lid := {| book_id := bid; member_id := mid;
                                 loan_date := now; due_date := now + days;
                                 return_date := None |}]> (loans d)
        ∧ books d' = <[bid := add_available (-1) b]> (books d)
        ∧ copies_available (add_available (-1) b) = copies_available b - 1
        ∧ members d' = members d
      else borrow_book bid mid days now d = (d, Returned NoAvailableCopies)
  end.
Proof.
  intros Hbid. destruct (books d !! bid) as [b|] eqn:Hb.
  2: { by apply borrow_book_not_found. }
  destruct (decide (copies_available b > 0)) as [Hc|Hc].
  2: { apply (borrow_book_no_copies _ _ _ _ _ b); [done | done | lia]. }
  intros Hmid Hdays Hids. eexists _, _. split.
  { apply (borrow_book_created _ _ _ _ _ b); [done | done | lia | done..]. }
  simpl. split_and!; try done.
  - apply next_rowid_fresh.
  - by apply alter_as_insert.
Qed.

Lemma borrow_book_outcomes_witness :
  sqlite_int 1 ∧ sqlite_int 1 ∧ due_date_defined (new_year + 2) 7
  ∧ rowids_left 1 (seq_loans one_loan) (loans one_loan)
  ∧ ∃ lid d',
      borrow_book 1 1 7 (new_year + 2) one_loan
      = (d', Returned (LoanCreated lid (new_year + 2 + 7)))
      ∧ loans one_loan !! lid = None
      ∧ loans d' !! lid = Some (new_loan 1 1 7 (new_year + 2)).
Proof.
  assert (H1 : sqlite_int 1) by by_compute.
  assert (H2 : due_date_defined (new_year + 2) 7) by by_compute.
  assert (H3 : rowids_left 1 (seq_loans one_loan) (loans one_loan))
    by by_compute.
  split; [exact H1 |]. split; [exact H1 |]. split; [exact H2 |].
  split; [exact H3 |].
  pose proof (borrow_book_outcomes 1 1 7 (new_year + 2) one_loan H1) as H.
  assert (E : books one_loan !! 1
              = Some (add_available (-1)
                        (new_book "Dune" "Frank Herbert" None 2 new_year)))
    by (vm_compute; reflexivity).
  rewrite E in H. revert H. case_decide as Hc; intros H.
  - destruct (H H1 H2 H3) as (lid & d' & Hb & Hfresh & Hl & _).
    exists lid, d'. split_and!; [done | done |].
    rewrite Hl. apply lookup_insert_eq.
  - exfalso. apply Hc. by vm_compute.
Defined.

(** ** Foreign keys *)

(** On a connection that enforces foreign keys the store refuses a loan
    whose book or member is missing. *)
Lemma insert_loan_enforced conn l d :
  foreign_keys conn = true →
  sqlite_int (book_id l) → sqlite_int (member_id l) →
  rowids_left 1 (seq_loans d) (loans d) →
  books d !! book_id l = None ∨ members d !! member_id l = None →
  insert_loan conn l d = Raised (IntegrityError "FOREIGN KEY constraint failed").
Proof.
  intros Hfk H1 H2 H3 Hmiss. unfold insert_loan. unfold_stmt.
  repeat (rewrite decide_True by done; simpl).
  rewrite Hfk. simpl.
  rewrite bool_decide_eq_false_2; [done |].
  intros [[? Hb] [? Hm]]. destruct Hmiss; congruence.
Qed.

(** The book of a loan [borrow_book] creates is there: the function looks
    it up itself. *)
Lemma borrow_book_book_exists bid mid days now d d' lid due :
  borrow_book bid mid days now d = (d', Returned (LoanCreated lid due)) →
  is_Some (books d !! bid) ∧ is_Some (books d' !! bid).
Proof.
  intros H. apply borrow_book_inv in H
    as (_ & [(? & _)|[(b & ? & _)|(b & Hb & _ & _ & _ & _ & _ & ->)]]);
    [done | done |].
  simpl. split; [by eauto |]. apply lookup_alter_is_Some. eauto.
Qed.

(** C3 fails on the member reference: with one book and no member at all,
    [borrow_book(1, 999, 14)] reports a loan created and leaves a loan row
    whose [member_id] resolves to no member. *)
Theorem borrow_book_orphan_member :
  members one_book = ∅ ∧
  ∃ d', borrow_book 1 999 14 new_year one_book
          = (d', Returned (LoanCreated 1 (new_year + 14)))
        ∧ loans d' !! 1 = Some {| book_id := 1; member_id := 999;
                                  loan_date := new_year;
                                  due_date := new_year + 14;
                                  return_date := None |}
        ∧ members d' !! 999 = None.
Proof.
  split; [done |]. eexists. split; [by vm_compute |]. by vm_compute.
Qed.

(** ** [strip] removes the white space at both ends, and nothing else *)






Lemma lstrip_blank s : blank s = true → lstrip s = "".
Proof.
  induction s as [|c s IH]; simpl; [done |].
  intros [Hc Hs]%andb_prop. rewrite Hc. by apply IH.
Qed.

Lemma strip_blank s : blank s = true → strip s = "".
Proof. intros H. unfold strip. by rewrite lstrip_blank. Qed.



(** ** [add_book] and [add_member] *)





(** ** Loan rows stay *)

Lemma effect_keeps_loan now o d d' lid l :
  effect now d o d' → loans d !! lid = Some l →
  loans d' !! lid = Some l
  ∨ (o = ReturnBook lid ∧ return_date l = None
     ∧ loans d' !! lid = Some (set_return_date now l)).
Proof.
  intros Heff. destruct Heff as [| | | | | |lid0 l0 Hl0 Hr0]; intros Hl; simpl;
    try (by left).
  - left. rewrite lookup_insert_ne; [done |].
    intros E. rewrite <- E, next_rowid_fresh in Hl. done.
  - destruct (decide (lid0 = lid)) as [->|Hne].
    + right. assert (l0 = l) as -> by congruence.
      split_and!; [done | done | by rewrite lookup_alter_eq, Hl].
    + left. by rewrite lookup_alter_ne.
Qed.

Lemma effect_delete_keeps_loans now d d' o :
  effect now d o d' → (∃ id, o = DeleteBook id ∨ o = DeleteMember id) →
  loans d' = loans d.
Proof. intros Heff [id [-> | ->]]; by inversion Heff. Qed.

Lemma delete_book_keeps_loans id d : loans (delete_book id d).1 = loans d.
Proof.
  apply (effect_delete_keeps_loans 0 d _ (DeleteBook id)); [| by eauto].
  apply (step_effect 0 (DeleteBook id) d).
Qed.

Lemma delete_member_keeps_loans id d : loans (delete_member id d).1 = loans d.
Proof.
  apply (effect_delete_keeps_loans 0 d _ (DeleteMember id)); [| by eauto].
  apply (step_effect 0 (DeleteMember id) d).
Qed.

Lemma step_keeps_loan now o d lid l :
  loans d !! lid = Some l →
  loans (step now o d) !! lid = Some l
  ∨ (o = ReturnBook lid ∧ return_date l = None
     ∧ loans (step now o d) !! lid = Some (set_return_date now l)).
Proof. apply effect_keeps_loan, step_effect. Qed.

Lemma step_keeps_returned now o d lid l :
  loans d !! lid = Some l → is_Some (return_date l) →
  loans (step now o d) !! lid = Some l.
Proof.
  intros Hl [r Hr].
  destruct (step_keeps_loan now o d lid l Hl) as [?|(_ & Hnone & _)];
    [done | congruence].
Qed.

Lemma run_keeps_returned tr d lid l :
  loans d !! lid = Some l → is_Some (return_date l) →
  loans (run tr d) !! lid = Some l.
Proof.
  revert d. induction tr as [|[now o] tr IH]; intros d Hl Hr; simpl; [done |].
  apply IH; [| done]. by apply step_keeps_returned.
Qed.

Lemma run_keeps_loan_id tr d lid :
  is_Some (loans d !! lid) → is_Some (loans (run tr d) !! lid).
Proof.
  revert d. induction tr as [|[now o] tr IH]; intros d [l Hl]; simpl; [eauto |].
  apply IH.
  destruct (step_keeps_loan now o d lid l Hl) as [?|(_ & _ & ?)]; eauto.
Qed.

(** On a connection that enforces foreign keys, [ON DELETE CASCADE] would
    take the loans of a deleted book away with it. *)
Lemma delete_book_row_enforced conn id d lid l :
  foreign_keys conn = true → sqlite_int id →
  loans d !! lid = Some l → book_id l = id →
  ∃ d', delete_book_row conn id d = Returned (tt, d')
        ∧ loans d' !! lid = None.
Proof.
  intros Hfk Hid Hl Hbid. unfold delete_book_row. unfold_stmt.
  rewrite decide_True by done. simpl. rewrite Hfk.
  eexists. split; [done |]. simpl.
  apply map_lookup_filter_None_2. right. intros l' Hl' Hn. simpl in Hn.
  by simplify_eq.
Qed.

(** C9: no operation deletes a loan row.  A loan row is still there, under
    the same id, after any operation, and unchanged but for the return date
    that [return_book] sets on it; [delete_book] and [delete_member] leave
    the whole loans table as it was, the loans of the deleted row
    included. *)
Theorem loans_never_deleted :
  (∀ now o d lid l, loans d !! lid = Some l →
     loans (step now o d) !! lid = Some l
     ∨ (o = ReturnBook lid ∧ return_date l = None
        ∧ loans (step now o d) !! lid = Some (set_return_date now l)))
  ∧ (∀ tr d lid, is_Some (loans d !! lid) → is_Some (loans (run tr d) !! lid))
  ∧ (∀ id d, loans (delete_book id d).1 = loans d)
  ∧ (∀ id d, loans (delete_member id d).1 = loans d).
Proof.
  split_and!.
  - apply step_keeps_loan.
  - apply run_keeps_loan_id.
  - apply delete_book_keeps_loans.
  - apply delete_member_keeps_loans.
Qed.

Lemma loans_never_deleted_witness :
  books (delete_book 1 returned_loans).1 !! 1 = None
  ∧ members (delete_member 1 returned_loans).1 !! 1 = None
  ∧ loans (delete_book 1 returned_loans).1 = loans returned_loans
  ∧ loans (delete_member 1 returned_loans).1 = loans returned_loans
  ∧ loans returned_loans !! 1
    = Some {| book_id := 1; member_id := 1; loan_date := new_year + 1;
              due_date := new_year + 8; return_date := Some (new_year + 4) |}.
Proof.
  destruct loans_never_deleted as (_ & _ & Hb & Hm).
  split; [by vm_compute |]. split; [by vm_compute |].
  split; [apply Hb |]. split; [apply Hm |]. by vm_compute.
Defined.

(** ** [return_book] *)

Lemma add_available_inverse b : add_available 1 (add_available (-1) b) = b.
Proof.
  destruct b. unfold add_available. simpl. f_equal. lia.
Qed.

Lemma max_rowid_nonneg {A} (t : gmap Z A) : 0 ≤ max_rowid t.
Proof.
  unfold max_rowid. generalize ((map_to_list t).*1). intros l.
  induction l; simpl; lia.
Qed.

Lemma next_rowid_sqlite_int {A} (seq : Z) (t : gmap Z A) :
  rowids_left 1 seq t → sqlite_int (next_rowid seq t).
Proof.
  pose proof (max_rowid_nonneg t).
  unfold rowids_left, sqlite_int, next_rowid. lia.
Qed.

(** C5: when a book has a copy available, [borrow_book] creates a loan, and
    [return_book] on that loan, called next, succeeds and puts
    [copies_available] back to what it was before the loan; the whole books
    table is as it was.  The two ids are 64-bit integers, the loans table
    has an id left, today's text reads back, and the due date is a day of
    [datetime] whose text reads back: a day of the years 1000 to 9999. *)
Theorem borrow_then_return_restores (bid mid days : Z) (now now' : date)
    (d : database) (b : book) :
  books d !! bid = Some b → copies_available b > 0 →
  sqlite_int bid → sqlite_int mid →
  due_date_defined now days → four_digit_year (now + days) →
  rowids_left 1 (seq_loans d) (loans d) →
  ∃ lid d1 d2 r,
    borrow_book bid mid days now d
      = (d1, Returned (LoanCreated lid (now + days)))
    ∧ (∃ b1, books d1 !! bid = Some b1
             ∧ copies_available b1 = copies_available b - 1)
    ∧ return_book lid now' d1 = (d2, Returned r)
    ∧ (r = ReturnedOnTime ∨ r = ReturnedLate (now' - (now + days)))
    ∧ books d2 !! bid = Some b
    ∧ books d2 = books d.
Proof.
  intros Hb Hc Hbid Hmid Hdays Hdue Hids.
  pose proof (next_rowid_fresh (seq_loans d) (loans d)) as Hfresh.
  eexists _, _, _, _. split.
  { apply (borrow_book_created _ _ _ _ _ b); [done | done | lia | done..]. }
  simpl. split.
  { eexists. rewrite lookup_alter_eq, Hb. simpl. split; [done |]. simpl. lia. }
  assert (Hbooks : alter (add_available 1) bid
                     (alter (add_available (-1)) bid (books d)) = books d).
  { rewrite alter_alter_eq. apply alter_id. intros x _. simpl.
    apply add_available_inverse. }
  split.
  { apply (return_book_returned _ _ _ (new_loan bid mid days now));
      [by apply next_rowid_sqlite_int | | done | done].
    simpl. apply lookup_insert_eq. }
  simpl. split.
  { destruct (decide (now' > now + days)); [by right | by left]. }
  rewrite Hbooks. by split.
Qed.

Lemma borrow_then_return_restores_witness :
  books one_book !! 1 = Some (new_book "Dune" "Frank Herbert" None 1 new_year)
  ∧ copies_available (new_book "Dune" "Frank Herbert" None 1 new_year) > 0
  ∧ sqlite_int 1 ∧ sqlite_int 999
  ∧ due_date_defined (new_year + 1) 14 ∧ four_digit_year (new_year + 1 + 14)
  ∧ rowids_left 1 (seq_loans one_book) (loans one_book)
  ∧ ∃ lid d1 d2 r,
    borrow_book 1 999 14 (new_year + 1) one_book
      = (d1, Returned (LoanCreated lid (new_year + 1 + 14)))
    ∧ (∃ b1, books d1 !! 1 = Some b1
             ∧ copies_available b1
               = copies_available
                   (new_book "Dune" "Frank Herbert" None 1 new_year) - 1)
    ∧ return_book lid (new_year + 20) d1 = (d2, Returned r)
    ∧ (r = ReturnedOnTime
       ∨ r = ReturnedLate (new_year + 20 - (new_year + 1 + 14)))
    ∧ books d2 !! 1 = Some (new_book "Dune" "Frank Herbert" None 1 new_year)
    ∧ books d2 = books one_book.
Proof.
  assert (H1 : books one_book !! 1
               = Some (new_book "Dune" "Frank Herbert" None 1 new_year))
    by (vm_compute; reflexivity).
  assert (H2 : copies_available
                 (new_book "Dune" "Frank Herbert" None 1 new_year) > 0)
    by (simpl; lia).
  assert (H3 : sqlite_int 1) by by_compute.
  assert (H4 : sqlite_int 999) by by_compute.
  assert (H5 : due_date_defined (new_year + 1) 14) by by_compute.
  assert (H6 : four_digit_year (new_year + 1 + 14)) by by_compute.
  assert (H7 : rowids_left 1 (seq_loans one_book) (loans one_book))
    by by_compute.
  split; [exact H1 |]. split; [exact H2 |]. split; [exact H3 |].
  split; [exact H4 |]. split; [exact H5 |]. split; [exact H6 |].
  split; [exact H7 |].
  exact (borrow_then_return_restores 1 999 14 (new_year + 1) (new_year + 20)
           one_book _ H1 H2 H3 H4 H5 H6 H7).
Defined.

(** C6: [return_book] on an outstanding loan changes the database once: the
    first call stamps the return date, gives the copy back and reports a
    return; the next call, and every call after any further operations,
    reports "already returned" and leaves the database, and so the loan's
    return date and the book's [copies_available], as it finds it.  The
    loan id is a 64-bit integer and the text of the due date reads back:
    it is a day of the years 1000 to 9999. *)
Theorem return_book_once (lid : Z) (now : date) (d : database) (l : loan) :
  loans d !! lid = Some l → return_date l = None →
  sqlite_int lid → four_digit_year (due_date l) →
  ∃ d1 r,
    return_book lid now d = (d1, Returned r)
    ∧ (r = ReturnedOnTime ∨ r = ReturnedLate (now - due_date l))
    ∧ d1 ≠ d
    ∧ loans d1 = alter (set_return_date now) lid (loans d)
    ∧ books d1 = alter (add_available 1) (book_id l) (books d)
    ∧ members d1 = members d
    ∧ loans d1 !! lid = Some (set_return_date now l)
    ∧ return_book lid now d1 = (d1, Returned AlreadyReturned)
    ∧ ∀ tr now',
        loans (run tr d1) !! lid = Some (set_return_date now l)
        ∧ return_book lid now' (run tr d1)
          = (run tr d1, Returned AlreadyReturned).
Proof.
  intros Hl Hret Hlid Hdue. eexists _, _. split.
  { by apply (return_book_returned _ _ _ l). }
  set (d1 := set_books _ _ _).
  assert (Hl1 : loans d1 !! lid = Some (set_return_date now l)).
  { subst d1. simpl. by rewrite lookup_alter_eq, Hl. }
  split_and!; try done.
  - destruct (decide (now > due_date l)); [by right | by left].
  - intros E. rewrite E, Hl in Hl1. simplify_eq.
    rewrite (f_equal return_date Hl1) in Hret. done.
  - by apply (return_book_already _ _ _ (set_return_date now l) now).
  - intros tr now'.
    assert (Hl2 : loans (run tr d1) !! lid = Some (set_return_date now l)).
    { apply run_keeps_returned; [done | by eexists]. }
    split; [done |].
    by apply (return_book_already _ _ _ (set_return_date now l) now).
Qed.

(** Whatever the loan id, and whatever the first call did, a second
    [return_book] leaves the database as the first left it. *)
Lemma return_book_second_call lid now now' d :
  (return_book lid now' (return_book lid now d).1).1
  = (return_book lid now d).1.
Proof.
  destruct (return_book lid now d) as [d1 [r|e]] eqn:E; simpl.
  - apply return_book_inv in E
      as (Hlid & [(_ & Hl & ->)|[(l & _ & Hl & [r0 Hr] & ->)
                 |(l & Hl & Hr & _ & _ & ->)]]).
    + by rewrite return_book_not_found.
    + by rewrite (return_book_already _ _ _ l r0).
    + rewrite (return_book_already _ _ _ (set_return_date now l) now);
        [done | done | | done].
      simpl. by rewrite lookup_alter_eq, Hl.
  - pose proof E as E'. rolled_back E.
    destruct (return_book lid now' d) as [d2 [r|e2]] eqn:E2; simpl.
    + apply return_book_inv in E2
        as (Hlid & [(_ & _ & ->)|[(l & _ & _ & _ & ->)
                   |(l & Hl & Hr & Hdue & _ & _)]]); [done | done |].
      rewrite (return_book_returned _ _ _ l) in E' by done. done.
    + by rolled_back E2.
Qed.

Lemma return_book_once_witness :
  loans one_loan !! 1 = Some (new_loan 1 1 7 (new_year + 1))
  ∧ return_date (new_loan 1 1 7 (new_year + 1)) = None
  ∧ sqlite_int 1 ∧ four_digit_year (due_date (new_loan 1 1 7 (new_year + 1)))
  ∧ ∃ d1,
    return_book 1 (new_year + 10) one_loan
    = (d1, Returned (ReturnedLate 2))
    ∧ d1 ≠ one_loan
    ∧ return_book 1 (new_year + 10) d1 = (d1, Returned AlreadyReturned)
    ∧ ∀ tr now',
        return_book 1 now' (run tr d1) = (run tr d1, Returned AlreadyReturned).
Proof.
  assert (H1 : loans one_loan !! 1 = Some (new_loan 1 1 7 (new_year + 1)))
    by (vm_compute; reflexivity).
  assert (H2 : sqlite_int 1) by by_compute.
  assert (H3 : four_digit_year (due_date (new_loan 1 1 7 (new_year + 1))))
    by by_compute.
  split; [exact H1 |]. split; [reflexivity |]. split; [exact H2 |].
  split; [exact H3 |].
  destruct (return_book_once 1 (new_year + 10) one_loan _ H1 eq_refl H2 H3)
    as (d1 & r & E & Hr & Hne & _ & _ & _ & _ & Hsecond & Hlater).
  exists d1. split_and!; [| done | done | intros tr now'; apply Hlater].
  rewrite E. f_equal. f_equal.
  assert (Er : (return_book 1 (new_year + 10) one_loan).2
               = Returned (ReturnedLate 2)) by (vm_compute; reflexivity).
  rewrite E in Er. simpl in Er. by simplify_eq.
Defined.

(** ** [delete_book] and [delete_member] *)

Lemma book_on_loan_count id d :
  book_on_loan id d ↔ active_loans_of_book id d ≠ 0%nat.
Proof.
  unfold active_loans_of_book. rewrite count_zero. split.
  - intros (lid & l & Hl & Hid & Hret) H. apply (H lid l Hl). by split.
  - intros H. destruct (decide (book_on_loan id d)) as [|Hn]; [done |].
    exfalso. apply H. intros k l Hl [Hid Hret]. apply Hn.
    exists k, l. done.
Qed.

Lemma member_has_loan_count id d :
  member_has_loan id d ↔ active_loans_of_member id d ≠ 0%nat.
Proof.
  unfold active_loans_of_member. rewrite count_zero. split.
  - intros (lid & l & Hl & Hid & Hret) H. apply (H lid l Hl). by split.
  - intros H. destruct (decide (member_has_loan id d)) as [|Hn]; [done |].
    exfalso. apply H. intros k l Hl [Hid Hret]. apply Hn.
    exists k, l. done.
Qed.

Lemma set_books_same d : set_books (books d) (seq_books d) d = d.
Proof. by destruct d. Qed.

Lemma set_members_same d : set_members (members d) (seq_members d) d = d.
Proof. by destruct d. Qed.

Lemma outstanding_have_book_effect now o d d' :
  outstanding_have_book d → effect now d o d' → outstanding_have_book d'.
Proof.
  intros Ha Heff. destruct Heff; try done; intros lid' l' Hl' Hret'; simpl in *.
  - apply lookup_insert_is_Some'. right. eauto.
  - assert (book_id l' ≠ id).
    { intros Hid. unfold active_loans_of_book in H.
      apply (proj1 (count_zero _ _) H lid' l' Hl'). by split. }
    rewrite lookup_delete_ne by done. eauto.
  - apply lookup_alter_is_Some.
    apply lookup_insert_Some in Hl' as [[<- <-]|[? Hl']]; simpl; eauto.
  - apply lookup_alter_is_Some.
    destruct (decide (lid = lid')) as [<-|Hne].
    + rewrite lookup_alter_eq, H in Hl'. simpl in Hl'. by simplify_eq.
    + rewrite lookup_alter_ne in Hl' by done. eauto.
Qed.

Lemma outstanding_have_book_run tr :
  outstanding_have_book (run tr init_db).
Proof.
  apply (run_invariant outstanding_have_book).
  - apply outstanding_have_book_effect.
  - intros ? ? H. simpl in H. by rewrite lookup_empty in H.
Qed.

(** [borrow_book] does not look the member up, so that a member id
    without a row can have an outstanding loan; [delete_member] then finds
    the loan and reports that it cannot delete. *)
Example delete_member_missing_with_loan :
  members orphan_loan !! 999 = None
  ∧ member_has_loan 999 orphan_loan
  ∧ delete_member 999 orphan_loan
    = (orphan_loan, Returned CannotDeleteMember).
Proof. split; [done |]. split; [by_compute | by vm_compute]. Qed.

(** C7: called with an id that SQLite holds, [delete_book]
    ([delete_member]) reports that it cannot delete and leaves the
    database as it was while a loan of the book (of the member) is
    outstanding; when none is, it removes the row and nothing else; and
    when there was no such row either, the database is as it was and the
    report is the same "deleted (if it existed)".  After any run of the
    program a book id without a row has no outstanding loan, so that
    deleting it is always this silent no-op; and so is deleting a book id
    or a member id without a row in any database in which every loan
    names a book and a member that exist. *)
Theorem delete_guarded_by_loans (id : Z) (d : database) :
  sqlite_int id →
  (book_on_loan id d → delete_book id d = (d, Returned CannotDeleteBook))
  ∧ (¬ book_on_loan id d →
     ∃ d', delete_book id d = (d', Returned BookDeleted)
           ∧ books d' = delete id (books d) ∧ books d' !! id = None
           ∧ members d' = members d ∧ loans d' = loans d
           ∧ (books d !! id = None → d' = d))
  ∧ (member_has_loan id d →
     delete_member id d = (d, Returned CannotDeleteMember))
  ∧ (¬ member_has_loan id d →
     ∃ d', delete_member id d = (d', Returned MemberDeleted)
           ∧ members d' = delete id (members d) ∧ members d' !! id = None
           ∧ books d' = books d ∧ loans d' = loans d
           ∧ (members d !! id = None → d' = d))
  ∧ (∀ tr, books (run tr init_db) !! id = None →
       delete_book id (run tr init_db)
       = (run tr init_db, Returned BookDeleted))
  ∧ (references_resolve d →
     (books d !! id = None → delete_book id d = (d, Returned BookDeleted))
     ∧ (members d !! id = None →
        delete_member id d = (d, Returned MemberDeleted))).
Proof.
  intros Hid.
  assert (Hdel : ∀ d, ¬ book_on_loan id d →
     ∃ d', delete_book id d = (d', Returned BookDeleted)
           ∧ books d' = delete id (books d) ∧ books d' !! id = None
           ∧ members d' = members d ∧ loans d' = loans d
           ∧ (books d !! id = None → d' = d)).
  { intros d0 H. eexists. split.
    { apply delete_book_deleted; [done |].
      destruct (decide (active_loans_of_book id d0 = 0%nat)) as [|Hn];
        [done |].
      by apply book_on_loan_count in Hn. }
    simpl. split_and!; try done.
    + apply lookup_delete_eq.
    + intros Hnone. rewrite delete_id by done. apply set_books_same. }
  assert (Hdelm : ¬ member_has_loan id d →
     ∃ d', delete_member id d = (d', Returned MemberDeleted)
           ∧ members d' = delete id (members d) ∧ members d' !! id = None
           ∧ books d' = books d ∧ loans d' = loans d
           ∧ (members d !! id = None → d' = d)).
  { intros H. eexists. split.
    { apply delete_member_deleted; [done |].
      destruct (decide (active_loans_of_member id d = 0%nat)) as [|Hn];
        [done |].
      by apply member_has_loan_count in Hn. }
    simpl. split_and!; try done.
    + apply lookup_delete_eq.
    + intros Hnone. rewrite delete_id by done. apply set_members_same. }
  split_and!.
  - intros H%book_on_loan_count. by apply delete_book_blocked.
  - apply Hdel.
  - intros H%member_has_loan_count. by apply delete_member_blocked.
  - apply Hdelm.
  - intros tr Hnone. destruct (Hdel (run tr init_db)) as (d' & E & H).
    { intros (lid & l & Hl & Hbid & Hret).
      destruct (outstanding_have_book_run tr lid l Hl Hret) as [b Hb].
      rewrite Hbid in Hb. congruence. }
    rewrite E. f_equal. by apply H.
  - intros Href. split; intros Hnone.
    + destruct (Hdel d) as (d' & E & H).
      { intros (lid & l & Hl & Hbid & Hret).
        destruct (Href lid l Hl) as [[b Hb] _].
        rewrite Hbid in Hb. congruence. }
      rewrite E. f_equal. by apply H.
    + destruct Hdelm as (d' & E & H).
      { intros (lid & l & Hl & Hmid & Hret).
        destruct (Href lid l Hl) as [_ [m Hm]].
        rewrite Hmid in Hm. congruence. }
      rewrite E. f_equal. by apply H.
Qed.

Lemma delete_guarded_by_loans_witness :
  sqlite_int 1 ∧ sqlite_int 7
  ∧ book_on_loan 1 one_loan
  ∧ delete_book 1 one_loan = (one_loan, Returned CannotDeleteBook)
  ∧ member_has_loan 1 one_loan
  ∧ delete_member 1 one_loan = (one_loan, Returned CannotDeleteMember)
  ∧ ¬ book_on_loan 1 returned_loans
  ∧ (∃ d', delete_book 1 returned_loans = (d', Returned BookDeleted)
           ∧ books d' !! 1 = None)
  ∧ ¬ member_has_loan 7 returned_loans
  ∧ delete_member 7 returned_loans = (returned_loans, Returned MemberDeleted).
Proof.
  assert (I1 : sqlite_int 1) by by_compute.
  assert (I7 : sqlite_int 7) by by_compute.
  assert (H1 : book_on_loan 1 one_loan) by by_compute.
  assert (H2 : member_has_loan 1 one_loan) by by_compute.
  assert (H3 : ¬ book_on_loan 1 returned_loans) by by_compute.
  assert (H4 : ¬ member_has_loan 7 returned_loans) by by_compute.
  destruct (delete_guarded_by_loans 1 one_loan I1) as (Hb & _ & Hm & _).
  destruct (delete_guarded_by_loans 1 returned_loans I1) as (_ & Hb' & _).
  destruct (delete_guarded_by_loans 7 returned_loans I7)
    as (_ & _ & _ & Hm' & _).
  split; [exact I1 |]. split; [exact I7 |].
  split; [exact H1 |]. split; [exact (Hb H1) |].
  split; [exact H2 |]. split; [exact (Hm H2) |].
  split; [exact H3 |]. split.
  { destruct (Hb' H3) as (d' & E & _ & Hnone & _). by exists d'. }
  split; [exact H4 |].
  destruct (Hm' H4) as (d' & E & _ & _ & _ & _ & Hsame).
  rewrite E. f_equal. apply Hsame. by vm_compute.
Defined.

(** ** [list_overdue] *)

Lemma list_overdue_perm now d : list_overdue now d ≡ₚ overdue_rows now d.
Proof. apply merge_sort_Permutation. Qed.

Lemma join_loan_Some d kv r :
  join_loan d kv = Some r ↔
  ∃ b m, books d !! book_id kv.2 = Some b
         ∧ members d !! member_id kv.2 = Some m
         ∧ r = {| row_id := kv.1; row_loan := kv.2;
                  book_title := title b; member_name := name m |}.
Proof.
  unfold join_loan.
  destruct (books d !! book_id kv.2) as [b|],
           (members d !! member_id kv.2) as [m|]; split;
    try (intros E; by simplify_eq; eauto);
    try (intros (? & ? & ? & ? & ?); by simplify_eq).
Qed.

Lemma elem_of_list_overdue now d r :
  r ∈ list_overdue now d ↔
  ∃ l b m, loans d !! row_id r = Some l
           ∧ return_date l = None ∧ before (due_date l) now
           ∧ books d !! book_id l = Some b
           ∧ members d !! member_id l = Some m
           ∧ r = {| row_id := row_id r; row_loan := l;
                    book_title := title b; member_name := name m |}.
Proof.
  rewrite list_overdue_perm. unfold overdue_rows.
  rewrite list_elem_of_omap. split.
  - intros ([lid l] & [[Hret Hdue] Hin]%list_elem_of_filter & Hjoin).
    apply elem_of_map_to_list in Hin.
    apply join_loan_Some in Hjoin as (b & m & Hb & Hm & ->).
    simpl in *. by exists l, b, m.
  - intros (l & b & m & Hl & Hret & Hdue & Hb & Hm & E).
    exists (row_id r, l). split.
    + apply list_elem_of_filter. split; [by split |].
      by apply elem_of_map_to_list.
    + apply join_loan_Some. by exists b, m.
Qed.

Lemma omap_join_ids d (l : list (Z * loan)) :
  row_id <$> omap (join_loan d) l `sublist_of` l.*1.
Proof.
  induction l as [|kv l IH]; simpl; [done |].
  destruct (join_loan d kv) as [r|] eqn:E.
  - apply join_loan_Some in E as (b & m & _ & _ & ->). simpl.
    by apply sublist_skip.
  - by apply sublist_cons.
Qed.

Lemma list_overdue_ids_NoDup now d : NoDup (row_id <$> list_overdue now d).
Proof.
  rewrite list_overdue_perm. unfold overdue_rows.
  eapply sublist_NoDup; [| apply omap_join_ids].
  eapply sublist_NoDup; [apply (NoDup_fst_map_to_list (loans d)) |].
  apply fmap_sublist, sublist_filter.
Qed.

Lemma StronglySorted_weaken {A} (R S : relation A) (l : list A) :
  (∀ x y, R x y → S x y) → StronglySorted R l → StronglySorted S l.
Proof.
  intros HRS. induction 1 as [|x l _ IH Hall]; constructor; [done |].
  eapply Forall_impl; [exact Hall | by auto].
Qed.

Lemma then_by_id_weaken (R : relation loan_row) l :
  StronglySorted (then_by_id R) l → StronglySorted R l.
Proof. apply StronglySorted_weaken. by intros x y [? _]. Qed.

(** What [list_overdue] returns on any database: in ascending order of the
    texts of the due dates (and of the ids where these are the same) and
    each once, the loans that have no return date, whose due date is
    before today's as a text, and whose book and member rows exist, each
    with the title of its book and the name of its member. *)
Theorem list_overdue_exact (now : date) (d : database) :
  StronglySorted (then_by_id by_due_date) (list_overdue now d)
  ∧ NoDup (row_id <$> list_overdue now d)
  ∧ ∀ r, r ∈ list_overdue now d ↔
      ∃ l b m, loans d !! row_id r = Some l
               ∧ return_date l = None ∧ before (due_date l) now
               ∧ books d !! book_id l = Some b
               ∧ members d !! member_id l = Some m
               ∧ r = {| row_id := row_id r; row_loan := l;
                        book_title := title b; member_name := name m |}.
Proof.
  split_and!.
  - apply (StronglySorted_merge_sort (then_by_id by_due_date)).
  - apply list_overdue_ids_NoDup.
  - apply elem_of_list_overdue.
Qed.

(** With the dates in the years 1000 to 9999, the list is in ascending
    order of due date. *)
Lemma list_overdue_sorted now d :
  due_dates_four_digit d →
  StronglySorted (λ r1 r2, due_date (row_loan r1) ≤ due_date (row_loan r2))
    (list_overdue now d).
Proof.
  intros Hdue.
  assert (Hall : Forall (λ r, four_digit_year (due_date (row_loan r)))
                   (list_overdue now d)).
  { apply Forall_forall. intros r Hr.
    apply elem_of_list_overdue in Hr as (l & b & m & Hl & _ & _ & _ & _ & ->).
    simpl. by apply (Hdue (row_id r)). }
  pose proof (then_by_id_weaken _ _ (proj1 (list_overdue_exact now d))) as Hs.
  induction Hs as [|r l _ IH Hr]; [constructor |].
  apply Forall_cons in Hall as [Hr4 Hl4]. constructor; [by apply IH |].
  rewrite Forall_forall in Hr, Hl4. apply Forall_forall. intros r' Hr'.
  apply text_le_iff; [done | by apply Hl4 | by apply Hr].
Qed.

(** Where every reference resolves and the dates are in the years 1000 to
    9999, the list is complete. *)
Lemma list_overdue_complete now d :
  references_resolve d → due_dates_four_digit d → four_digit_year now →
  lists_all_overdue now d.
Proof.
  intros Href Hfour Hnow lid l Hl Hret Hdue.
  destruct (Href lid l Hl) as [[b Hb] [m Hm]].
  exists {| row_id := lid; row_loan := l;
            book_title := title b; member_name := name m |}.
  split; [| done]. apply elem_of_list_overdue. exists l, b, m.
  split_and!; try done. apply before_iff; [by apply (Hfour lid) | done..].
Qed.

(** C8 fails where a loan's member is missing: after one [add_book] and
    [borrow_book(1, 999, 7)], loan 1 is outstanding and past its due date
    a hundred days later, and [stats] counts it as overdue, but the join
    of [list_overdue] drops it and the list is empty. *)
Theorem list_overdue_misses_orphan :
  loans orphan_loan !! 1 = Some (new_loan 1 999 7 (new_year + 1))
  ∧ stats (new_year + 100) orphan_loan = (1%nat, 0%nat, 1%nat, 1%nat)
  ∧ list_overdue (new_year + 100) orphan_loan = []
  ∧ ¬ lists_all_overdue (new_year + 100) orphan_loan.
Proof.
  assert (H1 : loans orphan_loan !! 1 = Some (new_loan 1 999 7 (new_year + 1)))
    by (by vm_compute).
  assert (H2 : list_overdue (new_year + 100) orphan_loan = [])
    by (by vm_compute).
  split; [done |]. split; [by vm_compute |]. split; [done |].
  intros H. destruct (H 1 _ H1) as (r & Hr & _); [done | simpl; lia |].
  rewrite H2 in Hr. by apply elem_of_nil in Hr.
Qed.

(** * Further properties *)

(** ** [input_int] *)

Lemma input_int_cons_rejected lo hi line lines :
  asked_again lo hi line → input_int lo hi (line :: lines) = input_int lo hi lines.
Proof.
  destruct line as [v|]; simpl; [| done]. unfold in_bounds. intros Hrej.
  destruct lo as [m|], hi as [m'|]; simpl;
    repeat match goal with
    | |- context [?a <? ?b] => destruct (Z.ltb_spec a b)
    | |- context [?a >? ?b] => rewrite (Z.gtb_ltb a b)
    end; simpl; try done; exfalso; apply Hrej; lia.
Qed.

Lemma input_int_cons_accepted lo hi v lines :
  in_bounds lo hi v → input_int lo hi (Some v :: lines) = Some (v, lines).
Proof.
  unfold in_bounds. intros [Hlo Hhi]. simpl.
  destruct lo as [m|], hi as [m'|]; simpl;
    repeat match goal with
    | |- context [?a <? ?b] => destruct (Z.ltb_spec a b)
    | |- context [?a >? ?b] => rewrite (Z.gtb_ltb a b)
    end; simpl; try done; lia.
Qed.

Lemma input_int_characterised (lo hi : option Z) (lines : list (option Z)) :
  (∀ val rest,
     input_int lo hi lines = Some (val, rest) ↔
     ∃ skipped, lines = (skipped ++ Some val :: rest)%list
                ∧ Forall (asked_again lo hi) skipped
                ∧ in_bounds lo hi val)
  ∧ (input_int lo hi lines = None ↔ Forall (asked_again lo hi) lines).
Proof.
  induction lines as [|line lines [IH1 IH2]].
  - split.
    + intros val rest. split; [done |].
      intros (skipped & E & _). by destruct skipped.
    + done.
  - assert (Hcase : asked_again lo hi line
                    ∨ ∃ v, line = Some v ∧ in_bounds lo hi v).
    { destruct line as [v|]; simpl; [| by left].
      destruct (decide (in_bounds lo hi v)); [right; eauto | by left]. }
    destruct Hcase as [Hrej|(v & -> & Hacc)].
    + rewrite (input_int_cons_rejected lo hi line lines Hrej). split.
      * intros val rest. rewrite IH1. split.
        -- intros (skipped & -> & Hsk & Hin).
           exists (line :: skipped). split_and!; [done | by constructor | done].
        -- intros (skipped & E & Hsk & Hin).
           destruct skipped as [|l0 skipped]; simpl in E; simplify_eq.
           { exfalso. by apply Hrej. }
           exists skipped. split_and!; [done | by inversion Hsk | done].
      * rewrite IH2. split; [by constructor | by inversion 1].
    + rewrite (input_int_cons_accepted lo hi v lines Hacc). split.
      * intros val rest. split.
        -- intros E. simplify_eq. by exists [].
        -- intros (skipped & E & Hsk & Hin).
           destruct skipped as [|l0 skipped]; simpl in E; simplify_eq; [done |].
           inversion Hsk as [|? ? Hrej _]. exfalso. by apply Hrej.
      * split; [done |]. inversion 1 as [|? ? Hrej _]. exfalso. by apply Hrej.
Qed.

(** X1: [input_int] returns the first line that reads as a number within
    the bounds, together with the lines after it; every line before it
    was not a number or out of bounds.  It is still asking when the lines
    run out exactly when no line is such a number. *)
Theorem input_int_first_in_bounds (lo hi : option Z) (lines : list (option Z)) :
  (∀ val rest,
     input_int lo hi lines = Some (val, rest) ↔
     ∃ skipped, lines = (skipped ++ Some val :: rest)%list
                ∧ Forall (asked_again lo hi) skipped
                ∧ in_bounds lo hi val)
  ∧ (input_int lo hi lines = None ↔ Forall (asked_again lo hi) lines).
Proof. apply input_int_characterised. Qed.

(** X2: the "default 14" of the loan-duration prompt is never taken: the
    prompt hands on the first number of at least 1 that is typed, a
    number that is not 0, and asks again after anything else. *)
Theorem input_loan_duration_no_default (lines : list (option Z)) :
  input_loan_duration lines = input_int (Some 1) None lines
  ∧ ∀ days rest, input_loan_duration lines = Some (days, rest) → 1 ≤ days.
Proof.
  unfold input_loan_duration.
  destruct (input_int (Some 1) None lines) as [[val rest]|] eqn:E; [| done].
  apply input_int_at_least in E.
  rewrite decide_False by lia. split; [done |].
  intros ? ? ?. by simplify_eq.
Qed.

Lemma input_loan_duration_no_default_witness :
  input_loan_duration [None; Some 0; Some 21; Some 3]
  = Some (21, [Some 3]) ∧ 1 ≤ 21.
Proof.
  destruct (input_loan_duration_no_default [None; Some 0; Some 21; Some 3])
    as [E H].
  split; [by vm_compute | apply (H 21 [Some 3]); by vm_compute].
Defined.

Lemma lookup_alter_available n k (t : gmap Z book) j b' :
  alter (add_available n) k t !! j = Some b' →
  ∃ b, t !! j = Some b ∧ isbn b' = isbn b ∧ copies_total b' = copies_total b.
Proof.
  rewrite lookup_alter. intros E. case_decide; [| by eauto].
  apply fmap_Some in E as (b & Hb & ->). subst. by exists b.
Qed.

(** ** Row ids are given once *)

Lemma ids_counted_effect now o d d' :
  ids_counted d → effect now d o d' →
  ids_counted d' ∧ seq_books d ≤ seq_books d' ∧ seq_members d ≤ seq_members d'.
Proof.
  intros (Hb & Hm & Hl) Heff.
  pose proof (next_rowid_above (seq_books d) (books d)).
  pose proof (next_rowid_above (seq_members d) (members d)).
  pose proof (next_rowid_above (seq_loans d) (loans d)).
  destruct Heff; (split; [split_and! | simpl; lia]); simpl; try done;
    intros k;
    rewrite ?lookup_insert_is_Some', ?lookup_alter_is_Some;
    try (intros [->|Hk]; [lia |]);
    try (intros [_ Hk]%lookup_delete_is_Some);
    try intros Hk;
    try (specialize (Hb k Hk)); try (specialize (Hm k Hk));
    try (specialize (Hl k Hk)); lia.
Qed.

Lemma ids_counted_init : ids_counted init_db.
Proof. split_and!; intros k [? Hk]; simpl in Hk; by rewrite lookup_empty in Hk. Qed.

Lemma ids_counted_run tr d :
  ids_counted d →
  ids_counted (run tr d)
  ∧ seq_books d ≤ seq_books (run tr d)
  ∧ seq_members d ≤ seq_members (run tr d).
Proof.
  revert d. induction tr as [|[now o] tr IH]; intros d Hd; simpl.
  { split_and!; [done | lia | lia]. }
  destruct (ids_counted_effect now o d _ Hd (step_effect now o d))
    as (Hd' & ? & ?).
  destruct (IH _ Hd') as (? & ? & ?). split_and!; [done | lia | lia].
Qed.

(** X3: an id is given once.  The id [add_book] returns is above every id
    a book has had at any earlier point of the run, deleted since or not;
    and the same for [add_member]. *)
Theorem row_ids_never_reused (tr1 tr2 : list (date * op)) (id : Z) :
  (is_Some (books (run tr1 init_db) !! id) →
   ∀ t a i copies now d' id',
     add_book t a i copies now (run tr2 (run tr1 init_db))
       = (d', Returned id') → id < id')
  ∧ (is_Some (members (run tr1 init_db) !! id) →
     ∀ n e p now d' id',
       add_member n e p now (run tr2 (run tr1 init_db))
         = (d', Returned id') → id < id').
Proof.
  destruct (ids_counted_run tr1 init_db ids_counted_init)
    as ((Hb & Hm & _) & _ & _).
  destruct (ids_counted_run tr2 (run tr1 init_db)) as (_ & Hsb & Hsm).
  { apply ids_counted_run, ids_counted_init. }
  set (d := run tr2 (run tr1 init_db)) in *. split.
  - intros Hid t a i copies now d' id' E. specialize (Hb id Hid).
    apply add_book_inv in E as (_ & _ & _ & -> & _).
    pose proof (next_rowid_above (seq_books d) (books d)). lia.
  - intros Hid n e p now d' id' E. specialize (Hm id Hid).
    apply add_member_inv in E as (_ & _ & -> & _).
    pose proof (next_rowid_above (seq_members d) (members d)). lia.
Qed.

Lemma row_ids_never_reused_witness :
  is_Some (books (run [(new_year, AddBook "Dune" "Frank Herbert" None 1)]
                    init_db) !! 1)
  ∧ ∃ d', add_book "Emma" "Jane Austen" None 1 (new_year + 2)
            (run [(new_year + 1, DeleteBook 1)]
               (run [(new_year, AddBook "Dune" "Frank Herbert" None 1)]
                  init_db))
          = (d', Returned 2) ∧ 1 < 2.
Proof.
  assert (H1 : is_Some (books (run [(new_year,
                                     AddBook "Dune" "Frank Herbert" None 1)]
                                 init_db) !! 1)) by (by vm_compute; eexists).
  split; [exact H1 |]. eexists.
  assert (E : add_book "Emma" "Jane Austen" None 1 (new_year + 2)
            (run [(new_year + 1, DeleteBook 1)]
               (run [(new_year, AddBook "Dune" "Frank Herbert" None 1)]
                  init_db))
          = (_, Returned 2)) by (vm_compute; reflexivity).
  split; [exact E |].
  exact (proj1 (row_ids_never_reused
                  [(new_year, AddBook "Dune" "Frank Herbert" None 1)]
                  [(new_year + 1, DeleteBook 1)] 1) H1 _ _ _ _ _ _ _ E).
Defined.

(** ** The UNIQUE columns *)

Lemma isbn_unique_effect now o d d' :
  isbn_unique d → effect now d o d' → isbn_unique d'.
Proof.
  intros Hu Heff. destruct Heff; try done; intros id1 id2 b1 b2 s; simpl.
  - pose proof (next_rowid_fresh (seq_books d) (books d)) as Hfresh.
    intros [[<- <-]|[? H1]]%lookup_insert_Some
           [[<- <-]|[? H2]]%lookup_insert_Some E1 E2; simpl in *;
      [done | | | by eapply Hu].
    + exfalso. apply H. rewrite E1. by exists id2, b2.
    + exfalso. apply H. rewrite E2. by exists id1, b1.
  - intros [_ H1]%lookup_delete_Some [_ H2]%lookup_delete_Some. by apply Hu.
  - intros (b1' & H1 & E1 & _)%lookup_alter_available
           (b2' & H2 & E2 & _)%lookup_alter_available.
    rewrite E1, E2. by apply Hu.
  - intros (b1' & H1 & E1 & _)%lookup_alter_available
           (b2' & H2 & E2 & _)%lookup_alter_available.
    rewrite E1, E2. by apply Hu.
Qed.

Lemma email_unique_effect now o d d' :
  email_unique d → effect now d o d' → email_unique d'.
Proof.
  intros Hu Heff. destruct Heff; try done; intros id1 id2 m1 m2 s; simpl.
  - pose proof (next_rowid_fresh (seq_members d) (members d)) as Hfresh.
    intros [[<- <-]|[? H1]]%lookup_insert_Some
           [[<- <-]|[? H2]]%lookup_insert_Some E1 E2; simpl in *;
      [done | | | by eapply Hu].
    + exfalso. apply H. rewrite E1. by exists id2, m2.
    + exfalso. apply H. rewrite E2. by exists id1, m1.
  - intros [_ H1]%lookup_delete_Some [_ H2]%lookup_delete_Some. by apply Hu.
Qed.

(** X4: after every run, no two books have the same isbn and no two
    members the same e-mail address (rows without one aside). *)
Theorem unique_columns_kept (tr : list (date * op)) :
  isbn_unique (run tr init_db) ∧ email_unique (run tr init_db).
Proof.
  split.
  - apply (run_invariant isbn_unique); [apply isbn_unique_effect |].
    intros ? ? ? ? ? H. simpl in H. by rewrite lookup_empty in H.
  - apply (run_invariant email_unique); [apply email_unique_effect |].
    intros ? ? ? ? ? H. simpl in H. by rewrite lookup_empty in H.
Qed.

Lemma strip_if_blank s : s ≠ "" → blank s = true → strip_if (Some s) = Some "".
Proof.
  intros Hne Hb. simpl. rewrite decide_False by done. by rewrite strip_blank.
Qed.


(** The same two calls with a number of copies that is too large for the
    second: [OverflowError], whatever the isbn. *)
Lemma add_book_overflow_before_isbn t1 a1 t2 a2 i1 i2 c1 c2 now1 now2 d d1 id :
  add_book t1 a1 i1 c1 now1 d = (d1, Returned id) → ¬ sqlite_int c2 →
  add_book t2 a2 i2 c2 now2 d1 = (d1, Raised OverflowError).
Proof. intros _ Hc2. by apply add_book_overflow. Qed.


(** ** Copies out and outstanding loans *)

(** X6: after every run, whatever the arguments of the calls, the book of
    every outstanding loan is still in the books table: on the book side
    the program keeps by itself the reference the store does not check. *)
Theorem outstanding_loan_book_exists (tr : list (date * op)) :
  outstanding_have_book (run tr init_db).
Proof. apply outstanding_have_book_run. Qed.

(** X7: after every run in which no book is added with a negative count,
    the copies of a book that are not available are as many as its
    outstanding loans. *)
Theorem copies_out_are_outstanding_loans (tr : list (date * op)) (id : Z)
    (b : book) :
  Forall (λ x, admissible x.2) tr →
  books (run tr init_db) !! id = Some b →
  copies_total b - copies_available b
  = Z.of_nat (active_loans_of_book id (run tr init_db)).
Proof.
  intros Htr Hb.
  destruct (consistent_run tr init_db Htr consistent_init) as [Hc _].
  destruct (Hc id b Hb). lia.
Qed.

Lemma copies_out_are_outstanding_loans_witness :
  Forall (λ x, admissible x.2) sample_run
  ∧ books (run sample_run init_db) !! 1
    = Some {| title := "Dune"; author := "Frank Herbert"; isbn := None;
              copies_total := 2; copies_available := 1;
              created_at := new_year |}
  ∧ 2 - 1 = Z.of_nat (active_loans_of_book 1 (run sample_run init_db)).
Proof.
  assert (H : Forall (λ x : date * op, admissible x.2) sample_run).
  { unfold sample_run. repeat constructor; simpl; lia. }
  assert (Hb : books (run sample_run init_db) !! 1
    = Some {| title := "Dune"; author := "Frank Herbert"; isbn := None;
              copies_total := 2; copies_available := 1;
              created_at := new_year |})
    by (vm_compute; reflexivity).
  split; [exact H |]. split; [exact Hb |].
  exact (copies_out_are_outstanding_loans sample_run 1 _ H Hb).
Defined.

(** ** [list_loans] *)

Lemma elem_of_joined d (P : Z * loan → Prop) `{!∀ kv, Decision (P kv)} r :
  r ∈ omap (join_loan d) (filter P (map_to_list (loans d))) ↔
  ∃ l, loans d !! row_id r = Some l ∧ P (row_id r, l)
       ∧ row_of_loan d (row_id r) l r.
Proof.
  rewrite list_elem_of_omap. split.
  - intros ([lid l] & [HP Hin]%list_elem_of_filter & Hjoin).
    apply elem_of_map_to_list in Hin.
    apply join_loan_Some in Hjoin as (b & m & Hb & Hm & ->).
    simpl in *. exists l. split_and!; [done | done |]. by exists b, m.
  - intros (l & Hl & HP & b & m & Hb & Hm & E).
    exists (row_id r, l). split.
    + apply list_elem_of_filter. split; [done |].
      by apply elem_of_map_to_list.
    + apply join_loan_Some. by exists b, m.
Qed.

Lemma joined_ids_NoDup d (l : list (Z * loan)) :
  NoDup l.*1 → NoDup (row_id <$> omap (join_loan d) l).
Proof. intros H. eapply sublist_NoDup; [done | apply omap_join_ids]. Qed.

Lemma filter_all {A} (l : list A) : filter (λ _, True) l = l.
Proof.
  induction l as [|x l IH]; [done |].
  rewrite filter_cons_True by done. by rewrite IH.
Qed.

Lemma elem_of_list_loans a d r :
  r ∈ list_loans a d ↔
  ∃ l, loans d !! row_id r = Some l
       ∧ (a = true → return_date l = None)
       ∧ row_of_loan d (row_id r) l r.
Proof.
  unfold list_loans. destruct a.
  - rewrite merge_sort_Permutation, elem_of_joined. unfold outstanding. simpl.
    split; intros (l & ? & ? & ?); exists l; split_and!; auto.
  - rewrite merge_sort_Permutation.
    rewrite <- (filter_all (map_to_list (loans d))), elem_of_joined.
    split; intros (l & ? & ? & ?); exists l; split_and!; auto. done.
Qed.

(** X8: [list_loans] lists each loan whose book and member rows exist
    once, and no other row: all of them, or with [active_only] those
    without a return date.  With [active_only] the list is in ascending
    order of due date; without, every outstanding loan comes before every
    returned one, and each of the two groups is in ascending order of due
    date.  The due dates are in the order of their texts, and rows that
    this order leaves equal are in the order of their ids. *)
Theorem list_loans_exact (a : bool) (d : database) :
  (∀ r, r ∈ list_loans a d ↔
     ∃ l, loans d !! row_id r = Some l
          ∧ (a = true → return_date l = None)
          ∧ row_of_loan d (row_id r) l r)
  ∧ NoDup (row_id <$> list_loans a d)
  ∧ StronglySorted
      (if a then by_due_date else by_returned_then_due) (list_loans a d)
  ∧ StronglySorted
      (then_by_id (if a then by_due_date else by_returned_then_due))
      (list_loans a d).
Proof.
  assert (Hsorted : StronglySorted
      (then_by_id (if a then by_due_date else by_returned_then_due))
      (list_loans a d)).
  { unfold list_loans. destruct a; apply StronglySorted_merge_sort; apply _. }
  split_and!.
  - apply elem_of_list_loans.
  - unfold list_loans. destruct a; rewrite merge_sort_Permutation;
      apply joined_ids_NoDup.
    + eapply sublist_NoDup; [apply (NoDup_fst_map_to_list (loans d)) |].
      apply fmap_sublist, sublist_filter.
    + apply NoDup_fst_map_to_list.
  - by apply then_by_id_weaken.
  - done.
Qed.

(** X9: the overdue list is the part of the list of outstanding loans
    that is due before today, and the list of outstanding loans is part
    of the list of all loans. *)
Theorem list_overdue_within_list_loans (now : date) (d : database)
    (r : loan_row) :
  (r ∈ list_overdue now d ↔
   r ∈ list_loans true d ∧ before (due_date (row_loan r)) now)
  ∧ (r ∈ list_loans true d ↔
     r ∈ list_loans false d ∧ return_date (row_loan r) = None).
Proof.
  rewrite elem_of_list_overdue, !elem_of_list_loans. split; split.
  - intros (l & b & m & Hl & Hr & Hdue & Hb & Hm & E).
    assert (row_loan r = l) as Hrl by (by rewrite E).
    rewrite Hrl. split; [| done]. exists l. split_and!; [done | done |].
    by exists b, m.
  - intros [(l & Hl & Hr & b & m & Hb & Hm & E) Hdue].
    assert (row_loan r = l) as Hrl by (by rewrite E).
    rewrite Hrl in Hdue. exists l, b, m. split_and!; auto.
  - intros (l & Hl & Hr & Hrow). split.
    + exists l. split_and!; auto.
    + destruct Hrow as (b & m & _ & _ & E). rewrite E. simpl. auto.
  - intros [(l & Hl & _ & Hrow) Hr]. exists l. split_and!; auto.
    intros _. destruct Hrow as (b & m & _ & _ & E). by rewrite E in Hr.
Qed.

(** X10: when [delete_book] deletes a book, the loans of the book stay in
    the loans table, but neither list of loans shows them any more; and
    the same for [delete_member] and the loans of the member. *)
Theorem deleted_rows_leave_the_lists (id : Z) (d d' : database) (a : bool)
    (r : loan_row) :
  (delete_book id d = (d', Returned BookDeleted) →
   loans d' = loans d
   ∧ (r ∈ list_loans a d' → book_id (row_loan r) ≠ id))
  ∧ (delete_member id d = (d', Returned MemberDeleted) →
     loans d' = loans d
     ∧ (r ∈ list_loans a d' → member_id (row_loan r) ≠ id)).
Proof.
  split; intros Hdel.
  - split; [by rewrite <- (delete_book_keeps_loans id d), Hdel |].
    apply delete_book_inv in Hdel as (_ & [(? & _)|(_ & _ & ->)]); [done |].
    intros (l & _ & _ & b & m & Hb & _ & Er)%elem_of_list_loans Hid.
    rewrite Er in Hid. simpl in *. rewrite Hid, lookup_delete_eq in Hb. done.
  - split; [by rewrite <- (delete_member_keeps_loans id d), Hdel |].
    apply delete_member_inv in Hdel as (_ & [(? & _)|(_ & _ & ->)]); [done |].
    intros (l & _ & _ & b & m & _ & Hm & Er)%elem_of_list_loans Hid.
    rewrite Er in Hid. simpl in *. rewrite Hid, lookup_delete_eq in Hm. done.
Qed.

Lemma deleted_rows_leave_the_lists_witness :
  delete_book 1 returned_loans
  = ((delete_book 1 returned_loans).1, Returned BookDeleted)
  ∧ loans (delete_book 1 returned_loans).1 = loans returned_loans
  ∧ length (list_loans false returned_loans) = 1%nat
  ∧ list_loans false (delete_book 1 returned_loans).1 = [].
Proof.
  assert (E : delete_book 1 returned_loans
              = ((delete_book 1 returned_loans).1, Returned BookDeleted))
    by (vm_compute; reflexivity).
  split; [exact E |]. split.
  - exact (proj1 (proj1 (deleted_rows_leave_the_lists 1 returned_loans _ false
                           (LoanRow 0 (new_loan 0 0 0 0) "" "")) E)).
  - split; vm_compute; reflexivity.
Defined.

(** ** [stats] *)

Lemma map_to_list_filter_perm {A} (P : Z * A → Prop) `{!∀ x, Decision (P x)}
    (t : gmap Z A) :
  map_to_list (filter P t) ≡ₚ filter P (map_to_list t).
Proof.
  apply NoDup_Permutation.
  - apply NoDup_map_to_list.
  - apply NoDup_filter, NoDup_map_to_list.
  - intros [k x]. rewrite elem_of_map_to_list, map_lookup_filter_Some.
    rewrite list_elem_of_filter, elem_of_map_to_list. tauto.
Qed.

Lemma size_filter_list {A} (P : Z * A → Prop) `{!∀ x, Decision (P x)}
    (t : gmap Z A) :
  size (filter P t) = length (filter P (map_to_list t)).
Proof. by rewrite <- length_map_to_list, map_to_list_filter_perm. Qed.

Lemma length_omap_le {A B} (f : A → option B) (l : list A) :
  (length (omap f l) ≤ length l)%nat.
Proof.
  induction l as [|x l IH]; csimpl; [done |]. destruct (f x); simpl; lia.
Qed.

Lemma length_omap_total {A B} (f : A → option B) (l : list A) :
  (∀ x, x ∈ l → is_Some (f x)) → length (omap f l) = length l.
Proof.
  induction l as [|x l IH]; csimpl; [done |]. intros H.
  destruct (H x) as [y ->]; [by left |]. simpl. f_equal. apply IH.
  intros z Hz. apply H. by right.
Qed.

Lemma size_filter_mono {A} (P Q : Z * A → Prop)
    `{!∀ x, Decision (P x), !∀ x, Decision (Q x)} (t : gmap Z A) :
  (∀ kv, P kv → Q kv) → (size (filter P t) ≤ size (filter Q t))%nat.
Proof.
  intros HPQ. apply map_subseteq_size, map_subseteq_spec. intros k x.
  rewrite !map_lookup_filter_Some. intros [? ?]. split; [done | by apply HPQ].
Qed.

Lemma join_loan_total d kv :
  references_resolve d → kv ∈ map_to_list (loans d) → is_Some (join_loan d kv).
Proof.
  intros Href Hin. destruct kv as [lid l]. apply elem_of_map_to_list in Hin.
  destruct (Href lid l Hin) as [[b Hb] [m Hm]].
  unfold join_loan. simpl. rewrite Hb, Hm. eauto.
Qed.

(** X11: in what [stats] returns, the overdue loans are at most the
    outstanding loans, and these at most the rows of the loans table.  The
    list of overdue loans and the list of outstanding loans are never
    longer than the two counts, and exactly as long on a database in which
    the book and the member of every loan exist. *)
Theorem stats_and_lists (now : date) (d : database) :
  let '(n_books, n_members, n_active, n_overdue) := stats now d in
  (n_overdue ≤ n_active)%nat ∧ (n_active ≤ size (loans d))%nat
  ∧ (length (list_overdue now d) ≤ n_overdue)%nat
  ∧ (length (list_loans true d) ≤ n_active)%nat
  ∧ (references_resolve d →
     length (list_overdue now d) = n_overdue
     ∧ length (list_loans true d) = n_active).
Proof.
  unfold stats, list_overdue, list_loans.
  rewrite !merge_sort_Permutation. split_and!.
  - apply size_filter_mono. by intros kv [? _].
  - apply map_subseteq_size, map_filter_subseteq.
  - rewrite size_filter_list. apply length_omap_le.
  - rewrite (size_filter_list (λ kv : Z * loan, return_date kv.2 = None)).
    apply length_omap_le.
  - intros Href. split.
    + rewrite size_filter_list. apply length_omap_total.
      intros kv [_ Hin]%list_elem_of_filter. by apply join_loan_total.
    + rewrite (size_filter_list (λ kv : Z * loan, return_date kv.2 = None)).
      apply length_omap_total.
      intros kv [_ Hin]%list_elem_of_filter. by apply join_loan_total.
Qed.

Lemma stats_and_lists_witness :
  references_resolve one_loan
  ∧ stats (new_year + 100) one_loan = (1%nat, 1%nat, 1%nat, 1%nat)
  ∧ length (list_overdue (new_year + 100) one_loan) = 1%nat
  ∧ length (list_loans true one_loan) = 1%nat.
Proof.
  assert (Href : references_resolve one_loan).
  { intros lid l Hl.
    assert (lid = 1 ∧ l = new_loan 1 1 7 (new_year + 1)) as [-> ->].
    { assert (Hin : (lid, l) ∈ map_to_list (loans one_loan))
        by (by apply elem_of_map_to_list).
      vm_compute in Hin. apply list_elem_of_singleton in Hin.
      by simplify_eq. }
    split; vm_compute; eauto. }
  assert (Es : stats (new_year + 100) one_loan
               = (1%nat, 1%nat, 1%nat, 1%nat))
    by (vm_compute; reflexivity).
  pose proof (stats_and_lists (new_year + 100) one_loan) as H.
  rewrite Es in H.
  destruct H as (_ & _ & _ & _ & H). destruct (H Href) as [H1 H2].
  split; [exact Href |]. split; [exact Es |]. split; [exact H1 | exact H2].
Defined.

(** X12: a call of [borrow_book] that creates a loan raises the number of
    outstanding loans in [stats] by one, and a call of [return_book] that
    returns a loan lowers it by one; neither changes the numbers of books
    and of members. *)
Theorem stats_follow_loans (now now' : date) (d d' : database) :
  (∀ bid mid days lid due,
     borrow_book bid mid days now d = (d', Returned (LoanCreated lid due)) →
     (stats now' d').1.1.1 = (stats now' d).1.1.1
     ∧ (stats now' d').1.1.2 = (stats now' d).1.1.2
     ∧ (stats now' d').1.2 = S (stats now' d).1.2)
  ∧ (∀ lid r,
       return_book lid now d = (d', Returned r) →
       r = ReturnedOnTime ∨ (∃ n, r = ReturnedLate n) →
       (stats now' d').1.1.1 = (stats now' d).1.1.1
       ∧ (stats now' d').1.1.2 = (stats now' d).1.1.2
       ∧ S (stats now' d').1.2 = (stats now' d).1.2).
Proof.
  split.
  - intros bid mid days lid due E.
    apply borrow_book_inv in E
      as (_ & [(? & _)|[(b & ? & _)|(b & Hb & Hc & _ & _ & _ & E & ->)]]);
      [done | done |].
    unfold stats. simpl. split_and!.
    + rewrite (alter_as_insert _ _ _ _ Hb).
      apply map_size_insert_Some. eauto.
    + done.
    + rewrite count_insert_fresh by apply next_rowid_fresh.
      unfold hit. by rewrite decide_True.
  - intros lid r E Hr.
    apply return_book_inv in E
      as (_ & [(-> & _)|[(l & -> & _)|(l & Hl & Hret & _ & _ & ->)]]).
    { destruct Hr as [|[? ?]]; done. }
    { destruct Hr as [|[? ?]]; done. }
    unfold stats. simpl. split_and!.
    + destruct (books d !! book_id l) as [b|] eqn:Hb.
      * rewrite (alter_as_insert _ _ _ _ Hb).
        apply map_size_insert_Some. eauto.
      * by rewrite alter_id'.
    + done.
    + pose proof (count_alter (λ kv : Z * loan, return_date kv.2 = None)
                    (set_return_date now) (loans d) lid l Hl) as Hcount.
      unfold hit in Hcount. simpl in Hcount.
      destruct (decide (return_date l = None)); [| done].
      rewrite Nat.add_0_r, Nat.add_1_r in Hcount. exact Hcount.
Qed.

Lemma stats_follow_loans_witness :
  borrow_book 1 1 7 (new_year + 1) one_loan
  = ((borrow_book 1 1 7 (new_year + 1) one_loan).1,
     Returned (LoanCreated 2 (new_year + 8)))
  ∧ (stats (new_year + 100) one_loan).1.2 = 1%nat
  ∧ (stats (new_year + 100)
       (borrow_book 1 1 7 (new_year + 1) one_loan).1).1.2 = 2%nat.
Proof.
  assert (E : borrow_book 1 1 7 (new_year + 1) one_loan
    = ((borrow_book 1 1 7 (new_year + 1) one_loan).1,
       Returned (LoanCreated 2 (new_year + 8))))
    by (vm_compute; reflexivity).
  destruct (stats_follow_loans (new_year + 1) (new_year + 100) one_loan
              (borrow_book 1 1 7 (new_year + 1) one_loan).1) as [H _].
  destruct (H 1 1 7 2 (new_year + 8) E) as (_ & _ & H3).
  split; [exact E |]. split; [vm_compute; reflexivity |].
  rewrite H3. vm_compute. reflexivity.
Defined.

(** ** [LIKE] *)

Lemma append_nil_r (s : string) : s +:+ "" = s.
Proof. induction s as [|c s IH]; [done |]. by rewrite append_cons, IH. Qed.

Lemma append_assoc (a b c : string) : (a +:+ b) +:+ c = a +:+ b +:+ c.
Proof.
  induction a as [|x a IH]; [done |]. by rewrite !append_cons, IH.
Qed.

Lemma like_percent_unfold p s :
  like (String "%" p) s
  = like p s || match s with
                | EmptyString => false
                | String _ s' => like (String "%" p) s'
                end.
Proof. by destruct s. Qed.

Lemma like_char_unfold c p s :
  Ascii.eqb c "%" = false →
  like (String c p) s
  = match s with
    | EmptyString => false
    | String c2 s' => (Ascii.eqb c "_" || like_char c c2) && like p s'
    end.
Proof. intros H. simpl. by rewrite H. Qed.

Lemma like_percent p s :
  like (String "%" p) s = true ↔
  ∃ pre post, s = pre +:+ post ∧ like p post = true.
Proof.
  induction s as [|c s IH]; rewrite like_percent_unfold.
  - rewrite orb_false_r. split.
    + intros H. by exists "", "".
    + intros (pre & post & E & H). destruct pre; [| done].
      rewrite append_nil in E. by subst.
  - rewrite orb_true_iff, IH. split.
    + intros [H|(pre & post & -> & H)].
      * by exists "", (String c s).
      * exists (String c pre), post. by rewrite append_cons.
    + intros (pre & post & E & H). destruct pre as [|c' pre].
      * rewrite append_nil in E. subst. by left.
      * rewrite append_cons in E. simplify_eq. right. by exists pre, post.
Qed.

Lemma like_plain_prefix k p s :
  plain k = true →
  like (k +:+ p) s = true ↔
  ∃ mid rest, s = mid +:+ rest ∧ like_chars k mid = true ∧ like p rest = true.
Proof.
  revert s. induction k as [|c k IH]; intros s Hk.
  - rewrite append_nil. split.
    + intros H. by exists "", s.
    + intros (mid & rest & -> & Hm & H). destruct mid; [| done].
      by rewrite append_nil.
  - simpl in Hk. apply andb_prop in Hk as [[Hc1 Hc2]%andb_prop Hk].
    apply negb_true_iff in Hc1, Hc2.
    rewrite append_cons, like_char_unfold by done. rewrite Hc2. simpl.
    destruct s as [|c2 s].
    { split; [done |]. intros (mid & rest & E & Hm & _).
      destruct mid; [done |]. by rewrite append_cons in E. }
    rewrite andb_true_iff, (IH s Hk). split.
    + intros [Hc (mid & rest & -> & Hm & H)].
      exists (String c2 mid), rest. rewrite append_cons. simpl.
      by rewrite Hc, Hm.
    + intros (mid & rest & E & Hm & H). destruct mid as [|c2' mid]; [done |].
      rewrite append_cons in E. simplify_eq. simpl in Hm.
      apply andb_prop in Hm as [Hc Hm]. split; [done |]. by exists mid, rest.
Qed.

Lemma like_percent_all s : like "%" s = true.
Proof. apply like_percent. exists s, "". by rewrite append_nil_r. Qed.

Lemma like_all_percent k s :
  k ≠ "" → all_percent k = true → like k s = true.
Proof.
  revert s. induction k as [|c k IH]; intros s Hne Hk; [done |].
  simpl in Hk. apply andb_prop in Hk as [Hc Hk].
  apply Ascii.eqb_eq in Hc as ->.
  destruct k as [|c' k]; [apply like_percent_all |].
  apply like_percent. exists "", s. split; [done |]. by apply IH.
Qed.

(** Between [%] and [%], a keyword without wild cards is looked for
    anywhere in the text. *)
Lemma like_contains k s :
  plain k = true →
  like (String "%" (k +:+ "%")) s = true ↔
  ∃ pre mid post, s = pre +:+ mid +:+ post ∧ like_chars k mid = true.
Proof.
  intros Hk. rewrite like_percent. split.
  - intros (pre & rest & -> & H).
    apply (like_plain_prefix k "%" rest Hk) in H as (mid & post & -> & Hm & _).
    by exists pre, mid, post.
  - intros (pre & mid & post & -> & Hm). exists pre, (mid +:+ post).
    split; [done |]. apply like_plain_prefix; [done |].
    exists mid, post. split_and!; [done | done | apply like_percent_all].
Qed.

(** ** Lower case *)

Lemma sql_lower_py_lower c : sql_lower (py_lower c) = py_lower c.
Proof. by destruct c as [[] [] [] [] [] [] [] []]. Qed.

Lemma sql_lower_idem c : sql_lower (sql_lower c) = sql_lower c.
Proof. by destruct c as [[] [] [] [] [] [] [] []]. Qed.

Lemma py_lower_percent c : Ascii.eqb (py_lower c) "%" = Ascii.eqb c "%".
Proof. by destruct c as [[] [] [] [] [] [] [] []]. Qed.

Lemma py_lower_underscore c : Ascii.eqb (py_lower c) "_" = Ascii.eqb c "_".
Proof. by destruct c as [[] [] [] [] [] [] [] []]. Qed.

Lemma plain_py_lower k : plain (map_string py_lower k) = plain k.
Proof.
  induction k as [|c k IH]; simpl; [done |].
  by rewrite py_lower_percent, py_lower_underscore, IH.
Qed.

Lemma all_percent_py_lower k :
  all_percent k = true → all_percent (map_string py_lower k) = true.
Proof.
  induction k as [|c k IH]; simpl; [done |].
  intros [Hc Hk]%andb_prop. by rewrite py_lower_percent, Hc, IH.
Qed.

Lemma sql_lowered_map_sql s : sql_lowered (map_string sql_lower s) = true.
Proof.
  induction s as [|c s IH]; simpl; [done |].
  rewrite sql_lower_idem, IH. by rewrite (proj2 (Ascii.eqb_eq _ _)).
Qed.

Lemma sql_lowered_map_py s : sql_lowered (map_string py_lower s) = true.
Proof.
  induction s as [|c s IH]; simpl; [done |].
  rewrite sql_lower_py_lower, IH. by rewrite (proj2 (Ascii.eqb_eq _ _)).
Qed.

Lemma sql_lowered_app a b :
  sql_lowered (a +:+ b) = sql_lowered a && sql_lowered b.
Proof.
  induction a as [|c a IH]; [done |].
  rewrite append_cons. simpl. by rewrite IH, andb_assoc.
Qed.

Lemma like_char_lowered c c2 :
  sql_lower c = c → sql_lower c2 = c2 → like_char c c2 = true → c = c2.
Proof.
  intros H1 H2. unfold like_char. rewrite H1, H2.
  intros [H|[_ H]%andb_prop]%orb_prop; by apply Ascii.eqb_eq.
Qed.

Lemma like_chars_lowered k s :
  sql_lowered k = true → sql_lowered s = true →
  like_chars k s = true → k = s.
Proof.
  revert s. induction k as [|c k IH]; intros [|c2 s]; simpl; try done.
  intros [Hc Hk]%andb_prop [Hc2 Hs]%andb_prop [Hcc Hks]%andb_prop.
  apply Ascii.eqb_eq in Hc, Hc2.
  f_equal; [by apply like_char_lowered | by apply IH].
Qed.

Lemma like_chars_refl k : like_chars k k = true.
Proof.
  induction k as [|c k IH]; simpl; [done |].
  unfold like_char. by rewrite (proj2 (Ascii.eqb_eq c c)), IH.
Qed.

(** ** Texts as SQLite's [LIKE] reads them *)

Lemma until_nul_no_nul s : no_nul s = true → until_nul s = s.
Proof.
  induction s as [|c s IH]; simpl; [done |].
  intros [Hc Hs]%andb_prop. apply negb_true_iff in Hc. rewrite Hc.
  by rewrite IH.
Qed.

Lemma py_lower_nul c : Ascii.eqb (py_lower c) "000" = Ascii.eqb c "000".
Proof. by destruct c as [[] [] [] [] [] [] [] []]. Qed.

Lemma no_nul_py_lower k : no_nul (map_string py_lower k) = no_nul k.
Proof.
  induction k as [|c k IH]; simpl; [done |]. by rewrite py_lower_nul, IH.
Qed.

Lemma no_nul_app a b : no_nul (a +:+ b) = no_nul a && no_nul b.
Proof.
  induction a as [|c a IH]; [done |].
  rewrite append_cons. simpl. by rewrite IH, andb_assoc.
Qed.

Lemma no_nul_search_pattern k : no_nul (search_pattern k) = no_nul k.
Proof.
  unfold search_pattern. simpl.
  by rewrite no_nul_app, no_nul_py_lower, andb_true_r.
Qed.

Lemma all_percent_no_nul k : all_percent k = true → no_nul k = true.
Proof.
  induction k as [|c k IH]; simpl; [done |].
  intros [Hc Hk]%andb_prop. apply Ascii.eqb_eq in Hc as ->. by apply IH.
Qed.

Lemma sql_lowered_until_nul s :
  sql_lowered s = true → sql_lowered (until_nul s) = true.
Proof.
  induction s as [|c s IH]; simpl; [done |].
  intros [Hc Hs]%andb_prop. destruct (Ascii.eqb c "000"); [done |].
  simpl. by rewrite Hc, IH.
Qed.

(** A keyword without wild cards and without U+0000 is found in a field
    exactly when its lower case, as Python makes it, occurs in the lower
    case of the field, as SQLite makes it, before the first U+0000 of the
    field. *)
Lemma lower_like_plain kw x :
  plain kw = true → no_nul kw = true →
  lower_like (search_pattern kw) x = true ↔
  occurs_in (map_string py_lower kw) (until_nul (map_string sql_lower x)).
Proof.
  intros Hk Hn. unfold lower_like.
  rewrite until_nul_no_nul by (by rewrite no_nul_search_pattern).
  unfold search_pattern, occurs_in.
  rewrite like_contains by (by rewrite plain_py_lower). split.
  - intros (pre & mid & post & E & Hm). exists pre, post.
    pose proof (sql_lowered_until_nul _ (sql_lowered_map_sql x)) as Hx.
    rewrite E, !sql_lowered_app in Hx.
    apply andb_prop in Hx as [_ [Hmid _]%andb_prop].
    by rewrite (like_chars_lowered _ mid (sql_lowered_map_py kw) Hmid Hm).
  - intros (pre & post & E). exists pre, (map_string py_lower kw), post.
    split; [done | apply like_chars_refl].
Qed.

Lemma lower_like_all_percent kw x :
  all_percent kw = true → lower_like (search_pattern kw) x = true.
Proof.
  intros Hk. unfold lower_like.
  rewrite until_nul_no_nul
    by (rewrite no_nul_search_pattern; by apply all_percent_no_nul).
  unfold search_pattern.
  apply like_all_percent; [done |]. simpl.
  apply all_percent_py_lower in Hk. revert Hk.
  generalize (map_string py_lower kw). intros k.
  induction k as [|c k IH]; [done |].
  rewrite append_cons. simpl. intros [-> Hk]%andb_prop. by apply IH.
Qed.

(** ** [list_books] and [list_members] *)

Lemma sorted_by_id_strict {A} (l : list (Z * A)) :
  StronglySorted by_id l → NoDup l.*1 →
  StronglySorted (λ r1 r2, r1.1 < r2.1) l.
Proof.
  induction 1 as [|x l Hs IH Hall]; intros Hnd; [constructor |].
  rewrite fmap_cons in Hnd. apply NoDup_cons in Hnd as [Hx Hnd].
  constructor; [by apply IH |].
  apply Forall_forall. intros y Hy.
  assert (x.1 ≤ y.1) by (by apply (proj1 (Forall_forall _ _) Hall y)).
  assert (x.1 ≠ y.1).
  { intros E. apply Hx. rewrite E. apply list_elem_of_fmap. by exists y. }
  lia.
Qed.

Lemma sorted_rows {A} (P : Z * A → Prop) `{!∀ x, Decision (P x)}
    (t : gmap Z A) :
  StronglySorted (λ r1 r2, r1.1 < r2.1)
    (merge_sort by_id (filter P (map_to_list t)))
  ∧ ∀ id x, (id, x) ∈ merge_sort by_id (filter P (map_to_list t))
            ↔ t !! id = Some x ∧ P (id, x).
Proof.
  split.
  - apply sorted_by_id_strict.
    + apply StronglySorted_merge_sort; apply _.
    + rewrite merge_sort_Permutation.
      eapply sublist_NoDup; [apply (NoDup_fst_map_to_list t) |].
      apply fmap_sublist, sublist_filter.
  - intros id x. rewrite merge_sort_Permutation, list_elem_of_filter.
    rewrite elem_of_map_to_list. tauto.
Qed.

(** The query with [LIKE] returns unless the table has a row and the
    pattern is too long. *)
Lemma select_like_cases {A} (matches : string → Z * A → Prop)
    `{!∀ kw r, Decision (matches kw r)} (kw : string) (t : gmap Z A) :
  (t = ∅ ∨ utf8_length kw ≤ like_pattern_limit →
   select_like matches kw t
   = Returned (merge_sort by_id (filter (matches kw) (map_to_list t))))
  ∧ (t ≠ ∅ → like_pattern_limit < utf8_length kw →
     select_like matches kw t
     = Raised (OperationalError "LIKE or GLOB pattern too complex")).
Proof.
  unfold select_like. split.
  - intros Hok. rewrite decide_False; [done |]. intros [? ?].
    destruct Hok; [done | lia].
  - intros Hne Hlong. by rewrite decide_True.
Qed.

Lemma select_like_inv {A} (matches : string → Z * A → Prop)
    `{!∀ kw r, Decision (matches kw r)} (kw : string) (t : gmap Z A) rows :
  select_like matches kw t = Returned rows →
  rows = merge_sort by_id (filter (matches kw) (map_to_list t)).
Proof. unfold select_like. case_decide; intros E; by simplify_eq. Qed.

Lemma list_books_spec keyword d rows :
  list_books keyword d = Returned rows →
  StronglySorted (λ r1 r2, r1.1 < r2.1) rows
  ∧ ∀ id b, (id, b) ∈ rows ↔
      books d !! id = Some b
      ∧ match keyword with
        | Some (String c k) => book_matches (search_pattern (String c k)) (id, b)
        | _ => True
        end.
Proof.
  unfold list_books. destruct keyword as [[|c k]|].
  - intros E. simplify_eq.
    rewrite <- (filter_all (map_to_list (books d))). apply sorted_rows.
  - intros ->%select_like_inv. apply sorted_rows.
  - intros E. simplify_eq.
    rewrite <- (filter_all (map_to_list (books d))). apply sorted_rows.
Qed.

Lemma list_members_spec keyword d rows :
  list_members keyword d = Returned rows →
  StronglySorted (λ r1 r2, r1.1 < r2.1) rows
  ∧ ∀ id m, (id, m) ∈ rows ↔
      members d !! id = Some m
      ∧ match keyword with
        | Some (String c k) =>
            member_matches (search_pattern (String c k)) (id, m)
        | _ => True
        end.
Proof.
  unfold list_members. destruct keyword as [[|c k]|].
  - intros E. simplify_eq.
    rewrite <- (filter_all (map_to_list (members d))). apply sorted_rows.
  - intros ->%select_like_inv. apply sorted_rows.
  - intros E. simplify_eq.
    rewrite <- (filter_all (map_to_list (members d))). apply sorted_rows.
Qed.

(** The searches return, but for a keyword that makes too long a pattern
    on a table that has a row. *)
Lemma list_books_returns keyword d :
  (∀ k, keyword = Some k →
        books d = ∅ ∨ utf8_length (search_pattern k) ≤ like_pattern_limit) →
  ∃ rows, list_books keyword d = Returned rows.
Proof.
  intros H. unfold list_books. destruct keyword as [[|c k]|]; eauto.
  eexists. by apply select_like_cases, H.
Qed.

Lemma list_members_returns keyword d :
  (∀ k, keyword = Some k →
        members d = ∅ ∨ utf8_length (search_pattern k) ≤ like_pattern_limit) →
  ∃ rows, list_members keyword d = Returned rows.
Proof.
  intros H. unfold list_members. destruct keyword as [[|c k]|]; eauto.
  eexists. by apply select_like_cases, H.
Qed.


(** X14: for a keyword that is not empty and has no [%], no [_] and no
    U+0000 in it, and makes a pattern of at most 50000 bytes,
    [list_books] returns exactly the books in whose title, author or isbn
    the keyword occurs, and [list_members] the members in whose name,
    e-mail address or phone number it occurs; where the keyword is taken
    in the lower case of [str.lower()] and the field in the lower case of
    SQLite's [lower()], which leaves letters other than A..Z alone, and
    up to its first U+0000, where [LIKE] stops reading. *)
Theorem searches_find_plain_keyword (c : ascii) (k : string) (d : database) :
  plain (String c k) = true → no_nul (String c k) = true →
  utf8_length (search_pattern (String c k)) ≤ like_pattern_limit →
  let kw := map_string py_lower (String c k) in
  let low x := until_nul (map_string sql_lower x) in
  ∃ bs ms,
    list_books (Some (String c k)) d = Returned bs
    ∧ list_members (Some (String c k)) d = Returned ms
    ∧ (∀ id b, (id, b) ∈ bs ↔
         books d !! id = Some b
         ∧ (occurs_in kw (low (title b)) ∨ occurs_in kw (low (author b))
            ∨ occurs_in kw (low (ifnull (isbn b)))))
    ∧ (∀ id m, (id, m) ∈ ms ↔
         members d !! id = Some m
         ∧ (occurs_in kw (low (name m)) ∨ occurs_in kw (low (ifnull (email m)))
            ∨ occurs_in kw (low (ifnull (phone m))))).
Proof.
  intros Hk Hn Hlen kw low.
  destruct (list_books_returns (Some (String c k)) d) as [bs Eb].
  { intros ? E. simplify_eq. by right. }
  destruct (list_members_returns (Some (String c k)) d) as [ms Em].
  { intros ? E. simplify_eq. by right. }
  exists bs, ms. split_and!; [done | done | |].
  - intros id b. rewrite (proj2 (list_books_spec _ _ _ Eb) id b).
    unfold book_matches. simpl snd.
    by rewrite !(lower_like_plain (String c k)).
  - intros id m. rewrite (proj2 (list_members_spec _ _ _ Em) id m).
    unfold member_matches. simpl snd.
    by rewrite !(lower_like_plain (String c k)).
Qed.

(** X15: the keyword goes into the pattern as it is typed, so its [%]
    is a wild card: a keyword made of [%] only, and of no more than 49998
    of them, makes [list_books] and [list_members] return every row, with
    or without that character in it. *)
Theorem searches_percent_lists_all (c : ascii) (k : string) (d : database) :
  all_percent (String c k) = true →
  utf8_length (search_pattern (String c k)) ≤ like_pattern_limit →
  ∃ bs ms,
    list_books (Some (String c k)) d = Returned bs
    ∧ list_members (Some (String c k)) d = Returned ms
    ∧ (∀ id b, books d !! id = Some b → (id, b) ∈ bs)
    ∧ (∀ id m, members d !! id = Some m → (id, m) ∈ ms).
Proof.
  intros Hk Hlen.
  destruct (list_books_returns (Some (String c k)) d) as [bs Eb].
  { intros ? E. simplify_eq. by right. }
  destruct (list_members_returns (Some (String c k)) d) as [ms Em].
  { intros ? E. simplify_eq. by right. }
  exists bs, ms. split_and!; [done | done | |].
  - intros id b H. apply (list_books_spec _ _ _ Eb). split; [done |].
    left. by apply lower_like_all_percent.
  - intros id m H. apply (list_members_spec _ _ _ Em). split; [done |].
    left. by apply lower_like_all_percent.
Qed.

Lemma searches_find_plain_keyword_witness :
  plain "dUnE" = true ∧ no_nul "dUnE" = true
  ∧ utf8_length (search_pattern "dUnE") ≤ like_pattern_limit
  ∧ ∃ bs, list_books (Some "dUnE") catalogue = Returned bs
          ∧ (1, new_book "Dune" "Frank Herbert" (Some "0441013597") 2 new_year)
            ∈ bs.
Proof.
  assert (Hk : plain "dUnE" = true) by reflexivity.
  assert (Hn : no_nul "dUnE" = true) by reflexivity.
  assert (Hl : utf8_length (search_pattern "dUnE") ≤ like_pattern_limit)
    by by_compute.
  split; [exact Hk |]. split; [exact Hn |]. split; [exact Hl |].
  destruct (searches_find_plain_keyword "d" "UnE" catalogue Hk Hn Hl)
    as (bs & ms & Eb & _ & Hb & _).
  exists bs. split; [exact Eb |]. apply Hb.
  split; [vm_compute; reflexivity |].
  left. exists "", "". vm_compute. reflexivity.
Defined.

Lemma searches_percent_lists_all_witness :
  all_percent "%" = true
  ∧ utf8_length (search_pattern "%") ≤ like_pattern_limit
  ∧ ∃ bs, list_books (Some "%") catalogue = Returned bs
          ∧ (1, new_book "Dune" "Frank Herbert" (Some "0441013597") 2 new_year)
            ∈ bs.
Proof.
  assert (Hk : all_percent "%" = true) by reflexivity.
  assert (Hl : utf8_length (search_pattern "%") ≤ like_pattern_limit)
    by by_compute.
  split; [exact Hk |]. split; [exact Hl |].
  destruct (searches_percent_lists_all "%" "" catalogue Hk Hl)
    as (bs & ms & Eb & _ & Hb & _).
  exists bs. split; [exact Eb |]. apply Hb. vm_compute. reflexivity.
Defined.

(** The two lower cases differ above U+007F: a title that begins with a
    capital E with acute accent is not found under its own first letter,
    which Python lowers and SQLite does not, but is under the rest of
    it. *)
Example accented_capital_not_found :
  list_books (Some (String "201" "cole")) catalogue = Returned []
  ∧ list_books (Some "COLE") catalogue
    = Returned [(2, new_book (String "201" "cole") "Jean Martin" None 1
                      new_year)]
  ∧ list_books None catalogue
    = Returned [(1, new_book "Dune" "Frank Herbert" (Some "0441013597") 2
                      new_year);
                (2, new_book (String "201" "cole") "Jean Martin" None 1
                      new_year)].
Proof. by vm_compute. Qed.

(** [LIKE] stops at U+0000: in the title a, U+0000, b it finds a and not
    b, and of the keyword a, U+0000, z it reads the a only, as the end of
    the text. *)
Example nul_ends_the_text :
  (∃ row, list_books (Some "a") nul_title = Returned [row])
  ∧ list_books (Some "b") nul_title = Returned []
  ∧ (∃ row, list_books (Some (String "a" (String "000" "z"))) nul_title
            = Returned [row])
  ∧ list_books (Some "ab") nul_title = Returned [].
Proof.
  split; [eexists; by vm_compute |]. split; [by vm_compute |].
  split; [eexists; by vm_compute | by vm_compute].
Qed.


(** ** [load_sample_data] *)

Lemma list_rows_nil {A} (t : gmap Z A) :
  merge_sort by_id (map_to_list t) = [] ↔ t = ∅.
Proof.
  rewrite <- map_to_list_empty_iff. split.
  - intros E. apply Permutation_nil_r. rewrite <- E.
    by rewrite merge_sort_Permutation.
  - intros ->. done.
Qed.

Lemma load_sample_data_skips now d :
  books d ≠ ∅ ∨ members d ≠ ∅ →
  load_sample_data now d = (d, Returned SamplesSkipped).
Proof.
  intros H. unfold load_sample_data. simpl.
  assert (E : bool_decide (merge_sort by_id (map_to_list (books d)) ≠ [])
              || bool_decide (merge_sort by_id (map_to_list (members d)) ≠ [])
              = true).
  { apply orb_true_iff. destruct H as [H|H]; [left | right];
      apply bool_decide_eq_true_2; by rewrite list_rows_nil. }
  by rewrite E.
Qed.

Lemma no_isbn_conflict_in s (t : gmap Z book) :
  (∀ k b, t !! k = Some b → isbn b ≠ Some s) → ¬ isbn_conflict (Some s) t.
Proof. intros H (k & b & Hk & Hb). by apply (H k b). Qed.

Lemma no_email_conflict_in s (t : gmap Z member) :
  (∀ k m, t !! k = Some m → email m ≠ Some s) → ¬ email_conflict (Some s) t.
Proof. intros H (k & m & Hk & Hm). by apply (H k m). Qed.

Lemma and_then_returned {A B} (call : database → database * result A)
    (rest : A → database → database * result B) d d' a :
  call d = (d', Returned a) → and_then call rest d = rest a d'.
Proof. intros E. unfold and_then. by rewrite E. Qed.

Lemma rowids_left_insert {A} n m (seq : Z) (t : gmap Z A) x :
  m + 1 ≤ n → rowids_left n seq t →
  rowids_left m (next_rowid seq t) (<[next_rowid seq t := x]> t).
Proof.
  intros Hm H. unfold rowids_left in *.
  rewrite max_rowid_insert by (unfold next_rowid; lia).
  unfold next_rowid. lia.
Qed.

Lemma due_date_defined_sooner now days days' :
  0 ≤ days' ≤ days → due_date_defined now days → due_date_defined now days'.
Proof.
  intros Hd (Hnow & Hdays & Hdue). split; [done |].
  apply four_digit_year_iff in Hnow.
  unfold timedelta_days, datetime_day, first_day, min_day, max_day in *. lia.
Qed.

Lemma load_sample_data_loads now d :
  books d = ∅ → members d = ∅ →
  due_date_defined now 14 →
  rowids_left 3 (seq_books d) (books d) →
  rowids_left 2 (seq_members d) (members d) →
  rowids_left 2 (seq_loans d) (loans d) →
  ∃ b1 b2 b3 m1 m2 l1 l2 d',
    load_sample_data now d = (d', Returned SamplesLoaded)
    ∧ seq_books d < b1 ∧ b1 < b2 ∧ b2 < b3
    ∧ seq_members d < m1 ∧ m1 < m2
    ∧ loans d !! l1 = None ∧ loans d !! l2 = None ∧ l1 < l2
    ∧ books d' = <[b1 := clean_code 2 now]>
                   (<[b2 := fluent_python 1 now]> {[b3 := automate now]})
    ∧ members d' = <[m1 := alice now]> {[m2 := bob now]}
    ∧ loans d' = <[l2 := new_loan b2 m2 14 now]>
                   (<[l1 := new_loan b1 m1 7 now]> (loans d)).
Proof.
  intros Hb Hm Hdue14 Rb Rm Rl. unfold load_sample_data. simpl.
  assert (Hdue7 : due_date_defined now 7).
  { by apply (due_date_defined_sooner now 14). }
  assert (E : bool_decide (merge_sort by_id (map_to_list (books d)) ≠ [])
              || bool_decide (merge_sort by_id (map_to_list (members d)) ≠ [])
              = false).
  { apply orb_false_iff. split; apply bool_decide_eq_false_2;
      intros H; apply H; by apply list_rows_nil. }
  rewrite E. clear E.
  (* the three books *)
  set (b1 := next_rowid (seq_books d) (books d)).
  set (d1 := set_books (<[b1 := clean_code 3 now]> (books d)) b1 d).
  assert (Rb1 : rowids_left 2 (seq_books d1) (books d1)).
  { apply (rowids_left_insert 3); [lia | done]. }
  rewrite (and_then_returned _ _ d d1 b1).
  2: { apply add_book_returned.
       - unfold sqlite_int. lia.
       - by apply (rowids_left_le 3); [lia |].
       - rewrite Hb. apply no_isbn_conflict_in.
         intros k b. by rewrite lookup_empty. }
  set (b2 := next_rowid (seq_books d1) (books d1)).
  set (d2 := set_books (<[b2 := fluent_python 2 now]> (books d1)) b2 d1).
  assert (Rb2 : rowids_left 1 (seq_books d2) (books d2)).
  { apply (rowids_left_insert 2); [lia | done]. }
  rewrite (and_then_returned _ _ d1 d2 b2).
  2: { apply add_book_returned.
       - unfold sqlite_int. lia.
       - by apply (rowids_left_le 2); [lia |].
       - subst d1. simpl. rewrite Hb.
         apply no_isbn_conflict_in. intros k b.
         intros [[_ <-]|[_ H]]%lookup_insert_Some; [done |].
         by rewrite lookup_empty in H. }
  set (b3 := next_rowid (seq_books d2) (books d2)).
  set (d3 := set_books (<[b3 := automate now]> (books d2)) b3 d2).
  rewrite (and_then_returned _ _ d2 d3 b3).
  2: { apply add_book_returned.
       - unfold sqlite_int. lia.
       - done.
       - subst d2 d1. simpl. rewrite Hb.
         apply no_isbn_conflict_in. intros k b.
         intros [[_ <-]|[_ [[_ <-]|[_ H]]%lookup_insert_Some]]%lookup_insert_Some;
           [done | done |]. by rewrite lookup_empty in H. }
  (* the two members *)
  set (m1 := next_rowid (seq_members d3) (members d3)).
  set (d4 := set_members (<[m1 := alice now]> (members d3)) m1 d3).
  assert (Rm1 : rowids_left 1 (seq_members d4) (members d4)).
  { apply (rowids_left_insert 2); [lia | done]. }
  rewrite (and_then_returned _ _ d3 d4 m1).
  2: { apply add_member_returned.
       - by apply (rowids_left_le 2); [lia |].
       - subst d3 d2 d1. simpl. rewrite Hm.
         apply no_email_conflict_in. intros k m. by rewrite lookup_empty. }
  set (m2 := next_rowid (seq_members d4) (members d4)).
  set (d5 := set_members (<[m2 := bob now]> (members d4)) m2 d4).
  rewrite (and_then_returned _ _ d4 d5 m2).
  2: { apply add_member_returned; [done |].
       subst d4 d3 d2 d1. simpl. rewrite Hm.
       apply no_email_conflict_in. intros k m.
       intros [[_ <-]|[_ H]]%lookup_insert_Some; [done |].
       by rewrite lookup_empty in H. }
  assert (H01 : seq_books d < b1) by apply next_rowid_above.
  assert (H12 : b1 < b2) by apply (next_rowid_above (seq_books d1)).
  assert (H23 : b2 < b3) by apply (next_rowid_above (seq_books d2)).
  assert (Hm01 : seq_members d < m1) by apply (next_rowid_above (seq_members d3)).
  assert (Hm12 : m1 < m2) by apply (next_rowid_above (seq_members d4)).
  assert (Ib1 : sqlite_int b1).
  { apply next_rowid_sqlite_int. by apply (rowids_left_le 3); [lia |]. }
  assert (Ib2 : sqlite_int b2).
  { apply next_rowid_sqlite_int. by apply (rowids_left_le 2); [lia |]. }
  assert (Im1 : sqlite_int m1).
  { apply next_rowid_sqlite_int. by apply (rowids_left_le 2); [lia |]. }
  assert (Im2 : sqlite_int m2) by by apply next_rowid_sqlite_int.
  (* the two loans *)
  set (l1 := next_rowid (seq_loans d5) (loans d5)).
  set (d6 := set_books (alter (add_available (-1)) b1 (books d5)) (seq_books d5)
               (set_loans (<[l1 := new_loan b1 m1 7 now]> (loans d5)) l1 d5)).
  assert (Rl1 : rowids_left 1 (seq_loans d6) (loans d6)).
  { apply (rowids_left_insert 2); [lia | done]. }
  rewrite (and_then_returned _ _ d5 d6 (LoanCreated l1 (now + 7))).
  2: { apply (borrow_book_created _ _ _ _ _ (clean_code 3 now));
         [done | | done | done | done |].
       - subst d5 d4 d3 d2 d1. simpl.
         rewrite !lookup_insert_ne by lia. apply lookup_insert_eq.
       - by apply (rowids_left_le 2); [lia |]. }
  set (l2 := next_rowid (seq_loans d6) (loans d6)).
  set (d7 := set_books (alter (add_available (-1)) b2 (books d6)) (seq_books d6)
               (set_loans (<[l2 := new_loan b2 m2 14 now]> (loans d6)) l2 d6)).
  rewrite (and_then_returned _ _ d6 d7 (LoanCreated l2 (now + 14))).
  2: { apply (borrow_book_created _ _ _ _ _ (fluent_python 2 now));
         [done | | done | done | done | done].
       subst d6 d5 d4 d3 d2 d1. simpl.
       rewrite lookup_alter_ne by lia.
       rewrite lookup_insert_ne by lia. apply lookup_insert_eq. }
  assert (Hl1 : loans d !! l1 = None) by apply (next_rowid_fresh (seq_loans d5)).
  assert (Hl12 : l1 < l2) by apply (next_rowid_above (seq_loans d6)).
  assert (Hl2 : loans d !! l2 = None).
  { pose proof (next_rowid_fresh (seq_loans d6) (loans d6)) as H.
    fold l2 in H. subst d6. simpl in H.
    by rewrite lookup_insert_ne in H by lia. }
  exists b1, b2, b3, m1, m2, l1, l2, d7.
  split_and!; try done.
  - subst d7 d6 d5 d4 d3 d2 d1. simpl. rewrite Hb.
    apply map_eq. intros k.
    rewrite !lookup_alter, !lookup_insert, lookup_singleton, lookup_empty.
    repeat case_decide; simplify_eq; try lia; done.
  - subst d7 d6 d5 d4 d3 d2 d1. simpl. rewrite Hm.
    apply map_eq. intros k.
    rewrite !lookup_insert, lookup_singleton, lookup_empty.
    repeat case_decide; simplify_eq; try lia; done.
Qed.

(** X16: [load_sample_data] leaves a database with a book or a member in
    it as it is and says so.  On a database with no book and no member it
    adds the three books, the two members and two loans, of the first
    book to the first member and of the second book to the second,
    whatever ids the store gives the rows (they need not start at 1, and
    old loan rows may be there); the loans are under new ids and take one
    copy of each of the two books.  This is so when the day and the day
    two weeks on are days of the years 1000 to 9999 that [datetime] can
    hold, and each table has ids left for its new rows. *)
Theorem load_sample_data_outcome (now : date) (d : database) :
  (books d ≠ ∅ ∨ members d ≠ ∅ →
   load_sample_data now d = (d, Returned SamplesSkipped))
  ∧ (books d = ∅ → members d = ∅ →
     due_date_defined now 14 →
     rowids_left 3 (seq_books d) (books d) →
     rowids_left 2 (seq_members d) (members d) →
     rowids_left 2 (seq_loans d) (loans d) →
     ∃ b1 b2 b3 m1 m2 l1 l2 d',
       load_sample_data now d = (d', Returned SamplesLoaded)
       ∧ seq_books d < b1 ∧ b1 < b2 ∧ b2 < b3
       ∧ seq_members d < m1 ∧ m1 < m2
       ∧ loans d !! l1 = None ∧ loans d !! l2 = None ∧ l1 < l2
       ∧ books d' = <[b1 := clean_code 2 now]>
                      (<[b2 := fluent_python 1 now]> {[b3 := automate now]})
       ∧ members d' = <[m1 := alice now]> {[m2 := bob now]}
       ∧ loans d' = <[l2 := new_loan b2 m2 14 now]>
                      (<[l1 := new_loan b1 m1 7 now]> (loans d))).
Proof.
  split; [apply load_sample_data_skips | apply load_sample_data_loads].
Qed.

Lemma load_sample_data_outcome_witness :
  books init_db = ∅ ∧ members init_db = ∅
  ∧ (∃ d', load_sample_data new_year init_db = (d', Returned SamplesLoaded)
           ∧ stats new_year d' = (3%nat, 2%nat, 2%nat, 0%nat)
           ∧ stats (new_year + 8) d' = (3%nat, 2%nat, 2%nat, 1%nat))
  ∧ load_sample_data new_year one_book = (one_book, Returned SamplesSkipped).
Proof.
  destruct (load_sample_data_outcome new_year init_db) as [_ Hload].
  destruct (load_sample_data_outcome new_year one_book) as [Hskip _].
  split; [reflexivity |]. split; [reflexivity |]. split.
  - destruct (Hload eq_refl eq_refl)
      as (b1 & b2 & b3 & m1 & m2 & l1 & l2 & d' & E & _);
      [by_compute | by_compute | by_compute | by_compute |].
    exists d'. split; [exact E |].
    assert (d' = (load_sample_data new_year init_db).1) as ->
      by (by rewrite E).
    split; vm_compute; reflexivity.
  - apply Hskip. left. intros H.
    apply (f_equal (λ t : gmap Z book, t !! 1)) in H. by vm_compute in H.
Defined.

(** X17: on a day of the years 1000 to 9999 whose day two weeks on is one
    too, and with ids left in the three tables, [load_sample_data] does
    not raise, and a second call changes nothing: whatever the first call
    did, the next one finds data and skips. *)
Theorem load_sample_data_once (now now' : date) (d : database) :
  due_date_defined now 14 →
  rowids_left 3 (seq_books d) (books d) →
  rowids_left 2 (seq_members d) (members d) →
  rowids_left 2 (seq_loans d) (loans d) →
  ∃ r, load_sample_data now d = ((load_sample_data now d).1, Returned r)
       ∧ load_sample_data now' (load_sample_data now d).1
         = ((load_sample_data now d).1, Returned SamplesSkipped).
Proof.
  intros Hdue Rb Rm Rl.
  destruct (decide (books d = ∅)) as [Hb|Hb];
    [destruct (decide (members d = ∅)) as [Hm|Hm] |].
  - destruct (load_sample_data_loads now d Hb Hm Hdue Rb Rm Rl)
      as (b1 & b2 & b3 & m1 & m2 & l1 & l2 & d' & E & _ & _ & _ & _ & _ & _
          & _ & _ & Hbooks & _).
    exists SamplesLoaded. rewrite E. simpl. split; [done |].
    apply load_sample_data_skips. left. rewrite Hbooks.
    apply insert_non_empty.
  - exists SamplesSkipped.
    rewrite (load_sample_data_skips now d) by auto. simpl.
    split; [done |]. apply load_sample_data_skips. auto.
  - exists SamplesSkipped.
    rewrite (load_sample_data_skips now d) by auto. simpl.
    split; [done |]. apply load_sample_data_skips. auto.
Qed.

Lemma load_sample_data_once_witness :
  ∃ r, load_sample_data new_year init_db
       = ((load_sample_data new_year init_db).1, Returned r)
       ∧ load_sample_data (new_year + 30) (load_sample_data new_year init_db).1
         = ((load_sample_data new_year init_db).1, Returned SamplesSkipped).
Proof.
  apply (load_sample_data_once new_year (new_year + 30) init_db); by_compute.
Defined.

(** Without an id left for a book the sample data is not loaded: the
    first [add_book] raises. *)
Example load_sample_data_full :
  ∃ d, books d = ∅ ∧ members d = ∅
       ∧ load_sample_data new_year d
         = (d, Raised (OperationalError "database or disk is full")).
Proof.
  exists (set_books ∅ 9223372036854775807 init_db).
  split; [done |]. split; [done |]. by vm_compute.
Qed.

(** ** [print_rows] *)

Lemma length_append (a b : string) :
  String.length (a +:+ b) = (String.length a + String.length b)%nat.
Proof.
  induction a as [|c a IH]; [done |]. rewrite append_cons. simpl. by rewrite IH.
Qed.

Lemma length_repeat_char c w : String.length (repeat_char c w) = w.
Proof. induction w as [|w IH]; simpl; [done | by rewrite IH]. Qed.

Lemma length_ljust w s :
  (String.length s ≤ w)%nat → String.length (ljust w s) = w.
Proof.
  intros H. unfold ljust. rewrite length_append, length_repeat_char. lia.
Qed.

Lemma ljust_padded w s : (String.length s ≤ w)%nat → padded s w (ljust w s).
Proof.
  intros H. exists (w - String.length s)%nat. split; [done |].
  by apply length_ljust.
Qed.

Lemma length_join sep1 sep2 (xs ys : list string) :
  String.length sep1 = String.length sep2 →
  String.length <$> xs = String.length <$> ys →
  String.length (join sep1 xs) = String.length (join sep2 ys).
Proof.
  intros Hsep. revert ys.
  induction xs as [|x xs IH]; intros [|y ys] E; simplify_eq/=; [done |].
  specialize (IH ys H0).
  destruct xs as [|x' xs], ys as [|y' ys]; simplify_eq/=; [done |].
  rewrite !length_append. simpl in IH. rewrite Hsep. lia.
Qed.

Lemma fmt_row_aligned (widths : list nat) (texts : list string) :
  Forall2 (λ t w, (String.length t ≤ w)%nat) texts widths →
  aligned widths texts (fmt_row widths texts).
Proof.
  intros H. exists (zip_with (λ v w, ljust w v) texts widths).
  split; [| done].
  induction H as [|t w ts ws Htw _ IH]; [constructor |].
  cbn [zip_with]. constructor; [by apply ljust_padded | done].
Qed.

Lemma aligned_length (widths : list nat) (texts : list string) line :
  aligned widths texts line →
  String.length line = String.length (join "-+-" (repeat_char "-" <$> widths)).
Proof.
  intros (cells & Hcells & ->). apply length_join; [done |].
  induction Hcells as [|t w c ts ws cs (n & _ & Hc) _ IH]; [done |].
  rewrite !fmap_cons, length_repeat_char, Hc. by f_equal.
Qed.

Section print_rows_facts.
Context {Row : Type} (item : Row → string → option value)
  (keys : Row → list string).

Lemma column_width_widest rows h w :
  column_width item rows h = Some w →
  ∃ cells, mapM (λ r, item r h) rows = Some cells
           ∧ widest (h :: (str <$> cells)) w.
Proof.
  unfold column_width. intros H.
  destruct (mapM (λ r, item r h) rows) as [cells|] eqn:Hcells; [| done].
  cbn [mbind option_bind] in H. injection H as <-.
  exists cells. split; [done |].
  rewrite list_fmap_compose.
  set (texts := h :: (str <$> cells)).
  change (widest texts (max_list (String.length <$> texts))). split.
  - intros t Ht. apply max_list_elem_of_le, list_elem_of_fmap. by exists t.
  - assert (Hin : max_list (String.length <$> texts)
                  ∈ String.length <$> texts) by by apply max_list_elem_of.
    apply list_elem_of_fmap in Hin as (t & Hlen & Ht). by exists t.
Qed.

Lemma column_width_bounds rows h w :
  column_width item rows h = Some w →
  (String.length h ≤ w)%nat
  ∧ ∀ row v, row ∈ rows → item row h = Some v →
             (String.length (str v) ≤ w)%nat.
Proof.
  intros (cells & Hcells & Hle & _)%column_width_widest.
  split; [apply Hle; by left |]. intros row v Hrow Hv.
  apply Hle. right. apply list_elem_of_fmap. exists v. split; [done |].
  apply mapM_Some_1 in Hcells.
  clear -Hcells Hrow Hv. induction Hcells as [|r c rs cs Hr _ IH].
  - by apply elem_of_nil in Hrow.
  - apply elem_of_cons in Hrow as [->|Hrow].
    + rewrite Hv in Hr. simplify_eq. by left.
    + right. by apply IH.
Qed.

Lemma header_fits headers rows widths :
  mapM (column_width item rows) headers = Some widths →
  Forall2 (λ t w, (String.length t ≤ w)%nat) headers widths.
Proof.
  intros H%mapM_Some_1. eapply Forall2_impl; [exact H |].
  intros h w Hw. simpl in Hw. by apply column_width_bounds in Hw as [? _].
Qed.

Lemma body_fits headers rows widths row cells :
  mapM (column_width item rows) headers = Some widths →
  row ∈ rows → mapM (item row) headers = Some cells →
  Forall2 (λ t w, (String.length t ≤ w)%nat) (str <$> cells) widths.
Proof.
  intros H%mapM_Some_1 Hrow Hc%mapM_Some_1. revert cells Hc.
  induction H as [|h w hs ws Hw _ IH]; intros cells Hc.
  - inversion Hc. constructor.
  - inversion Hc as [|? v ? vs Hv Hvs]; simplify_eq.
    rewrite fmap_cons. constructor; [| by apply IH].
    apply column_width_bounds in Hw as [_ Hw]. by apply (Hw row).
Qed.

Lemma column_width_total rows h :
  (∀ row, row ∈ rows → is_Some (item row h)) →
  is_Some (column_width item rows h).
Proof.
  intros H. unfold column_width.
  destruct (mapM (λ r, item r h) rows) as [cells|] eqn:E; [by eexists |].
  apply mapM_None_1, Exists_exists in E as (row & Hrow & Hnone).
  destruct (H row Hrow) as [v Hv]. congruence.
Qed.

Lemma mapM_total {A B} (f : A → option B) (l : list A) :
  (∀ x, x ∈ l → is_Some (f x)) → is_Some (mapM f l).
Proof.
  intros H. destruct (mapM f l) eqn:E; [by eexists |].
  apply mapM_None_1, Exists_exists in E as (x & Hx & Hnone).
  destruct (H x Hx) as [y Hy]. congruence.
Qed.

(** X18: [print_rows] prints "(no results)" for no rows.  For one row or
    more, when every row has every column of the headers, it prints the
    header line, then the rule, then one line for each row in the order of
    the rows, and nothing else.  Every column is as wide as the longest of
    its header and its cells, as [str] writes them.  The header line is
    the headers and the line of a row is its cells, each followed by
    spaces up to the width of its column and nothing cut, with [" | "]
    between them; the rule is dashes of the same widths with ["-+-"]
    between them.  So all the lines have the same length and the columns
    line up.  When some row lacks a column of the headers nothing is
    printed ([IndexError]). *)
Theorem print_rows_aligned (row0 : Row) (rows : list Row)
    (headers : option (list string)) :
  print_rows item keys [] headers = Some ["(no results)"]
  ∧ (let hs := match headers with Some hs => hs | None => keys row0 end in
     let table := row0 :: rows in
     ((∀ row h, row ∈ table → h ∈ hs → is_Some (item row h)) →
      ∃ widths head_line body,
        print_rows item keys table headers
        = Some (head_line :: join "-+-" (repeat_char "-" <$> widths) :: body)
        ∧ Forall2 (λ h w, ∃ cells, mapM (λ r, item r h) table = Some cells
                                   ∧ widest (h :: (str <$> cells)) w)
            hs widths
        ∧ aligned widths hs head_line
        ∧ Forall2 (λ row line, ∃ cells, mapM (item row) hs = Some cells
                                        ∧ aligned widths (str <$> cells) line)
            table body
        ∧ ∃ n, Forall (λ line, String.length line = n)
                 (head_line :: join "-+-" (repeat_char "-" <$> widths)
                  :: body))
     ∧ ((∃ row h, row ∈ table ∧ h ∈ hs ∧ item row h = None) →
        print_rows item keys table headers = None)).
Proof.
  split; [done |]. intros hs table. split.
  - intros Hhs. unfold print_rows, table. fold hs. fold table.
    destruct (mapM_total (column_width item table) hs) as [widths Hw].
    { intros h Hh. apply column_width_total. intros row Hrow. by apply Hhs. }
    rewrite Hw. cbn [mbind option_bind].
    set (line := λ row, cells ← mapM (item row) hs;
                        Some (fmt_row widths (str <$> cells))).
    destruct (mapM_total line table) as [body Hbody].
    { intros row Hrow. unfold line.
      destruct (mapM_total (item row) hs) as [cells ->]; [| by eexists].
      intros h Hh. by apply Hhs. }
    rewrite Hbody. cbn [mbind option_bind].
    exists widths, (fmt_row widths hs), body.
    assert (Hhead : aligned widths hs (fmt_row widths hs)).
    { apply fmt_row_aligned. by apply (header_fits hs table). }
    assert (Hlines : Forall2 (λ row line,
              ∃ cells, mapM (item row) hs = Some cells
                       ∧ aligned widths (str <$> cells) line) table body).
    { apply mapM_Some_1 in Hbody.
      apply Forall2_same_length_lookup. split; [by eapply Forall2_length |].
      intros i row l Hrow Hl.
      pose proof (Forall2_lookup_lr _ _ _ _ _ _ Hbody Hrow Hl) as Hline.
      unfold line in Hline.
      destruct (mapM (item row) hs) as [cells|] eqn:Hcells; simplify_eq/=.
      exists cells. split; [done |]. apply fmt_row_aligned.
      apply (body_fits hs table widths row); [done | | done].
      by apply list_elem_of_lookup_2 in Hrow. }
    split; [done |]. split.
    { apply mapM_Some_1 in Hw. eapply Forall2_impl; [exact Hw |].
      intros h w Hcol. by apply column_width_widest. }
    split; [done |]. split; [done |].
    exists (String.length (join "-+-" (repeat_char "-" <$> widths))).
    repeat constructor.
    + by apply (aligned_length widths hs).
    + apply Forall_forall. intros l Hl.
      apply list_elem_of_lookup in Hl as [i Hi].
      destruct (Forall2_lookup_r _ _ _ _ _ Hlines Hi)
        as (row & _ & cells & _ & Hal).
      by apply (aligned_length widths (str <$> cells)).
  - intros (row & h & Hrow & Hh & Hnone). unfold print_rows, table.
    fold hs. fold table.
    assert (Hw : mapM (column_width item table) hs = None).
    { apply mapM_None_2, Exists_exists. exists h. split; [done |].
      unfold column_width.
      assert (Hc : mapM (λ r, item r h) table = None).
      { apply mapM_None_2, Exists_exists. by exists row. }
      by rewrite Hc. }
    by rewrite Hw.
Qed.

End print_rows_facts.

Example print_rows_loan_table :
  print_rows assoc_item assoc_keys loan_table (Some loan_headers)
  = Some ["id | book_title                            | due_date  ";
          "---+---------------------------------------+-----------";
          "1  | Dune                                  | None      ";
          "12 | Automate the Boring Stuff with Python | 2024-05-01"]
  ∧ print_rows assoc_item assoc_keys loan_table None
    = print_rows assoc_item assoc_keys loan_table (Some loan_headers)
  ∧ print_rows assoc_item assoc_keys loan_table (Some ["id"; "title"]) = None.
Proof. by vm_compute. Qed.

Lemma print_rows_aligned_witness :
  ∃ widths head_line body,
    print_rows assoc_item assoc_keys loan_table (Some loan_headers)
    = Some (head_line :: join "-+-" (repeat_char "-" <$> widths) :: body)
    ∧ aligned widths loan_headers head_line
    ∧ head_line = "id | book_title                            | due_date  "
    ∧ length body = 2%nat.
Proof.
  destruct (print_rows_aligned assoc_item assoc_keys
              [("id", VInt 1); ("book_title", VText "Dune");
               ("due_date", VNone)]
              [[("id", VInt 12);
                ("book_title", VText "Automate the Boring Stuff with Python");
                ("due_date", VText "2024-05-01")]]
              (Some loan_headers)) as [_ [H _]].
  destruct H as (widths & head_line & body & E & _ & Hhead & Hbody & _).
  - intros row h Hrow Hh.
    assert (Hd : bool_decide (Forall (λ row, Forall (λ h,
                   is_Some (assoc_item row h)) loan_headers) loan_table)
                 = true) by (vm_compute; reflexivity).
    apply bool_decide_eq_true_1 in Hd.
    rewrite Forall_forall in Hd. specialize (Hd row Hrow).
    rewrite Forall_forall in Hd. by apply Hd.
  - exists widths, head_line, body. split; [exact E |].
    split; [exact Hhead |]. split.
    + assert (E' : print_rows assoc_item assoc_keys loan_table
                     (Some loan_headers)
                   = Some ["id | book_title                            | due_date  ";
                           "---+---------------------------------------+-----------";
                           "1  | Dune                                  | None      ";
                           "12 | Automate the Boring Stuff with Python | 2024-05-01"])
        by (vm_compute; reflexivity).
      unfold loan_table in E'. rewrite E' in E. by injection E as <- _ _.
    + apply Forall2_length in Hbody. simpl in Hbody. lia.
Defined.

(** ** The menu *)

(** X19: the menu never takes its "Invalid choice" branch: the choice it
    reads is one of 0..13, each of which has a branch of its own, and
    anything else typed is asked for again. *)
Theorem menu_never_invalid (lines : list (option Z)) (choice : Z)
    (rest : list (option Z)) :
  input_choice lines = Some (choice, rest) →
  0 ≤ choice ≤ 13 ∧ menu_dispatch choice ≠ MenuInvalid.
Proof.
  intros H. apply input_int_characterised in H as (_ & _ & _ & [Hlo Hhi]).
  split; [done |]. unfold menu_dispatch.
  repeat (case_decide; [done |]). lia.
Qed.

Lemma menu_never_invalid_witness :
  input_choice [Some 14; None; Some (-1); Some 12; Some 3]
  = Some (12, [Some 3])
  ∧ 0 ≤ 12 ≤ 13 ∧ menu_dispatch 12 ≠ MenuInvalid.
Proof.
  assert (E : input_choice [Some 14; None; Some (-1); Some 12; Some 3]
              = Some (12, [Some 3])) by (vm_compute; reflexivity).
  split; [exact E |]. exact (menu_never_invalid _ _ _ E).
Defined.

(** ** Late returns and overdue loans *)



(** X21: a loan that [borrow_book] makes for a member that exists is in
    the overdue list of a later day, nothing else having been done,
    exactly when that day is after the loan date plus the days of the
    loan, when the due date and the later day are days of the years 1000
    to 9999, whose texts are in the order of the days.  (A due date
    before the year 1000 is written with fewer digits, and the text of
    such a date is compared as it is written.) *)
Theorem new_loan_overdue_after_due (bid mid days : Z) (now t : date)
    (d d' : database) (lid : Z) (due : date) :
  is_Some (members d !! mid) →
  borrow_book bid mid days now d = (d', Returned (LoanCreated lid due)) →
  four_digit_year (now + days) → four_digit_year t →
  due = now + days
  ∧ ((∃ r, r ∈ list_overdue t d' ∧ row_id r = lid) ↔ now + days < t).
Proof.
  intros [m Hm] E Hdue Ht.
  apply borrow_book_inv in E
    as (_ & [(? & _)|[(b & ? & _)|(b & Hb & Hc & _ & _ & _ & Hr & ->)]]);
    [done | done |].
  injection Hr as -> ->. split; [done |].
  set (lid := next_rowid (seq_loans d) (loans d)).
  set (d' := set_books _ _ _).
  assert (Hl : loans d' !! lid = Some (new_loan bid mid days now)).
  { subst d'. simpl. apply lookup_insert_eq. }
  split.
  - intros (r & (l & b' & m' & Hl' & _ & Hbefore & _)%elem_of_list_overdue
            & Hid).
    rewrite Hid, Hl in Hl'. simplify_eq. simpl in Hbefore.
    by apply before_iff in Hbefore.
  - intros Hlate.
    exists {| row_id := lid; row_loan := new_loan bid mid days now;
              book_title := title (add_available (-1) b);
              member_name := name m |}.
    split; [| done]. apply elem_of_list_overdue.
    exists (new_loan bid mid days now), (add_available (-1) b), m.
    split_and!; try done.
    + simpl. by apply before_iff.
    + subst d'. simpl. by rewrite lookup_alter_eq, Hb.
Qed.

Lemma new_loan_overdue_after_due_witness :
  is_Some (members one_loan !! 1)
  ∧ borrow_book 1 1 7 (new_year + 1) one_loan
    = ((borrow_book 1 1 7 (new_year + 1) one_loan).1,
       Returned (LoanCreated 2 (new_year + 8)))
  ∧ four_digit_year (new_year + 1 + 7) ∧ four_digit_year (new_year + 9)
  ∧ ((∃ r, r ∈ list_overdue (new_year + 9)
                 (borrow_book 1 1 7 (new_year + 1) one_loan).1
           ∧ row_id r = 2) ↔ new_year + 1 + 7 < new_year + 9).
Proof.
  assert (Hm : is_Some (members one_loan !! 1)) by (vm_compute; eauto).
  assert (E : borrow_book 1 1 7 (new_year + 1) one_loan
    = ((borrow_book 1 1 7 (new_year + 1) one_loan).1,
       Returned (LoanCreated 2 (new_year + 8))))
    by (vm_compute; reflexivity).
  assert (H1 : four_digit_year (new_year + 1 + 7)) by by_compute.
  assert (H2 : four_digit_year (new_year + 9)) by by_compute.
  split; [exact Hm |]. split; [exact E |].
  split; [exact H1 |]. split; [exact H2 |].
  exact (proj2 (new_loan_overdue_after_due 1 1 7 (new_year + 1) (new_year + 9)
                  one_loan _ 2 (new_year + 8) Hm E H1 H2)).
Defined.
